(** * RTSareavolume: the batch pre-disturbance DEM / area-volume script

    A shallow embedding of
    [Code/DEM_PredisturbanceGeneration_AreaVolumeCalc_Batch_NN_Py3.py].

    The script is an orchestration of geoprocessing calls.  It is embedded
    in three layers:

    - the naming code (string concatenations of the script), as functions
      on [string];
    - the sequence of geoprocessing calls the script issues, as a list of
      [command]s computed from the configuration and the input datasets
      ([feature_commands], [dataset_commands], [script_commands]); the
      Python variables that survive a loop iteration ([desc],
      [zsFolder_joined], [rmseFolder_joined]) are threaded explicitly;
    - an interpreter [exec] of those calls over a [World] (rasters, the
      memory workspace, layers, TINs, tables), in an error monad: a call
      that raises stops the script, as an uncaught Python exception does.

    The geoprocessing engine itself is not part of the repository; what
    the interpreter needs of it (intersection test, buffering, extents,
    clipping, triangulation, natural-neighbour rasterisation) is the
    interface [Engine]. *)

From Stdlib Require Import ZArith QArith Qround Lqa Lia Bool List String Ascii.
From Stdlib Require Import Decimal DecimalString DecimalPos DecimalZ.
Import ListNotations.
Open Scope string_scope.
Open Scope Z_scope.

(* ================================================================== *)
(** * Strings *)
(* ================================================================== *)

Module Str.

(** Python [str(n)] for an integer [n]. *)
Definition str (n : Z) : string := NilZero.string_of_int (Z.to_int n).

Definition chars (s : string) : list ascii := list_ascii_of_string s.

Definition is_sep (c : ascii) : bool :=
  (Ascii.eqb c "\" || Ascii.eqb c "/")%bool.

Fixpoint last_char (s : string) : option ascii :=
  match s with
  | EmptyString => None
  | String c EmptyString => Some c
  | String _ s' => last_char s'
  end.

(** The characters [str] writes: a digit or the minus sign. *)
Definition numeric (c : ascii) : bool :=
  (Ascii.eqb c "-"
   || (Nat.leb 48 (nat_of_ascii c) && Nat.leb (nat_of_ascii c) 57))%bool.

(** [os.path.join(path, p)] of [ntpath], for a [p] that has no drive and
    does not start with a separator (every folder name of the script), and
    a [path] whose part after the drive is not empty: a separator is added
    unless [path] already ends with one. *)
Definition join (path p : string) : string :=
  match last_char path with
  | Some c => if is_sep c then path ++ p else path ++ "\" ++ p
  | None => p
  end.

(** What [join path] puts in front of its second argument. *)
Definition join_prefix (path : string) : string :=
  match last_char path with
  | Some c => if is_sep c then path else path ++ "\"
  | None => ""
  end.

End Str.

(* ================================================================== *)
(** * Naming (the string concatenations of the script) *)
(* ================================================================== *)

Module Naming.
Import Str.

(** Line 139. *)
Definition slumpname (rowclean : Z) : string := "_SlumpID_" ++ str rowclean.

(** The per-feature artifacts that the script names with a path. *)
Inductive Stage : Type :=
| ClippedDEM       (* line 143: 01_ClippedDEMs\<base><slump>.tif *)
| PointsPost       (* line 163: memory\X<base><slump>_points_post *)
| PredisTIN        (* line 206 *)
| PredisDEM        (* line 209 *)
| DOD              (* line 232 *)
| IndZonalStats    (* line 253 *)
| IndRMSEStats     (* line 285 *)
| DODsq.           (* line 289 *)

Definition all_stages : list Stage :=
  [ClippedDEM; PointsPost; PredisTIN; PredisDEM; DOD; IndZonalStats;
   IndRMSEStats; DODsq].

Definition suffix (st : Stage) : string :=
  match st with
  | ClippedDEM => ".tif"
  | PointsPost => "_points_post"
  | PredisTIN => "_predisturbanceTIN"
  | PredisDEM => "_predisturbance.tif"
  | DOD => "_dod.tif"
  | IndZonalStats => "_zs.dbf"
  | IndRMSEStats => "_rmse.dbf"
  | DODsq => "_dodsq.tif"
  end.

(** [desc.baseName + slumpname + <suffix>]. *)
Definition artifact_name (baseName : string) (rowclean : Z) (st : Stage)
  : string :=
  baseName ++ slumpname rowclean ++ suffix st.

Definition clipDEMname b i := artifact_name b i ClippedDEM.
Definition postpointsDEMname b i := artifact_name b i PointsPost.
Definition prepointsDEMname (b : string) (i : Z) :=
  b ++ slumpname i ++ "_points_pre".
Definition predisTINname b i := artifact_name b i PredisTIN.
Definition predisDEMname b i := artifact_name b i PredisDEM.
Definition dodname b i := artifact_name b i DOD.
Definition iTablename b i := artifact_name b i IndZonalStats.
Definition rmseTablename b i := artifact_name b i IndRMSEStats.
Definition dodsqname b i := artifact_name b i DODsq.

(** The folder names, lines 99, 126, 200, 226, 247, 279, 322, 362. *)
Definition bufFolder_name := "00_SlumpBuffers".
Definition clipFolder_name := "01_ClippedDEMs".
Definition predisFolder_name := "02_PredisturbDEMs".
Definition dodFolder_name := "03_DODs".
Definition zsFolder_name (baseName : string) := "04_IndZonalStats_" ++ baseName.
Definition rmseFolder_name (baseName : string) := "05_IndRMSEStats_" ++ baseName.
Definition fzsFolder_name := "06_FinalZonalStats".
Definition frmseFolder_name := "07_FinalRMSEStats".

(** The folder of a stage: [os.path.join(env.workspace, <folder name>)];
    the point cloud lives in the memory workspace. *)
Definition artifact_dir (wspace baseName : string) (st : Stage) : string :=
  match st with
  | ClippedDEM => join wspace clipFolder_name
  | PointsPost => "memory"
  | PredisTIN | PredisDEM => join wspace predisFolder_name
  | DOD | DODsq => join wspace dodFolder_name
  | IndZonalStats => join wspace (zsFolder_name baseName)
  | IndRMSEStats => join wspace (rmseFolder_name baseName)
  end.

(** What the script puts between the folder and the name: ["\\"] (one
    backslash), and ["\X"] (backslash, X) for the memory workspace. *)
Definition separator (st : Stage) : string :=
  match st with
  | PointsPost => "\X"
  | _ => "\"
  end.

Definition artifact_path (wspace baseName : string) (rowclean : Z)
  (st : Stage) : string :=
  artifact_dir wspace baseName st ++ separator st
    ++ artifact_name baseName rowclean st.

(** Lines 106, 336, 376, 406, 427. *)
Definition outputVector_name (baseName : string) := baseName ++ "_50m_buf.shp".
Definition fTablename (baseName : string) :=
  baseName ++ "_FinalStatistics" ++ ".dbf".
Definition frmseTablename (baseName : string) :=
  baseName ++ "_FinalRMSE" ++ ".dbf".
Definition fsTablename (baseName : string) :=
  baseName ++ "_FinalStatistics_merged" ++ ".dbf".
Definition fmrmseTablename (baseName : string) :=
  baseName ++ "_FinalRMSE_merged" ++ ".dbf".

End Naming.

(* ================================================================== *)
(** * Data model *)
(* ================================================================== *)

(** Association lists used as the stores of the workspace.  Writing an
    existing key replaces its value in place ([env.overwriteOutput = True],
    line 71); a new key goes to the end, so a listing is in creation
    order. *)
Module Store.
Section WithKey.
Context {K V : Type} (eqb : K -> K -> bool).

Fixpoint lookup (k : K) (l : list (K * V)) : option V :=
  match l with
  | [] => None
  | (k', v) :: l' => if eqb k k' then Some v else lookup k l'
  end.

Fixpoint set (k : K) (v : V) (l : list (K * V)) : list (K * V) :=
  match l with
  | [] => [(k, v)]
  | (k', v') :: l' => if eqb k k' then (k, v) :: l' else (k', v') :: set k v l'
  end.

Fixpoint remove (k : K) (l : list (K * V)) : list (K * V) :=
  match l with
  | [] => []
  | (k', v') :: l' => if eqb k k' then remove k l' else (k', v') :: remove k l'
  end.

End WithKey.
End Store.

(** A raster cell that holds data: the coordinates of its centre and its
    value.  Elevations are floating-point numbers in the engine; they are
    idealised as rationals here. *)
Record Cell : Type := mkCell { cx : Q; cy : Q; cval : Q }.

(** A raster: its cells that hold data (NoData cells are absent). *)
Definition Raster : Type := list Cell.

Record Extent : Type :=
  mkExtent { XMin : Q; YMin : Q; XMax : Q; YMax : Q }.

(** The geoprocessing engine, as far as the interpreter needs it. *)
Class Engine : Type := {
  Polygon : Type;
  (** the point at [(x, y)] intersects the polygon *)
  intersects : Q -> Q -> Polygon -> bool;
  (** [Buffer_analysis] by 50 m, on one geometry *)
  buffer : Polygon -> Polygon;
  (** [feat.extent] *)
  extent_of : Polygon -> Extent;
  (** [Clip_management] of a raster to an extent *)
  clip : Raster -> Extent -> Raster;
  (** [CreateTin_3d] succeeds on these mass points *)
  triangulable : list Cell -> bool;
  (** [TinRaster_3d] with NATURAL_NEIGHBORS at the given sampling *)
  tin_raster : list Cell -> string -> Raster;
  (** a triangulation has at least three nodes *)
  triangulable_three :
    forall pts, triangulable pts = true -> (3 <= List.length pts)%nat
}.

Section Model.
Context {E : Engine}.

(** One polygon record: the value of its UniqueID column and its
    geometry.  [IDattribute] (line 80) is documented as the position of
    the UniqueID column, so [row.getValue(fieldnames[IDattribute])] is
    that value. *)
Record Feature : Type := mkFeature { UniqueID : Z; shape : Polygon }.

(** A feature class of the workspace: the name [ListFeatureClasses]
    returns, [Describe(..).baseName], and its rows in cursor order. *)
Record Dataset : Type :=
  mkDataset { slumpset : string; baseName : string; rows : list Feature }.

(** The configuration block, lines 77-80. *)
Record Config : Type := mkConfig {
  wspace : string;
  inputDEM : string;
  DEMres : Q;
  IDattribute : nat
}.

End Model.

(* ================================================================== *)
(** * The geoprocessing calls of the script *)
(* ================================================================== *)

(** What a layer is made from: a feature class of the memory workspace or
    one of the input feature classes. *)
Inductive Source : Type :=
| MemoryFC (path : string)
| InputFC (name : string).

(** A file of the workspace, kept as the folder and the name the script
    concatenates with ["\\"]. *)
Record Path : Type := mkPath { dir : string; file : string }.

Definition path_str (p : Path) : string := dir p ++ "\" ++ file p.

Inductive command : Type :=
| makedirs (folder : string)
| Describe (what : string)
| Buffer_analysis (inp : string) (out : Path)
| Clip_management (in_raster : string) (rectangle : Extent) (out : Path)
| RasterToPoint_conversion (in_raster : Path) (out : string)
| MakeFeatureLayer_management (src : Source) (layer : string)
| SelectLayerByAttribute_management (layer : string) (where_clause : string)
| SelectLayerByLocation_management (layer : string) (select_features : string)
| DeleteFeatures_management (layer : string)
| CreateTin_3d (out : Path) (in_fc : string) (in_spec : string)
| TinRaster_3d (tin : Path) (out : Path) (sampling : string)
| Delete_management (what : string)
| Minus (a b : Path) (save : Path)
| Square (a : Path) (save : Path)
| CalculateStatistics_management (raster : Path)
| ZonalStatisticsAsTable_sa (zone_layer : string) (zone_field : string)
    (raster : Path) (out : Path) (statistics : string)
| Merge_ListTables (folder : string) (out : Path)
| NameError (variable : string).

Module Script.
Import Str Naming.

Definition dquote : string := String (Ascii.ascii_of_nat 34) EmptyString.

(** Line 184: ['"UniqueID" = ' + str(rowclean)]. *)
Definition whereClause (rowclean : Z) : string :=
  dquote ++ "UniqueID" ++ dquote ++ " = " ++ str rowclean.

(** Lines 263 and 306: the adjacent literals [""], ['UniqueID'] and
    [" = "] are one literal, so the query is [UniqueID = <id> ]. *)
Definition qry (rowclean : Z) : string :=
  "UniqueID" ++ " = " ++ str rowclean ++ " ".

Definition tempPoints := "pointsLayer".
Definition tempArea := "areaLayer".
Definition zoneLayer := "zone".

(** The path of a stage's artifact, as folder and name. *)
Definition artifact (w b : string) (i : Z) (st : Stage) : Path :=
  mkPath (artifact_dir w b st) (artifact_name b i st).

(** Line 164. *)
Definition postpointsDEMoutput (b : string) (i : Z) : string :=
  "memory" ++ "\X" ++ postpointsDEMname b i.

(** Line 213: [featuresTIN] is the feature class followed by this
    description of its role; [CreateTin_3d] keeps the two apart. *)
Definition featuresTIN_spec : string := " GRID_CODE Mass_Points <None>".
Definition featuresTIN (b : string) (i : Z) : string :=
  postpointsDEMoutput b i ++ featuresTIN_spec.

Section Plan.
Context {E : Engine}.
Variable cfg : Config.

Let w := wspace cfg.

(** Steps 2 and 3, lines 142-168: clip the DEM to the extent of the
    buffered feature and turn the clip into points. *)
Definition extract_commands (d : Dataset) (f : Feature) : list command :=
  let b := baseName d in
  let rowclean := UniqueID f in
  let clipDEMoutput := artifact w b rowclean ClippedDEM in
  [ Describe (inputDEM cfg);
    Clip_management (inputDEM cfg) (extent_of (buffer (shape f))) clipDEMoutput;
    RasterToPoint_conversion clipDEMoutput (postpointsDEMoutput b rowclean) ].

(** Step 4, lines 178-190: select the points on the feature and delete
    them. *)
Definition mask_commands (d : Dataset) (f : Feature) : list command :=
  let b := baseName d in
  let rowclean := UniqueID f in
  [ MakeFeatureLayer_management (MemoryFC (postpointsDEMoutput b rowclean))
      tempPoints;
    MakeFeatureLayer_management (InputFC (slumpset d)) tempArea;
    SelectLayerByAttribute_management tempArea (whereClause rowclean);
    SelectLayerByLocation_management tempPoints tempArea;
    DeleteFeatures_management tempPoints ].

(** Step 5, lines 200-219. *)
Definition reconstruct_commands (d : Dataset) (f : Feature) : list command :=
  let b := baseName d in
  let rowclean := UniqueID f in
  let clipDEMoutput := artifact w b rowclean ClippedDEM in
  let predisTINoutput := artifact w b rowclean PredisTIN in
  let predisDEMoutput := artifact w b rowclean PredisDEM in
  [ makedirs (join w predisFolder_name);
    Describe (path_str clipDEMoutput);
    CreateTin_3d predisTINoutput (postpointsDEMoutput b rowclean)
      featuresTIN_spec;
    TinRaster_3d predisTINoutput predisDEMoutput "CELLSIZE 1.0";
    Delete_management (postpointsDEMoutput b rowclean) ].

(** Step 6, lines 226-238. *)
Definition dod_commands (d : Dataset) (f : Feature) : list command :=
  let b := baseName d in
  let rowclean := UniqueID f in
  let clipDEMoutput := artifact w b rowclean ClippedDEM in
  let predisDEMoutput := artifact w b rowclean PredisDEM in
  let dodoutput := artifact w b rowclean DOD in
  [ makedirs (join w dodFolder_name);
    Minus clipDEMoutput predisDEMoutput dodoutput;
    CalculateStatistics_management dodoutput ].

(** Lines 259-269 and 302-312: zonal statistics of [raster] over the
    feature class restricted to the rows with this identifier. *)
Definition zonal_commands (d : Dataset) (f : Feature) (raster out : Path)
  (statistics : string) : list command :=
  [ MakeFeatureLayer_management (InputFC (slumpset d)) zoneLayer;
    SelectLayerByAttribute_management zoneLayer (qry (UniqueID f));
    ZonalStatisticsAsTable_sa zoneLayer "UniqueID" raster out statistics ].

(** Step 7, lines 247-269. *)
Definition zs_commands (d : Dataset) (f : Feature) : list command :=
  let b := baseName d in
  let rowclean := UniqueID f in
  makedirs (join w (zsFolder_name b))
  :: zonal_commands d f (artifact w b rowclean DOD)
       (artifact w b rowclean IndZonalStats) "ALL".

(** Step 8, lines 279-312. *)
Definition rmse_commands (d : Dataset) (f : Feature) : list command :=
  let b := baseName d in
  let rowclean := UniqueID f in
  let dodsqoutput := artifact w b rowclean DODsq in
  ([ makedirs (join w (rmseFolder_name b));
    Square (artifact w b rowclean DOD) dodsqoutput;
    CalculateStatistics_management dodsqoutput ]
  ++ zonal_commands d f dodsqoutput (artifact w b rowclean IndRMSEStats)
       "MEAN")%list.

(** The body of the cursor loop, lines 135-315, for the row of the
    buffered feature class that belongs to [f]. *)
Definition feature_commands (d : Dataset) (f : Feature) : list command :=
  (extract_commands d f ++ mask_commands d f ++ reconstruct_commands d f
   ++ dod_commands d f ++ zs_commands d f ++ rmse_commands d f)%list.

(** The Python variables that are assigned inside a loop and read after
    it.  [None] is an unbound name. *)
Record PyVars : Type := mkVars {
  desc_baseName : option string;       (* desc, line 105 *)
  zsFolder_joined : option string;     (* line 250 *)
  rmseFolder_joined : option string    (* line 282 *)
}.

Definition unbound : PyVars := mkVars None None None.

(** The variables after the cursor loop of [d]: [desc] is rebound; the two
    folders are rebound only if the loop body ran. *)
Definition vars_after (v : PyVars) (d : Dataset) : PyVars :=
  match rows d with
  | [] => mkVars (Some (baseName d)) (zsFolder_joined v) (rmseFolder_joined v)
  | _ :: _ =>
      mkVars (Some (baseName d))
        (Some (join w (zsFolder_name (baseName d))))
        (Some (join w (rmseFolder_name (baseName d))))
  end.

(** A merge of the tables listed in the folder a variable names; reading
    an unbound variable raises, and the script stops there. *)
Definition merge_from (variable : string) (folder : option string)
  (out : Path) (rest : list command) : list command :=
  match folder with
  | Some fo => Merge_ListTables fo out :: rest
  | None => [NameError variable]
  end.

(** The body of the dataset loop, lines 87-392. *)
Definition dataset_commands (v : PyVars) (d : Dataset) : list command :=
  let b := baseName d in
  let outputVector := mkPath (join w bufFolder_name) (outputVector_name b) in
  let v' := vars_after v d in
  ([ makedirs (join w bufFolder_name);
    Describe (slumpset d);
    Buffer_analysis (slumpset d) outputVector;
    makedirs (join w clipFolder_name);
    Describe (path_str outputVector) ]
  ++ flat_map (feature_commands d) (rows d)
  ++ makedirs (join w fzsFolder_name)
     :: merge_from "zsFolder_joined" (zsFolder_joined v')
          (mkPath (join w fzsFolder_name) (fTablename b))
          (makedirs (join w frmseFolder_name)
           :: merge_from "rmseFolder_joined" (rmseFolder_joined v')
                (mkPath (join w frmseFolder_name) (frmseTablename b)) []))%list.

(** The dataset loop: the calls of every iteration, and the variables
    after the last one. *)
Fixpoint loop_commands (v : PyVars) (ds : list Dataset)
  : list command * PyVars :=
  match ds with
  | [] => ([], v)
  | d :: ds' =>
      let (cs, v') := loop_commands (vars_after v d) ds' in
      ((dataset_commands v d ++ cs)%list, v')
  end.

(** Lines 406 and 427: the names of the two batch-level tables, from the
    [desc] the loop left behind. *)
Definition final_names (v : PyVars) : option (string * string) :=
  match desc_baseName v with
  | Some b => Some (fsTablename b, fmrmseTablename b)
  | None => None
  end.

(** Steps 11 and 12, lines 398-431.  [fzsFolder_joined] and
    [frmseFolder_joined] are bound exactly when [desc] is. *)
Definition final_commands (v : PyVars) : list command :=
  match desc_baseName v with
  | Some b =>
      [ Merge_ListTables (join w fzsFolder_name)
          (mkPath (join w fzsFolder_name) (fsTablename b));
        Merge_ListTables (join w frmseFolder_name)
          (mkPath (join w frmseFolder_name) (fmrmseTablename b)) ]
  | None => [NameError "fzsFolder_joined"]
  end.

(** The whole script on the feature classes [inputVector] (line 83). *)
Definition script_commands (inputVector : list Dataset) : list command :=
  let (cs, v) := loop_commands unbound inputVector in
  (cs ++ final_commands v)%list.

End Plan.
End Script.

(* ================================================================== *)
(** * The workspace and the interpreter of the calls *)
(* ================================================================== *)

Module Geo.

Definition same_place (c c' : Cell) : bool :=
  (Qeq_bool (cx c) (cx c') && Qeq_bool (cy c) (cy c'))%bool.

Definition value_at (r : Raster) (c : Cell) : option Q :=
  option_map cval (find (same_place c) r).

(** [Minus(a, b)]: cell by cell, [a - b]; a cell without data in one of
    the operands has none in the result. *)
Definition raster_minus (a b : Raster) : Raster :=
  flat_map (fun c =>
    match value_at b c with
    | Some v => [mkCell (cx c) (cy c) (cval c - v)%Q]
    | None => []
    end) a.

(** [Square(a)]. *)
Definition raster_square (a : Raster) : Raster :=
  map (fun c => mkCell (cx c) (cy c) (cval c * cval c)%Q) a.

Definition sum_values (cells : list Cell) : Q :=
  fold_right (fun c acc => (cval c + acc)%Q) 0%Q cells.

(** One row of a zonal statistics table: the zone value, the number of
    cells of the zone, their sum and their mean. *)
Record Row : Type := mkRow { zone : Z; COUNT : nat; SUM : Q; MEAN : Q }.

Definition Table : Type := list Row.

Section WithEngine.
Context {E : Engine}.

(** The cells of a raster that lie in one of the polygons. *)
Definition zone_cells (polys : list Polygon) (r : Raster) : list Cell :=
  filter (fun c => existsb (intersects (cx c) (cy c)) polys) r.

Definition zonal_row (z : Z) (polys : list Polygon) (r : Raster) : Row :=
  let cells := zone_cells polys r in
  mkRow z (List.length cells) (sum_values cells)
    (sum_values cells / inject_Z (Z.of_nat (List.length cells)))%Q.

(** [ZonalStatisticsAsTable] with zone field UniqueID: one row for each
    distinct UniqueID among the zone features, over the cells of the
    features that carry it. *)
Definition zonal_table (zones : list Feature) (r : Raster) : Table :=
  map (fun z =>
         zonal_row z
           (map shape (filter (fun f => UniqueID f =? z) zones)) r)
      (nodup Z.eq_dec (map UniqueID zones)).

End WithEngine.
End Geo.

Module Sql.
Import Str Script.

Fixpoint strip_prefix (p s : string) : option string :=
  match p, s with
  | EmptyString, _ => Some s
  | String a p', String b s' =>
      if Ascii.eqb a b then strip_prefix p' s' else None
  | String _ _, EmptyString => None
  end.

(** The string without the blanks at its end. *)
Fixpoint rstrip (s : string) : string :=
  match s with
  | EmptyString => EmptyString
  | String c s' =>
      match rstrip s' with
      | EmptyString => if Ascii.eqb c " " then EmptyString
                       else String c EmptyString
      | r => String c r
      end
  end.

Definition int_of (s : string) : option Z :=
  option_map Z.of_int (NilZero.int_of_string s).

(** The value a where clause compares UniqueID with, for the two shapes
    of clause the script builds (the field name quoted or bare). *)
Definition where_value (clause : string) : option Z :=
  match strip_prefix (dquote ++ "UniqueID" ++ dquote ++ " = ") clause with
  | Some r => int_of (rstrip r)
  | None =>
      match strip_prefix "UniqueID = " clause with
      | Some r => int_of (rstrip r)
      | None => None
      end
  end.

End Sql.

Module Run.
Import Str Naming Script Geo Sql.

Definition path_eqb (p q : Path) : bool :=
  (String.eqb (dir p) (dir q) && String.eqb (file p) (file q))%bool.

(** What stops the script: a geoprocessing call that raises
    ([arcpy.ExecuteError], named by its tool), or an unbound name. *)
Inductive Error : Type :=
| ExecuteError (tool : string)
| UnboundName (variable : string).

Section WithEngine.
Context {E : Engine}.

(** A feature layer: its source and its selection ([None]: nothing was
    selected on it, a tool then works on all of its features). *)
Inductive Layer : Type :=
| PointsLayer (fc : string) (selection : option (Cell -> bool))
| AreaLayer (fc : string) (selection : option (Feature -> bool)).

Record World : Type := mkWorld {
  dirs : list string;
  vectors : list (string * list Feature);
  rasters : list (string * Raster);
  memory : list (string * list Cell);
  layers : list (string * Layer);
  tins : list (string * list Cell);
  tables : list (Path * Table)
}.

Definition empty_world : World := mkWorld [] [] [] [] [] [] [].

Definition selected {A : Type} (s : option (A -> bool)) (a : A) : bool :=
  match s with
  | Some p => p a
  | None => true
  end.

(** [ListTables()] with the workspace set to [folder], with the tables'
    contents. *)
Definition ListTables (folder : string) (w : World) : list (Path * Table) :=
  filter (fun e => String.eqb (dir (fst e)) folder) (tables w).

Section Exec.
(** The input feature classes of the workspace and the raster at
    [inputDEM]; the script only reads them. *)
Variable inputs : list Dataset.
Variable dem : Raster.

Definition find_input (name : string) : option Dataset :=
  find (fun d => String.eqb (slumpset d) name) inputs.

Definition with_dirs (w : World) x :=
  mkWorld x (vectors w) (rasters w) (memory w) (layers w) (tins w) (tables w).
Definition with_vectors (w : World) x :=
  mkWorld (dirs w) x (rasters w) (memory w) (layers w) (tins w) (tables w).
Definition with_rasters (w : World) x :=
  mkWorld (dirs w) (vectors w) x (memory w) (layers w) (tins w) (tables w).
Definition with_memory (w : World) x :=
  mkWorld (dirs w) (vectors w) (rasters w) x (layers w) (tins w) (tables w).
Definition with_layers (w : World) x :=
  mkWorld (dirs w) (vectors w) (rasters w) (memory w) x (tins w) (tables w).
Definition with_tins (w : World) x :=
  mkWorld (dirs w) (vectors w) (rasters w) (memory w) (layers w) x (tables w).
Definition with_tables (w : World) x :=
  mkWorld (dirs w) (vectors w) (rasters w) (memory w) (layers w) (tins w) x.

Definition sget {V : Type} (k : string) (l : list (string * V)) : option V :=
  Store.lookup String.eqb k l.
Definition sset {V : Type} (k : string) (v : V) (l : list (string * V)) :=
  Store.set String.eqb k v l.

Definition buffered (f : Feature) : Feature :=
  mkFeature (UniqueID f) (buffer (shape f)).

(** One call. *)
Definition exec (c : command) (w : World) : Error + World :=
  match c with
  | makedirs folder =>
      inr (if existsb (String.eqb folder) (dirs w) then w
           else with_dirs w (folder :: dirs w))
  | Describe _ => inr w
  | Buffer_analysis inp out =>
      match find_input inp with
      | Some d =>
          inr (with_vectors w
                 (sset (path_str out) (map buffered (rows d)) (vectors w)))
      | None => inl (ExecuteError "Buffer_analysis")
      end
  | Clip_management _ rectangle out =>
      inr (with_rasters w (sset (path_str out) (clip dem rectangle) (rasters w)))
  | RasterToPoint_conversion in_raster out =>
      match sget (path_str in_raster) (rasters w) with
      | Some r => inr (with_memory w (sset out r (memory w)))
      | None => inl (ExecuteError "RasterToPoint_conversion")
      end
  | MakeFeatureLayer_management (MemoryFC p) l =>
      match sget p (memory w) with
      | Some _ => inr (with_layers w (sset l (PointsLayer p None) (layers w)))
      | None => inl (ExecuteError "MakeFeatureLayer_management")
      end
  | MakeFeatureLayer_management (InputFC n) l =>
      match find_input n with
      | Some _ => inr (with_layers w (sset l (AreaLayer n None) (layers w)))
      | None => inl (ExecuteError "MakeFeatureLayer_management")
      end
  | SelectLayerByAttribute_management l clause =>
      match sget l (layers w), where_value clause with
      | Some (AreaLayer n _), Some z =>
          inr (with_layers w
                 (sset l (AreaLayer n (Some (fun f => UniqueID f =? z)))
                    (layers w)))
      | _, _ => inl (ExecuteError "SelectLayerByAttribute_management")
      end
  | SelectLayerByLocation_management l sel =>
      match sget l (layers w), sget sel (layers w) with
      | Some (PointsLayer p _), Some (AreaLayer n s) =>
          match find_input n with
          | Some d =>
              let polys := map shape (filter (selected s) (rows d)) in
              inr (with_layers w
                     (sset l
                        (PointsLayer p
                           (Some (fun c =>
                                    existsb (intersects (cx c) (cy c)) polys)))
                        (layers w)))
          | None => inl (ExecuteError "SelectLayerByLocation_management")
          end
      | _, _ => inl (ExecuteError "SelectLayerByLocation_management")
      end
  | DeleteFeatures_management l =>
      match sget l (layers w) with
      | Some (PointsLayer p s) =>
          match sget p (memory w) with
          | Some pts =>
              inr (with_layers
                     (with_memory w
                        (sset p (filter (fun c => negb (selected s c)) pts)
                           (memory w)))
                     (sset l (PointsLayer p None) (layers w)))
          | None => inl (ExecuteError "DeleteFeatures_management")
          end
      | _ => inl (ExecuteError "DeleteFeatures_management")
      end
  | CreateTin_3d out fc _ =>
      match sget fc (memory w) with
      | Some pts =>
          if triangulable pts
          then inr (with_tins w (sset (path_str out) pts (tins w)))
          else inl (ExecuteError "CreateTin_3d")
      | None => inl (ExecuteError "CreateTin_3d")
      end
  | TinRaster_3d tin out sampling =>
      match sget (path_str tin) (tins w) with
      | Some pts =>
          inr (with_rasters w
                 (sset (path_str out) (tin_raster pts sampling) (rasters w)))
      | None => inl (ExecuteError "TinRaster_3d")
      end
  | Delete_management what =>
      inr (with_memory w (Store.remove String.eqb what (memory w)))
  | Minus a b save =>
      match sget (path_str a) (rasters w), sget (path_str b) (rasters w) with
      | Some ra, Some rb =>
          inr (with_rasters w
                 (sset (path_str save) (raster_minus ra rb) (rasters w)))
      | _, _ => inl (ExecuteError "Minus")
      end
  | Square a save =>
      match sget (path_str a) (rasters w) with
      | Some ra =>
          inr (with_rasters w
                 (sset (path_str save) (raster_square ra) (rasters w)))
      | None => inl (ExecuteError "Square")
      end
  | CalculateStatistics_management r =>
      match sget (path_str r) (rasters w) with
      | Some _ => inr w
      | None => inl (ExecuteError "CalculateStatistics_management")
      end
  | ZonalStatisticsAsTable_sa l _ r out _ =>
      match sget l (layers w), sget (path_str r) (rasters w) with
      | Some (AreaLayer n s), Some ra =>
          match find_input n with
          | Some d =>
              inr (with_tables w
                     (Store.set path_eqb out
                        (zonal_table (filter (selected s) (rows d)) ra)
                        (tables w)))
          | None => inl (ExecuteError "ZonalStatisticsAsTable_sa")
          end
      | _, _ => inl (ExecuteError "ZonalStatisticsAsTable_sa")
      end
  | Merge_ListTables folder out =>
      let l := ListTables folder w in
      match l with
      | [] => inl (ExecuteError "Merge_management")
      | _ :: _ =>
          inr (with_tables w
                 (Store.set path_eqb out (List.concat (map snd l)) (tables w)))
      end
  | NameError v => inl (UnboundName v)
  end.

(** The calls in sequence: the world reached, and what stopped the
    script if something did.  No call is wrapped in a handler, so the
    first error ends the run. *)
Fixpoint run (cs : list command) (w : World) : World * option Error :=
  match cs with
  | [] => (w, None)
  | c :: cs' =>
      match exec c w with
      | inr w' => run cs' w'
      | inl e => (w, Some e)
      end
  end.

End Exec.

(** The script on a workspace that holds the feature classes [inputs]. *)
Definition run_script (cfg : Config) (dem : Raster) (inputs : list Dataset)
  (w : World) : World * option Error :=
  run inputs dem (script_commands cfg inputs) w.

End WithEngine.
End Run.

(* ================================================================== *)
(** * A small engine, to run the script on concrete inputs *)
(* ================================================================== *)

Module Grid.
Import Geo.

Definition inside (x y : Q) (e : Extent) : bool :=
  (Qle_bool (XMin e) x && Qle_bool x (XMax e)
   && Qle_bool (YMin e) y && Qle_bool y (YMax e))%bool.

Definition grow (k : Q) (e : Extent) : Extent :=
  mkExtent (XMin e - k)%Q (YMin e - k)%Q (XMax e + k)%Q (YMax e + k)%Q.

Definition zrange (lo hi : Z) : list Z :=
  map (fun k => lo + Z.of_nat k) (seq 0 (Z.to_nat (hi - lo + 1))).

Definition qmin (a b : Q) : Q := if Qle_bool a b then a else b.
Definition qmax (a b : Q) : Q := if Qle_bool a b then b else a.

(** The bounding box of a point set that is not empty. *)
Definition bbox (c : Cell) (cs : list Cell) : Extent :=
  fold_right (fun p e =>
      mkExtent (qmin (cx p) (XMin e)) (qmin (cy p) (YMin e))
               (qmax (cx p) (XMax e)) (qmax (cy p) (YMax e)))
    (mkExtent (cx c) (cy c) (cx c) (cy c)) cs.

(** A rasterisation that gives every unit cell of the points' bounding
    box the mean of the points' values. *)
Definition mean_surface (pts : list Cell) : Raster :=
  match pts with
  | [] => []
  | c :: cs =>
      let e := bbox c cs in
      let m := (sum_values pts / inject_Z (Z.of_nat (List.length pts)))%Q in
      flat_map (fun x =>
          map (fun y => mkCell (inject_Z x) (inject_Z y) m)
              (zrange (Qceiling (YMin e)) (Qfloor (YMax e))))
        (zrange (Qceiling (XMin e)) (Qfloor (XMax e)))
  end.

(** Polygons are axis-parallel rectangles, the buffer distance is two
    cells, and three points are enough for a triangulation. *)
#[export] Instance engine : Engine := {|
  Polygon := Extent;
  intersects := inside;
  buffer := grow 2;
  extent_of := fun e => e;
  clip := fun r e => filter (fun c => inside (cx c) (cy c) e) r;
  triangulable := fun pts => (3 <=? List.length pts)%nat;
  tin_raster := fun pts _ => mean_surface pts;
  triangulable_three := fun pts => proj1 (Nat.leb_le 3 (List.length pts))
|}.

(** A raster over [0..nx] x [0..ny] with the given elevation function. *)
Definition grid (nx ny : Z) (h : Z -> Z -> Q) : Raster :=
  flat_map (fun x => map (fun y => mkCell (inject_Z x) (inject_Z y) (h x y))
                         (zrange 0 ny))
           (zrange 0 nx).

Definition rect (x0 y0 x1 y1 : Z) : Extent :=
  mkExtent (inject_Z x0) (inject_Z y0) (inject_Z x1) (inject_Z y1).

End Grid.

(** Sample inputs on that engine: a 10 x 10 raster at elevation 10 with a
    depression of depth 2 under the square (4,4)-(5,5), and feature
    classes over it. *)
Module Sample.
Import Grid.

Definition cfg0 : Config :=
  mkConfig "C:\Workspace" "C:\Workspace\DEMs\DEM.tif" 1 3.

Definition dem0 : Raster :=
  grid 9 9 (fun x y =>
    if inside (inject_Z x) (inject_Z y) (rect 4 4 5 5) then 8%Q else 10%Q).

Definition feature (i : Z) (e : Extent) : Feature (E := engine) :=
  mkFeature (E := engine) i e.

Definition north : Dataset (E := engine) :=
  mkDataset "north.shp" "north" [feature 1 (rect 4 4 5 5)].
Definition south : Dataset (E := engine) :=
  mkDataset "south.shp" "south" [feature 2 (rect 2 2 3 3)].

(** A dataset whose first row lies off the raster, so that no point is
    left for its triangulation; its second row is the one of [north]. *)
Definition stray : Dataset (E := engine) :=
  mkDataset "stray.shp" "stray"
    [feature 1 (rect 100 100 101 101); feature 2 (rect 4 4 5 5)].
Definition stray_sibling : Dataset (E := engine) :=
  mkDataset "stray.shp" "stray" [feature 2 (rect 4 4 5 5)].

(** A feature class without rows. *)
Definition vacant : Dataset (E := engine) :=
  mkDataset "vacant.shp" "vacant" [].

(** Two rows with one identifier. *)
Definition twins : Dataset (E := engine) :=
  mkDataset "twins.shp" "twins"
    [feature 1 (rect 4 4 5 5); feature 1 (rect 2 2 3 3)].

End Sample.

(* ================================================================== *)
(** * Observations on the calls *)
(* ================================================================== *)

Module Observe.
Import Str Sql.

(** The digits after the decimal point, as a fraction. *)
Definition fraction (digits : string) : option Q :=
  match NilEmpty.uint_of_string digits with
  | Some d => Some (Z.of_uint d # Pos.pow 10 (Pos.of_nat (nb_digits d)))
  | None => None
  end.

Fixpoint split_dot (s : string) : string * option string :=
  match s with
  | EmptyString => (EmptyString, None)
  | String c s' =>
      if Ascii.eqb c "." then (EmptyString, Some s')
      else let (a, b) := split_dot s' in (String c a, b)
  end.

(** The number a decimal literal such as [1.0] or [2] denotes. *)
Definition decimal_of (s : string) : option Q :=
  match split_dot s with
  | (ip, Some fp) =>
      match NilZero.uint_of_string ip, fraction fp with
      | Some a, Some b => Some (Qred ((Z.of_uint a # 1) + b))
      | _, _ => None
      end
  | (ip, None) =>
      match NilZero.uint_of_string ip with
      | Some a => Some (Z.of_uint a # 1)
      | None => None
      end
  end.

(** The cell size a sampling argument [CELLSIZE <number>] asks for. *)
Definition cellsize_of (sampling : string) : option Q :=
  match strip_prefix "CELLSIZE " sampling with
  | Some r => decimal_of r
  | None => None
  end.

(** The natural-neighbour rasterisations among some calls. *)
Definition tin_rasterizations (cs : list command)
  : list (Path * Path * string) :=
  flat_map (fun c =>
    match c with
    | TinRaster_3d t o s => [(t, o, s)]
    | _ => []
    end) cs.

(** The calls before the first raster subtraction. *)
Fixpoint before_minus (cs : list command) : list command :=
  match cs with
  | [] => []
  | Minus _ _ _ :: _ => []
  | c :: cs' => c :: before_minus cs'
  end.

(** The operands of the raster subtractions among some calls. *)
Definition subtractions (cs : list command) : list (Path * Path * Path) :=
  flat_map (fun c =>
    match c with
    | Minus a b s => [(a, b, s)]
    | _ => []
    end) cs.

(** The call reads the properties (cell size, origin, spatial reference)
    of the raster at [p]: among the calls of the script only [Describe]
    does. *)
Definition inspects (p : Path) (c : command) : bool :=
  match c with
  | Describe what => String.eqb what (path_str p)
  | _ => false
  end.

(** Both operands were inspected before the subtraction, which any
    comparison of their grids needs. *)
Definition grids_inspected (cs : list command) (a b : Path) : bool :=
  (existsb (inspects a) (before_minus cs)
   && existsb (inspects b) (before_minus cs))%bool.

(** The call names the feature class [fc] of the memory workspace. *)
Definition mentions (fc : string) (c : command) : bool :=
  match c with
  | RasterToPoint_conversion _ out => String.eqb out fc
  | MakeFeatureLayer_management (MemoryFC p) _ => String.eqb p fc
  | CreateTin_3d _ p _ => String.eqb p fc
  | Delete_management p => String.eqb p fc
  | _ => false
  end.

(** The calls that start the processing of a feature, one per feature. *)
Definition clips (cs : list command) : list Path :=
  flat_map (fun c =>
    match c with
    | Clip_management _ _ out => [out]
    | _ => []
    end) cs.

(** The calls after the first natural-neighbour rasterisation. *)
Fixpoint after_rasterization (cs : list command) : list command :=
  match cs with
  | [] => []
  | TinRaster_3d _ _ _ :: cs' => cs'
  | _ :: cs' => after_rasterization cs'
  end.

(** The calls that write to the memory workspace, and those that write
    tables. *)
Definition writes_memory (c : command) : bool :=
  match c with
  | RasterToPoint_conversion _ _ | DeleteFeatures_management _
  | Delete_management _ => true
  | _ => false
  end.

Definition writes_tables (c : command) : bool :=
  match c with
  | ZonalStatisticsAsTable_sa _ _ _ _ _ | Merge_ListTables _ _ => true
  | _ => false
  end.

End Observe.

(** The tables of a workspace reduced to their paths and the zone values
    of their rows, and what the script's writes do to them. *)
Module Skeleton.
Import Str Naming Script Geo Run.

Definition Skel : Type := list (Path * list Z).

Definition skeleton (T : list (Path * Table)) : Skel :=
  map (fun e => (fst e, map zone (snd e))) T.

Definition listing (folder : string) (K : Skel) : Skel :=
  filter (fun e => String.eqb (dir (fst e)) folder) K.

Definition skel_merge (folder : string) (out : Path) (K : Skel) : Skel :=
  Store.set path_eqb out (List.concat (map snd (listing folder K))) K.

Section WithConfig.
Context {E : Engine}.
Variable cfg : Config.

(** Steps 7 and 8 of one feature: a one-row table in each of the two
    per-dataset folders. *)
Definition skel_feature (d : Dataset) (K : Skel) (f : Feature) : Skel :=
  let w := wspace cfg in
  let i := UniqueID f in
  Store.set path_eqb (artifact w (baseName d) i IndRMSEStats) [i]
    (Store.set path_eqb (artifact w (baseName d) i IndZonalStats) [i] K).

(** Steps 9 and 10 of a dataset whose cursor loop ran. *)
Definition skel_dataset (K : Skel) (d : Dataset) : Skel :=
  let w := wspace cfg in
  skel_merge (join w (rmseFolder_name (baseName d)))
    (mkPath (join w frmseFolder_name) (frmseTablename (baseName d)))
    (skel_merge (join w (zsFolder_name (baseName d)))
       (mkPath (join w fzsFolder_name) (fTablename (baseName d)))
       (fold_left (skel_feature d) (rows d) K)).

(** Steps 11 and 12 after a last dataset of base name [b]. *)
Definition skel_final (b : string) (K : Skel) : Skel :=
  let w := wspace cfg in
  skel_merge (join w frmseFolder_name)
    (mkPath (join w frmseFolder_name) (fmrmseTablename b))
    (skel_merge (join w fzsFolder_name)
       (mkPath (join w fzsFolder_name) (fsTablename b)) K).

End WithConfig.
End Skeleton.

(* ================================================================== *)
(** * Facts about the strings of the script *)
(* ================================================================== *)

Module StrFacts.
Import Str Naming.

Lemma append_assoc (a b c : string) : (a ++ b) ++ c = a ++ b ++ c.
Proof. induction a as [|x a IH]; simpl; [reflexivity | now rewrite IH]. Qed.

Lemma append_inv_head (a b c : string) : a ++ b = a ++ c -> b = c.
Proof.
  induction a as [|x a IH]; simpl; intros H; [exact H|].
  injection H as H. auto.
Qed.

Lemma chars_app (a b : string) : chars (a ++ b) = (chars a ++ chars b)%list.
Proof.
  unfold chars. induction a as [|x a IH]; simpl; [reflexivity | now rewrite IH].
Qed.

Lemma chars_inj (a b : string) : chars a = chars b -> a = b.
Proof.
  unfold chars. intros H.
  rewrite <- (string_of_list_ascii_of_string a),
          <- (string_of_list_ascii_of_string b).
  now rewrite H.
Qed.

Lemma append_inv_tail (a b c : string) : a ++ c = b ++ c -> a = b.
Proof.
  intros H. apply chars_inj.
  apply (f_equal chars) in H. rewrite !chars_app in H.
  now apply app_inv_tail in H.
Qed.

Lemma join_is_prefix (w p : string) : join w p = join_prefix w ++ p.
Proof.
  unfold join, join_prefix.
  destruct (last_char w) as [c|]; [|reflexivity].
  destruct (is_sep c); [reflexivity|]. now rewrite append_assoc.
Qed.

Lemma join_inj (w p q : string) : join w p = join w q -> p = q.
Proof. rewrite !join_is_prefix. apply append_inv_head. Qed.

(** ** [str] *)

Lemma uint_numeric (d : uint) :
  Forall (fun c => numeric c = true) (chars (NilEmpty.string_of_uint d)).
Proof.
  induction d; simpl; constructor; auto.
Qed.

Lemma str_numeric (z : Z) : Forall (fun c => numeric c = true) (chars (str z)).
Proof.
  unfold str.
  destruct z as [|p|p]; simpl.
  - repeat constructor.
  - unfold NilZero.string_of_uint.
    destruct (Pos.to_uint p); try apply uint_numeric. repeat constructor.
  - constructor; [reflexivity|].
    unfold NilZero.string_of_uint.
    destruct (Pos.to_uint p); try apply uint_numeric. repeat constructor.
Qed.

Lemma to_int_proper (z : Z) : Z.to_int z <> Pos Nil /\ Z.to_int z <> Neg Nil.
Proof.
  destruct z as [|p|p]; simpl; split; try discriminate;
    intros H; injection H as H; now apply Unsigned.to_uint_nonnil in H.
Qed.

Lemma int_of_string_str (z : Z) :
  NilZero.int_of_string (str z) = Some (Z.to_int z).
Proof.
  unfold str. destruct (to_int_proper z). now apply NilZero.isi.
Qed.

Lemma str_inj (z z' : Z) : str z = str z' -> z = z'.
Proof.
  intros H. apply DecimalZ.to_int_inj.
  pose proof (int_of_string_str z) as A.
  rewrite H, int_of_string_str in A. now injection A.
Qed.

(** ** Splitting a name at its last [_SlumpID_] *)

Lemma split_at_mark (m : ascii) (l1 l2 r1 r2 : list ascii) :
  numeric m = false ->
  Forall (fun c => numeric c = true) l1 ->
  Forall (fun c => numeric c = true) l2 ->
  (l1 ++ m :: r1 = l2 ++ m :: r2)%list -> l1 = l2 /\ r1 = r2.
Proof.
  intros Hm H1. revert l2.
  induction H1 as [|x l1 Hx H1 IH]; intros l2 H2 Heq.
  - destruct l2 as [|y l2]; simpl in Heq.
    + injection Heq as Heq. now split.
    + injection Heq as Hy _. inversion H2; subst. congruence.
  - destruct l2 as [|y l2]; simpl in Heq.
    + injection Heq as Hy _. subst. congruence.
    + injection Heq as Hy Heq. inversion H2; subst.
      destruct (IH l2 H4 Heq) as [-> ->]. now split.
Qed.

Lemma slump_split (b1 b2 : string) (i1 i2 : Z) :
  b1 ++ slumpname i1 = b2 ++ slumpname i2 -> b1 = b2 /\ i1 = i2.
Proof.
  intros H. apply (f_equal chars) in H.
  unfold slumpname in H. rewrite !chars_app in H.
  apply (f_equal (@List.rev ascii)) in H.
  rewrite !rev_app_distr in H.
  change (List.rev (chars "_SlumpID_"))
    with ("_"%char :: List.rev (chars "_SlumpID")) in H.
  rewrite <- !app_assoc in H. simpl app in H.
  destruct (split_at_mark "_"%char _ _ _ _ eq_refl
              (Forall_rev (str_numeric i1)) (Forall_rev (str_numeric i2)) H)
    as [Hi Hb].
  apply (f_equal (@List.rev ascii)) in Hi. rewrite !rev_involutive in Hi.
  apply chars_inj, str_inj in Hi.
  injection Hb as Hb.
  apply (f_equal (@List.rev ascii)) in Hb. rewrite !rev_involutive in Hb.
  apply chars_inj in Hb. now split.
Qed.

Lemma artifact_name_inj (st : Stage) (b1 b2 : string) (i1 i2 : Z) :
  artifact_name b1 i1 st = artifact_name b2 i2 st -> b1 = b2 /\ i1 = i2.
Proof.
  unfold artifact_name. intros H.
  rewrite <- !append_assoc in H.
  apply append_inv_tail in H. now apply slump_split.
Qed.

Lemma app_same_length {A : Type} (l1 l2 r1 r2 : list A) :
  (l1 ++ r1 = l2 ++ r2)%list -> List.length l1 = List.length l2 -> l1 = l2.
Proof.
  revert l2. induction l1 as [|x l1 IH]; intros [|y l2] H L;
    simpl in *; try discriminate; [reflexivity|].
  injection H as -> H. f_equal. apply IH; [exact H | lia].
Qed.

Lemma doubled_inj (b1 b2 : string) (s : string) :
  b1 ++ s ++ b1 = b2 ++ s ++ b2 -> b1 = b2.
Proof.
  intros H. apply (f_equal chars) in H. rewrite !chars_app in H.
  apply chars_inj. apply (app_same_length _ _ _ _ H).
  apply (f_equal (@List.length ascii)) in H.
  rewrite !length_app in H. lia.
Qed.

End StrFacts.

(* ================================================================== *)
(** * The naming of the per-feature artifacts *)
(* ================================================================== *)

Module NamingFacts.
Import Str Naming Script StrFacts.

(** The paths of [artifact_path] are the ones the calls of the script
    carry. *)
Lemma artifact_path_used (w b : string) (i : Z) (st : Stage) :
  artifact_path w b i st
  = match st with
    | PointsPost => postpointsDEMoutput b i
    | _ => path_str (artifact w b i st)
    end.
Proof. destruct st; reflexivity. Qed.

Lemma reassoc (b s n x : string) :
  b ++ s ++ b ++ n ++ x = ((b ++ s ++ b) ++ n) ++ x.
Proof. now rewrite !append_assoc. Qed.

Lemma artifact_path_inj (w : string) (st : Stage) (b1 b2 : string)
  (i1 i2 : Z) :
  artifact_path w b1 i1 st = artifact_path w b2 i2 st -> b1 = b2 /\ i1 = i2.
Proof.
  unfold artifact_path. intros H.
  destruct st; simpl artifact_dir in H; simpl separator in H;
    try (do 2 apply append_inv_head in H; now apply artifact_name_inj in H).
  - unfold zsFolder_name in H.
    rewrite !join_is_prefix, !append_assoc in H.
    do 2 apply append_inv_head in H.
    unfold artifact_name in H. rewrite !reassoc in H.
    apply append_inv_tail, slump_split in H. destruct H as [H ->].
    apply doubled_inj in H. now split.
  - unfold rmseFolder_name in H.
    rewrite !join_is_prefix, !append_assoc in H.
    do 2 apply append_inv_head in H.
    unfold artifact_name in H. rewrite !reassoc in H.
    apply append_inv_tail, slump_split in H. destruct H as [H ->].
    apply doubled_inj in H. now split.
Qed.

(** C8. Every per-feature artifact name is the dataset base name, then
    [_SlumpID_] and the feature identifier, then the suffix of the stage;
    and for a fixed workspace and stage, two different pairs of dataset
    base name and integer feature identifier get different names and
    different paths. *)
Theorem artifact_naming_injective (w : string) (st : Stage)
  (b1 b2 : string) (i1 i2 : Z) :
  (b1, i1) <> (b2, i2) ->
  artifact_name b1 i1 st = b1 ++ "_SlumpID_" ++ str i1 ++ suffix st
  /\ artifact_name b1 i1 st <> artifact_name b2 i2 st
  /\ artifact_path w b1 i1 st <> artifact_path w b2 i2 st.
Proof.
  intros Hne. split; [|split].
  - unfold artifact_name, slumpname. now rewrite !append_assoc.
  - intros H. apply artifact_name_inj in H. destruct H; subst. now apply Hne.
  - intros H. apply artifact_path_inj in H. destruct H; subst. now apply Hne.
Qed.

Lemma artifact_naming_injective_witness :
  ("north", 7) <> ("south", 7)
  /\ artifact_name "north" 7 IndZonalStats
     = "north" ++ "_SlumpID_" ++ str 7 ++ suffix IndZonalStats
  /\ artifact_name "north" 7 IndZonalStats
     <> artifact_name "south" 7 IndZonalStats
  /\ artifact_path "C:\Workspace" "north" 7 IndZonalStats
     <> artifact_path "C:\Workspace" "south" 7 IndZonalStats.
Proof.
  assert (H : ("north", 7) <> ("south", 7)) by discriminate.
  split; [exact H|].
  exact (artifact_naming_injective "C:\Workspace" IndZonalStats
           "north" "south" 7 7 H).
Defined.

End NamingFacts.

(* ================================================================== *)
(** * The calls the script issues *)
(* ================================================================== *)

Module PlanFacts.
Import Str Naming Script StrFacts Sample.

Section WithEngine.
Context {E : Engine}.
Variable cfg : Config.

Lemma desc_after (v : PyVars) (d : Dataset) :
  desc_baseName (vars_after cfg v d) = Some (baseName d).
Proof. unfold vars_after. now destruct (rows d). Qed.

Lemma loop_commands_snd (v : PyVars) (d : Dataset) (ds : list Dataset) :
  snd (loop_commands cfg v (d :: ds))
  = snd (loop_commands cfg (vars_after cfg v d) ds).
Proof.
  simpl. now destruct (loop_commands cfg (vars_after cfg v d) ds).
Qed.

Lemma loop_commands_fst (v : PyVars) (d : Dataset) (ds : list Dataset) :
  fst (loop_commands cfg v (d :: ds))
  = (dataset_commands cfg v d
       ++ fst (loop_commands cfg (vars_after cfg v d) ds))%list.
Proof.
  simpl. now destruct (loop_commands cfg (vars_after cfg v d) ds).
Qed.

Lemma script_commands_eq (ds : list Dataset) :
  script_commands cfg ds
  = (fst (loop_commands cfg unbound ds)
       ++ final_commands cfg (snd (loop_commands cfg unbound ds)))%list.
Proof.
  unfold script_commands. now destruct (loop_commands cfg unbound ds).
Qed.

Lemma desc_after_loop (ds : list Dataset) (v : PyVars) (d d0 : Dataset) :
  desc_baseName (snd (loop_commands cfg v (d :: ds)))
  = Some (baseName (last (d :: ds) d0)).
Proof.
  revert v d. induction ds as [|d' ds IH]; intros v d.
  - simpl. apply desc_after.
  - rewrite loop_commands_snd, IH. reflexivity.
Qed.

(** C10. In a run over at least one dataset, the names of the two
    batch-level tables are the base name of the last dataset enumerated
    followed by [_FinalStatistics_merged.dbf] and [_FinalRMSE_merged.dbf],
    and the script ends with the two merges that write tables of these
    names. *)
Theorem final_tables_named_after_last_dataset
  (inputVector : list Dataset) (d0 : Dataset) :
  inputVector <> [] ->
  let b := baseName (last inputVector d0) in
  let w := wspace cfg in
  final_names (snd (loop_commands cfg unbound inputVector))
  = Some (b ++ "_FinalStatistics_merged.dbf", b ++ "_FinalRMSE_merged.dbf")
  /\ exists cs,
       script_commands cfg inputVector
       = (cs ++
          [ Merge_ListTables (join w fzsFolder_name)
              (mkPath (join w fzsFolder_name)
                 (b ++ "_FinalStatistics_merged.dbf"));
            Merge_ListTables (join w frmseFolder_name)
              (mkPath (join w frmseFolder_name)
                 (b ++ "_FinalRMSE_merged.dbf")) ])%list.
Proof.
  intros Hne b w.
  destruct inputVector as [|d ds]; [congruence|].
  pose proof (desc_after_loop ds unbound d d0) as Hd. fold b in Hd.
  split.
  - unfold final_names. rewrite Hd. reflexivity.
  - exists (fst (loop_commands cfg unbound (d :: ds))).
    rewrite script_commands_eq. unfold final_commands. rewrite Hd.
    reflexivity.
Qed.

End WithEngine.

Lemma final_tables_named_after_last_dataset_witness :
  [north; south] <> []
  /\ final_names (snd (loop_commands cfg0 unbound [north; south]))
     = Some ("south_FinalStatistics_merged.dbf", "south_FinalRMSE_merged.dbf").
Proof.
  assert (H : [north; south] <> []) by discriminate.
  split; [exact H|].
  exact (proj1 (final_tables_named_after_last_dataset cfg0 [north; south]
                  north H)).
Defined.

End PlanFacts.

(* ================================================================== *)
(** * Facts about the interpreter *)
(* ================================================================== *)

Module RunFacts.
Import Str Naming Script Geo Sql Run Observe StrFacts.

Section Stores.
Context {K V : Type} (eqb : K -> K -> bool).
Hypothesis eqb_refl : forall k, eqb k k = true.

Lemma lookup_set_same (k : K) (v : V) (l : list (K * V)) :
  Store.lookup eqb k (Store.set eqb k v l) = Some v.
Proof.
  induction l as [|[k' v'] l IH]; simpl.
  - now rewrite eqb_refl.
  - destruct (eqb k k') eqn:Ek; simpl.
    + now rewrite eqb_refl.
    + now rewrite Ek.
Qed.

Lemma lookup_remove_same (k : K) (l : list (K * V)) :
  Store.lookup eqb k (Store.remove eqb k l) = None.
Proof.
  induction l as [|[k' v'] l IH]; simpl; [reflexivity|].
  destruct (eqb k k') eqn:Ek; simpl; [exact IH|]. now rewrite Ek.
Qed.

Hypothesis eqb_eq : forall a b, eqb a b = true -> a = b.

Lemma lookup_set_other (k k' : K) (v : V) (l : list (K * V)) :
  eqb k k' = false ->
  Store.lookup eqb k (Store.set eqb k' v l) = Store.lookup eqb k l.
Proof.
  intros Hk. induction l as [|[k2 v2] l IH]; simpl.
  - now rewrite Hk.
  - destruct (eqb k' k2) eqn:E2; simpl.
    + apply eqb_eq in E2. subst k2. now rewrite Hk.
    + now rewrite IH.
Qed.

End Stores.

Lemma sget_sset_other {V : Type} (k k' : string) (v : V)
  (l : list (string * V)) :
  String.eqb k k' = false -> sget k (sset k' v l) = sget k l.
Proof.
  apply lookup_set_other. intros a b. apply String.eqb_eq.
Qed.

Section WithEngine.
Context {E : Engine}.
Variable inputs : list Dataset.
Variable dem : Raster.

Lemma run_step (c : command) (cs : list command) (w w1 : World) :
  exec inputs dem c w = inr w1 ->
  run inputs dem (c :: cs) w = run inputs dem cs w1.
Proof. intros H. simpl. now rewrite H. Qed.

Lemma sget_sset_same {V : Type} (k : string) (v : V) (l : list (string * V)) :
  sget k (sset k v l) = Some v.
Proof. apply lookup_set_same, String.eqb_refl. Qed.

Lemma run_app (cs cs' : list command) (w : World) :
  run inputs dem (cs ++ cs') w
  = match run inputs dem cs w with
    | (w1, None) => run inputs dem cs' w1
    | stopped => stopped
    end.
Proof.
  revert w. induction cs as [|c cs IH]; intros w; simpl; [reflexivity|].
  destruct (exec inputs dem c w); [reflexivity | apply IH].
Qed.

(** The first call that raises ends the run, in the world it met. *)
Lemma run_stops (pre post : list command) (c : command) (w w1 : World)
  (e : Error) :
  run inputs dem pre w = (w1, None) ->
  exec inputs dem c w1 = inl e ->
  run inputs dem (pre ++ c :: post) w = (w1, Some e).
Proof.
  intros Hpre Hc. rewrite run_app, Hpre. simpl. now rewrite Hc.
Qed.

Lemma run_app_inv (cs cs' : list command) (w w' : World) :
  run inputs dem (cs ++ cs') w = (w', None) ->
  exists w1, run inputs dem cs w = (w1, None)
             /\ run inputs dem cs' w1 = (w', None).
Proof.
  rewrite run_app.
  destruct (run inputs dem cs w) as [w1 [e|]]; intros H; [discriminate|].
  now exists w1.
Qed.

Lemma run_cons_inv (c : command) (cs : list command) (w w' : World) :
  run inputs dem (c :: cs) w = (w', None) ->
  exists w1, exec inputs dem c w = inr w1
             /\ run inputs dem cs w1 = (w', None).
Proof.
  simpl. destruct (exec inputs dem c w) as [e|w1]; intros H; [discriminate|].
  now exists w1.
Qed.

Ltac exec_cases H :=
  repeat match type of H with
         | context [match ?x with _ => _ end] => destruct x eqn:?
         end;
  try discriminate H.

Lemma exec_memory_frame (c : command) (w w' : World) :
  writes_memory c = false ->
  exec inputs dem c w = inr w' -> memory w' = memory w.
Proof.
  intros Hc H. destruct c; simpl in Hc; try discriminate Hc;
    simpl in H; exec_cases H; injection H as <-; reflexivity.
Qed.

Lemma exec_tables_frame (c : command) (w w' : World) :
  writes_tables c = false ->
  exec inputs dem c w = inr w' -> tables w' = tables w.
Proof.
  intros Hc H. destruct c; simpl in Hc; try discriminate Hc;
    simpl in H; exec_cases H; injection H as <-; reflexivity.
Qed.

Lemma run_memory_frame (cs : list command) (w w' : World) :
  forallb (fun c => negb (writes_memory c)) cs = true ->
  run inputs dem cs w = (w', None) -> memory w' = memory w.
Proof.
  revert w. induction cs as [|c cs IH]; intros w Hcs H; simpl in *.
  - now injection H as <-.
  - apply andb_true_iff in Hcs. destruct Hcs as [Hc Hcs].
    apply negb_true_iff in Hc.
    destruct (exec inputs dem c w) as [e|w1] eqn:Ec; [discriminate|].
    rewrite (IH _ Hcs H). now apply exec_memory_frame with (c := c).
Qed.

Lemma run_tables_frame (cs : list command) (w w' : World) :
  forallb (fun c => negb (writes_tables c)) cs = true ->
  run inputs dem cs w = (w', None) -> tables w' = tables w.
Proof.
  revert w. induction cs as [|c cs IH]; intros w Hcs H; simpl in *.
  - now injection H as <-.
  - apply andb_true_iff in Hcs. destruct Hcs as [Hc Hcs].
    apply negb_true_iff in Hc.
    destruct (exec inputs dem c w) as [e|w1] eqn:Ec; [discriminate|].
    rewrite (IH _ Hcs H). now apply exec_tables_frame with (c := c).
Qed.

End WithEngine.
End RunFacts.

(* ================================================================== *)
(** * Surface reconstruction and difference: what the calls carry *)
(* ================================================================== *)

Module Reconstruction.
Import Str Naming Script Geo Sql Run Observe StrFacts RunFacts Sample.

Definition with_DEMres (cfg : Config) (q : Q) : Config :=
  mkConfig (wspace cfg) (inputDEM cfg) q (IDattribute cfg).

Section WithEngine.
Context {E : Engine}.

(** C2, as the script has it. The one natural-neighbour rasterisation of
    a feature is called with the literal sampling [CELLSIZE 1.0], a cell
    size of 1, and the calls of a feature are the same for every value of
    [DEMres]: the configured cell size is not passed on. *)
Theorem rasterization_cell_size_is_literal (cfg : Config) (d : Dataset)
  (f : Feature) :
  tin_rasterizations (feature_commands cfg d f)
  = [ (artifact (wspace cfg) (baseName d) (UniqueID f) PredisTIN,
       artifact (wspace cfg) (baseName d) (UniqueID f) PredisDEM,
       "CELLSIZE 1.0") ]
  /\ cellsize_of "CELLSIZE 1.0" = Some 1%Q
  /\ forall q, feature_commands (with_DEMres cfg q) d f
               = feature_commands cfg d f.
Proof. repeat split. Qed.

(** C6, as the script has it. Between the rasterisation of the
    reconstructed surface and the subtraction there are two calls, the
    deletion of the point cloud and the creation of the output folder:
    nothing inspects the reconstructed raster before [Minus] reads it. The
    one subtraction of a feature is (clipped original, reconstructed), and
    it succeeds exactly when both rasters exist. *)
Theorem subtraction_is_not_preceded_by_a_check (cfg : Config) (d : Dataset)
  (f : Feature) :
  let w := wspace cfg in
  let b := baseName d in
  let i := UniqueID f in
  before_minus (after_rasterization (feature_commands cfg d f))
  = [ Delete_management (postpointsDEMoutput b i);
      makedirs (join w dodFolder_name) ]
  /\ subtractions (feature_commands cfg d f)
     = [ (artifact w b i ClippedDEM, artifact w b i PredisDEM,
          artifact w b i DOD) ]
  /\ forall inputs dem (x y s : Path) (wd : World),
       (exists wd', exec inputs dem (Minus x y s) wd = inr wd')
       <-> (sget (path_str x) (rasters wd) <> None
            /\ sget (path_str y) (rasters wd) <> None).
Proof.
  repeat split.
  - destruct H as [wd' H]. simpl in H.
    destruct (sget (path_str x) (rasters wd)); [discriminate|].
    discriminate.
  - destruct H as [wd' H]. simpl in H.
    destruct (sget (path_str x) (rasters wd));
      destruct (sget (path_str y) (rasters wd)); discriminate.
  - intros [Hx Hy]. simpl.
    destruct (sget (path_str x) (rasters wd)); [|congruence].
    destruct (sget (path_str y) (rasters wd)); [|congruence].
    eexists. reflexivity.
Qed.

End WithEngine.

(** C2 fails as stated: with the elevation raster's cell size configured
    as 2, the rasterisation is still asked for a cell size of 1. *)
Lemma configured_cell_size_not_used :
  let cfg := mkConfig "C:\Workspace" "C:\Workspace\DEMs\DEM.tif" 2 3 in
  let f := feature 1 (Grid.rect 4 4 5 5) in
  exists t o s q,
    In (t, o, s) (tin_rasterizations (feature_commands cfg north f))
    /\ cellsize_of s = Some q
    /\ ~ (q == DEMres cfg)%Q.
Proof.
  simpl. do 3 eexists. exists 1%Q. split; [left; reflexivity|].
  split; [reflexivity|]. intros H. discriminate H.
Qed.

(** Two rasters whose grids are shifted by half a cell. *)
Definition shifted_world : World (E := Grid.engine) :=
  mkWorld [] []
    [ ("C:\W\01_ClippedDEMs\a_SlumpID_1.tif", [mkCell 0 0 10; mkCell 1 0 10]);
      ("C:\W\02_PredisturbDEMs\a_SlumpID_1_predisturbance.tif",
       [mkCell (1 # 2) (1 # 2) 12]) ]%Q
    [] [] [] [].

(** C6 fails as stated: no call inspects the reconstructed raster before
    the subtraction, and a subtraction of rasters on different grids is
    carried out without an error. *)
Lemma misaligned_grids_are_not_fatal :
  let f := feature 1 (Grid.rect 4 4 5 5) in
  let a := artifact "C:\W" "a" 1 ClippedDEM in
  let b := artifact "C:\W" "a" 1 PredisDEM in
  grids_inspected
    (feature_commands cfg0 north f)
    (artifact (wspace cfg0) "north" 1 ClippedDEM)
    (artifact (wspace cfg0) "north" 1 PredisDEM) = false
  /\ exists wd,
       exec [] [] (Minus a b (artifact "C:\W" "a" 1 DOD)) shifted_world
       = inr wd.
Proof.
  split; [vm_compute; reflexivity|]. eexists. vm_compute. reflexivity.
Qed.

End Reconstruction.

(* ================================================================== *)
(** * The feature loop: teardown and (absent) validation *)
(* ================================================================== *)

Module Iteration.
Import Str Naming Script Geo Sql Run Observe StrFacts NamingFacts RunFacts
  Sample.

Section WithEngine.
Context {E : Engine}.
Variable cfg : Config.

Lemma postpoints_differ (b b' : string) (i i' : Z) :
  (b', i') <> (b, i) ->
  String.eqb (postpointsDEMoutput b' i') (postpointsDEMoutput b i) = false.
Proof.
  intros Hne. apply String.eqb_neq. intros H.
  apply (artifact_path_inj "" PointsPost) in H. destruct H; subst.
  now apply Hne.
Qed.

Lemma feature_commands_split (d : Dataset) (f : Feature) :
  feature_commands cfg d f
  = ((extract_commands cfg d f ++ mask_commands d f
      ++ firstn 3 (reconstruct_commands cfg d f))
     ++ TinRaster_3d
          (artifact (wspace cfg) (baseName d) (UniqueID f) PredisTIN)
          (artifact (wspace cfg) (baseName d) (UniqueID f) PredisDEM)
          "CELLSIZE 1.0"
     :: Delete_management (postpointsDEMoutput (baseName d) (UniqueID f))
     :: (dod_commands cfg d f ++ zs_commands cfg d f
         ++ rmse_commands cfg d f))%list.
Proof. reflexivity. Qed.

(** C9. In the calls of a feature the point cloud is deleted right after
    the rasterisation that ends the reconstruction, and no later call of
    that feature names it; when the calls of the feature have run, the
    memory workspace holds no feature class of that name; and no call of
    a feature with another dataset name or identifier names it. *)
Theorem point_cloud_torn_down (inputs : list Dataset) (dem : Raster)
  (d : Dataset) (f : Feature) :
  let P := postpointsDEMoutput (baseName d) (UniqueID f) in
  (exists pre t o s post,
     feature_commands cfg d f
     = (pre ++ TinRaster_3d t o s :: Delete_management P :: post)%list
     /\ forallb (fun c => negb (mentions P c)) post = true)
  /\ (forall w w',
        run inputs dem (feature_commands cfg d f) w = (w', None) ->
        sget P (memory w') = None)
  /\ (forall (d' : Dataset) (f' : Feature),
        (baseName d', UniqueID f') <> (baseName d, UniqueID f) ->
        forallb (fun c => negb (mentions P c)) (feature_commands cfg d' f')
        = true).
Proof.
  intros P. split; [|split].
  - do 5 eexists. split; [apply feature_commands_split | reflexivity].
  - intros w w' H. rewrite feature_commands_split in H.
    apply run_app_inv in H. destruct H as [w1 [_ H]].
    apply run_cons_inv in H. destruct H as [w2 [_ H]].
    apply run_cons_inv in H. destruct H as [w3 [Hdel H]].
    apply run_memory_frame in H; [|reflexivity].
    rewrite H. simpl in Hdel. injection Hdel as <-. simpl.
    apply lookup_remove_same.
  - intros d' f' Hne. pose proof (postpoints_differ _ _ _ _ Hne) as Hp.
    fold P in Hp. unfold feature_commands, extract_commands, mask_commands,
      reconstruct_commands, dod_commands, zs_commands, rmse_commands,
      zonal_commands.
    rewrite !forallb_app. cbn [forallb mentions negb andb].
    now rewrite !Hp.
Qed.

Lemma clips_app (cs cs' : list command) :
  clips (cs ++ cs') = (clips cs ++ clips cs')%list.
Proof. apply flat_map_app. Qed.

Lemma clips_features (d : Dataset) (fs : list Feature) :
  clips (flat_map (feature_commands cfg d) fs)
  = map (fun f => artifact (wspace cfg) (baseName d) (UniqueID f) ClippedDEM)
        fs.
Proof.
  induction fs as [|f fs IH]; [reflexivity|].
  cbn [flat_map]. rewrite clips_app, IH. reflexivity.
Qed.

End WithEngine.

Lemma point_cloud_torn_down_witness :
  let P := postpointsDEMoutput "north" 1 in
  let f := feature 1 (Grid.rect 4 4 5 5) in
  let w' := fst (run [north] dem0 (feature_commands cfg0 north f)
                   empty_world) in
  run [north] dem0 (feature_commands cfg0 north f) empty_world = (w', None)
  /\ sget P (memory w') = None.
Proof.
  intros P f w'.
  assert (H : run [north] dem0 (feature_commands cfg0 north f) empty_world
              = (w', None)) by (vm_compute; reflexivity).
  split; [exact H|].
  exact (proj1 (proj2 (point_cloud_torn_down cfg0 [north] dem0 north f))
           empty_world w' H).
Defined.

End Iteration.

(* ================================================================== *)
(** * The difference raster and its zonal sum *)
(* ================================================================== *)

Module Difference.
Import Str Naming Script Geo Sql Run Observe Sample.



End Difference.

(* ================================================================== *)
(** * The mask stage *)
(* ================================================================== *)

Module Masking.
Import Str Naming Script Geo Sql Run Observe StrFacts RunFacts Sample.

Lemma numeric_not_blank (c : ascii) :
  numeric c = true -> Ascii.eqb c " " = false.
Proof.
  intros H. destruct (Ascii.eqb c " ") eqn:Hc; [|reflexivity].
  apply Ascii.eqb_eq in Hc. subst c. discriminate H.
Qed.

Lemma rstrip_no_blank (s : string) :
  Forall (fun c => numeric c = true) (chars s) ->
  rstrip s = s /\ rstrip (s ++ " ") = s.
Proof.
  induction s as [|c s IH]; intros H.
  - split; reflexivity.
  - inversion H as [|c' l Hc Hs]; subst.
    destruct (IH Hs) as [IH1 IH2]. simpl. rewrite IH1, IH2.
    rewrite (numeric_not_blank c Hc). now destruct s.
Qed.

Lemma int_of_str (z : Z) : int_of (str z) = Some z.
Proof.
  unfold int_of. rewrite int_of_string_str. simpl. f_equal.
  apply DecimalZ.of_to.
Qed.

Lemma where_value_quoted (s : string) :
  where_value (dquote ++ "UniqueID" ++ dquote ++ " = " ++ s)
  = int_of (rstrip s).
Proof. reflexivity. Qed.

Lemma where_value_bare (s : string) :
  where_value ("UniqueID" ++ " = " ++ s) = int_of (rstrip s).
Proof. reflexivity. Qed.

(** The two where clauses of the script select the rows whose UniqueID is
    the identifier they were built from. *)
Lemma where_value_whereClause (z : Z) : where_value (whereClause z) = Some z.
Proof.
  unfold whereClause. rewrite where_value_quoted.
  destruct (rstrip_no_blank (str z) (str_numeric z)) as [-> _].
  apply int_of_str.
Qed.

Lemma where_value_qry (z : Z) : where_value (qry z) = Some z.
Proof.
  unfold qry. rewrite where_value_bare.
  destruct (rstrip_no_blank (str z) (str_numeric z)) as [_ ->].
  apply int_of_str.
Qed.

Section WithEngine.
Context {E : Engine}.
Variable inputs : list Dataset.
Variable dem : Raster.

(** With identifiers that are unique in the dataset, the polygons of the
    rows that carry the identifier of [f] are the polygon of [f]. *)
Lemma footprint_of_unique (fs : list Feature) (f : Feature) (x y : Q) :
  In f fs ->
  (forall f', In f' fs -> UniqueID f' = UniqueID f -> f' = f) ->
  existsb (intersects x y)
    (map shape (filter (fun f' => UniqueID f' =? UniqueID f) fs))
  = intersects x y (shape f).
Proof.
  intros Hin Huniq.
  destruct (intersects x y (shape f)) eqn:Hf.
  - apply existsb_exists. exists (shape f). split; [|exact Hf].
    apply in_map, filter_In. split; [exact Hin | apply Z.eqb_refl].
  - apply not_true_is_false. intros H. apply existsb_exists in H.
    destruct H as [p [Hp Hi]]. apply in_map_iff in Hp.
    destruct Hp as [f' [<- Hf']]. apply filter_In in Hf'.
    destruct Hf' as [Hf' Hid]. apply Z.eqb_eq in Hid.
    rewrite (Huniq f' Hf' Hid) in Hi. congruence.
Qed.

End WithEngine.
End Masking.


(* ================================================================== *)
(** * A feature that cannot be triangulated *)
(* ================================================================== *)

Module Failure.
Import Str Naming Script Geo Sql Run Observe RunFacts Sample.

(** C3 fails as stated: the first row of [stray] leaves no point for the
    triangulation; the run ends with the error of [CreateTin_3d], no table
    has been written, and the second row, which is processed to the end
    when it is alone, has not been processed. *)
Lemma untriangulable_feature_ends_the_run :
  snd (run_script cfg0 dem0 [stray] empty_world)
  = Some (ExecuteError "CreateTin_3d")
  /\ tables (fst (run_script cfg0 dem0 [stray] empty_world)) = []
  /\ snd (run_script cfg0 dem0 [stray_sibling] empty_world) = None
  /\ map (fun e => file (fst e))
       (ListTables (Str.join "C:\Workspace" fzsFolder_name)
          (fst (run_script cfg0 dem0 [stray_sibling] empty_world)))
     = ["stray_FinalStatistics.dbf"; "stray_FinalStatistics_merged.dbf"].
Proof. repeat split; vm_compute; reflexivity. Qed.

End Failure.

(* ================================================================== *)
(** * The merged tables *)
(* ================================================================== *)

Module Merging.
Import Str Naming Script Geo Sql Run Observe RunFacts Sample.

(** The zone values of the rows of a table of the workspace. *)
Definition zones_of (w : World (E := Grid.engine)) (p : Path)
  : option (list Z) :=
  option_map (map zone) (Store.lookup path_eqb p (tables w)).

(** C5 does not hold of the script. Each successfully processed feature
    should have exactly one row in each batch-level table.  On a fresh
    workspace with the feature classes [north] (one row, identifier 1) and
    [vacant] (no row) the script runs to its end, and each of the two
    batch-level tables holds two rows for the one feature: the cursor loop
    of [vacant] does not run, the folder variables of Steps 9 and 10 still
    name the folders of [north], and the tables of [north] are merged a
    second time under the name of [vacant]. *)
Theorem empty_dataset_repeats_rows :
  let r := run_script cfg0 dem0 [north; vacant] empty_world in
  let fzs := join (wspace cfg0) fzsFolder_name in
  let frmse := join (wspace cfg0) frmseFolder_name in
  snd r = None
  /\ flat_map (fun d => map UniqueID (rows d)) [north; vacant] = [1]
  /\ zones_of (fst r) (mkPath fzs (fTablename "north")) = Some [1]
  /\ zones_of (fst r) (mkPath fzs (fTablename "vacant")) = Some [1]
  /\ zones_of (fst r) (mkPath fzs (fsTablename "vacant")) = Some [1; 1]
  /\ zones_of (fst r) (mkPath frmse (fmrmseTablename "vacant")) = Some [1; 1].
Proof. repeat split; vm_compute; reflexivity. Qed.

(** Rows are repeated as well when the workspace holds the tables of an
    earlier run: after a run over [north], a run over [north] and [south]
    lists the batch-level table of the first run among the tables that
    Step 11 merges, and the feature of [north] (identifier 1) has two rows. *)
Lemma second_run_repeats_rows :
  let w1 := fst (run_script cfg0 dem0 [north] empty_world) in
  let r := run_script cfg0 dem0 [north; south] w1 in
  let fzs := join (wspace cfg0) fzsFolder_name in
  snd r = None
  /\ zones_of w1 (mkPath fzs (fsTablename "north")) = Some [1]
  /\ zones_of (fst r) (mkPath fzs (fsTablename "south")) = Some [1; 1; 2].
Proof. repeat split; vm_compute; reflexivity. Qed.

End Merging.

(* ================================================================== *)
(** * Where the merged tables do hold one row per feature *)
(* ================================================================== *)

Module SkeletonFacts.
Import Str Naming Script Geo Sql Run Observe StrFacts RunFacts Skeleton
  Masking.

Lemma path_eqb_eq (p q : Path) : path_eqb p q = true -> p = q.
Proof.
  destruct p, q. unfold path_eqb. simpl. intros H.
  apply andb_true_iff in H. destruct H as [H1 H2].
  apply String.eqb_eq in H1, H2. now subst.
Qed.

Lemma path_eqb_refl (p : Path) : path_eqb p p = true.
Proof. unfold path_eqb. now rewrite !String.eqb_refl. Qed.

Lemma path_eqb_dir (p q : Path) :
  String.eqb (dir p) (dir q) = false -> path_eqb p q = false.
Proof. unfold path_eqb. now intros ->. Qed.

Lemma path_eqb_file (p q : Path) : file p <> file q -> path_eqb p q = false.
Proof.
  unfold path_eqb. intros H. apply String.eqb_neq in H. rewrite H.
  apply andb_false_r.
Qed.

Section Sets.
Context {V : Type}.

Lemma set_absent (k : Path) (v : V) (S : list (Path * V)) :
  (forall e, In e S -> path_eqb k (fst e) = false) ->
  Store.set path_eqb k v S = (S ++ [(k, v)])%list.
Proof.
  induction S as [|[k' v'] S IH]; intros H; simpl; [reflexivity|].
  pose proof (H (k', v') (or_introl eq_refl)) as Hk. simpl in Hk.
  rewrite Hk. f_equal. apply IH.
  intros e He. apply H. now right.
Qed.

Lemma filter_set (F : string) (k : Path) (v : V) (S : list (Path * V)) :
  filter (fun e => String.eqb (dir (fst e)) F) (Store.set path_eqb k v S)
  = if String.eqb (dir k) F
    then Store.set path_eqb k v
           (filter (fun e => String.eqb (dir (fst e)) F) S)
    else filter (fun e => String.eqb (dir (fst e)) F) S.
Proof.
  induction S as [|[k' v'] S IH]; simpl.
  - now destruct (String.eqb (dir k) F).
  - destruct (path_eqb k k') eqn:Ek; simpl.
    + apply path_eqb_eq in Ek. subst k'.
      destruct (String.eqb (dir k) F); simpl; [|reflexivity].
      now rewrite path_eqb_refl.
    + rewrite IH.
      destruct (String.eqb (dir k') F), (String.eqb (dir k) F); simpl;
        try reflexivity.
      now rewrite Ek.
Qed.

End Sets.

Lemma skeleton_set (k : Path) (t : Table) (T : list (Path * Table)) :
  skeleton (Store.set path_eqb k t T)
  = Store.set path_eqb k (map zone t) (skeleton T).
Proof.
  induction T as [|[k' t'] T IH]; simpl; [reflexivity|].
  destruct (path_eqb k k'); simpl; [reflexivity | now rewrite IH].
Qed.

Lemma skeleton_listing (F : string) (T : list (Path * Table)) :
  skeleton (filter (fun e => String.eqb (dir (fst e)) F) T)
  = listing F (skeleton T).
Proof.
  unfold listing. induction T as [|[k t] T IH]; simpl; [reflexivity|].
  destruct (String.eqb (dir k) F); simpl; now rewrite IH.
Qed.

Lemma skeleton_concat (T : list (Path * Table)) :
  map zone (List.concat (map snd T))
  = List.concat (map snd (skeleton T)).
Proof.
  induction T as [|[k t] T IH]; simpl; [reflexivity|].
  now rewrite map_app, IH.
Qed.

Lemma nodup_all_same (a : Z) (l : list Z) :
  l <> [] -> (forall x, In x l -> x = a) -> nodup Z.eq_dec l = [a].
Proof.
  induction l as [|x l IH]; intros Hne Hall; [congruence|].
  simpl. assert (x = a) by (apply Hall; now left). subst x.
  destruct l as [|y l].
  - reflexivity.
  - assert (Hl : nodup Z.eq_dec (y :: l) = [a]).
    { apply IH; [discriminate|]. intros x Hx. apply Hall. now right. }
    destruct (in_dec Z.eq_dec a (y :: l)) as [_|Hn]; [exact Hl|].
    exfalso. apply Hn. assert (y = a) by (apply Hall; right; now left).
    subst y. now left.
Qed.

Section WithEngine.
Context {E : Engine}.

Lemma zonal_table_zones (zones : list Feature) (r : Raster) :
  map zone (zonal_table zones r) = nodup Z.eq_dec (map UniqueID zones).
Proof.
  unfold zonal_table. rewrite map_map. simpl. apply map_id.
Qed.

Lemma zonal_table_of_feature (fs : list Feature) (f : Feature) (r : Raster) :
  In f fs ->
  map zone
    (zonal_table (filter (fun f' => UniqueID f' =? UniqueID f) fs) r)
  = [UniqueID f].
Proof.
  intros Hin. rewrite zonal_table_zones. apply nodup_all_same.
  - intros H. apply map_eq_nil in H.
    assert (Hf : In f (filter (fun f' => UniqueID f' =? UniqueID f) fs))
      by (apply filter_In; split; [exact Hin | apply Z.eqb_refl]).
    rewrite H in Hf. contradiction.
  - intros x Hx. apply in_map_iff in Hx. destruct Hx as [f' [<- Hf']].
    apply filter_In in Hf'. destruct Hf' as [_ Hf']. now apply Z.eqb_eq.
Qed.

End WithEngine.
End SkeletonFacts.

Module MergeSim.
Import Str Naming Script Geo Sql Run Observe StrFacts RunFacts Skeleton
  Masking SkeletonFacts PlanFacts.

Section WithEngine.
Context {E : Engine}.
Variable cfg : Config.
Variable inputs : list Dataset.
Variable dem : Raster.

Lemma zonal_block (d : Dataset) (f : Feature) (raster out : Path)
  (stat : string) (w w' : World) :
  find_input inputs (slumpset d) = Some d ->
  In f (rows d) ->
  run inputs dem (zonal_commands d f raster out stat) w = (w', None) ->
  skeleton (tables w')
  = Store.set path_eqb out [UniqueID f] (skeleton (tables w)).
Proof.
  intros Hd Hin H. unfold zonal_commands in H.
  apply run_cons_inv in H. destruct H as [w1 [E1 H]].
  simpl in E1. rewrite Hd in E1. injection E1 as <-.
  apply run_cons_inv in H. destruct H as [w2 [E2 H]].
  cbn [exec layers with_layers] in E2.
  rewrite sget_sset_same, where_value_qry in E2. injection E2 as <-.
  apply run_cons_inv in H. destruct H as [w3 [E3 H]].
  simpl in H. injection H as <-.
  cbn [exec layers with_layers rasters] in E3.
  rewrite sget_sset_same in E3.
  destruct (sget (path_str raster) (rasters w)) as [ra|]; [|discriminate].
  rewrite Hd in E3. injection E3 as <-.
  cbn [tables with_tables with_layers]. rewrite skeleton_set. f_equal.
  now apply zonal_table_of_feature.
Qed.

Lemma feature_commands_tables (d : Dataset) (f : Feature) :
  let w := wspace cfg in
  let b := baseName d in
  let i := UniqueID f in
  feature_commands cfg d f
  = ((extract_commands cfg d f ++ mask_commands d f
      ++ reconstruct_commands cfg d f ++ dod_commands cfg d f
      ++ [makedirs (join w (zsFolder_name b))])
     ++ zonal_commands d f (artifact w b i DOD)
          (artifact w b i IndZonalStats) "ALL"
     ++ firstn 3 (rmse_commands cfg d f)
     ++ zonal_commands d f (artifact w b i DODsq)
          (artifact w b i IndRMSEStats) "MEAN")%list.
Proof. reflexivity. Qed.

Lemma feature_sim (d : Dataset) (f : Feature) (w w' : World) :
  find_input inputs (slumpset d) = Some d ->
  In f (rows d) ->
  run inputs dem (feature_commands cfg d f) w = (w', None) ->
  skeleton (tables w') = skel_feature cfg d (skeleton (tables w)) f.
Proof.
  intros Hd Hin H. rewrite feature_commands_tables in H.
  apply run_app_inv in H. destruct H as [w1 [H1 H]].
  apply run_app_inv in H. destruct H as [w2 [H2 H]].
  apply run_app_inv in H. destruct H as [w3 [H3 H4]].
  apply run_tables_frame in H1; [|reflexivity].
  apply run_tables_frame in H3; [|reflexivity].
  apply (zonal_block d f _ _ _ _ _ Hd Hin) in H2.
  apply (zonal_block d f _ _ _ _ _ Hd Hin) in H4.
  unfold skel_feature. rewrite H4, H3, H2, H1. reflexivity.
Qed.

Lemma features_sim (d : Dataset) (fs : list Feature) (w w' : World) :
  find_input inputs (slumpset d) = Some d ->
  (forall f, In f fs -> In f (rows d)) ->
  run inputs dem (flat_map (feature_commands cfg d) fs) w = (w', None) ->
  skeleton (tables w')
  = fold_left (skel_feature cfg d) fs (skeleton (tables w)).
Proof.
  intros Hd. revert w. induction fs as [|f fs IH]; intros w Hin H.
  - simpl in H. now injection H as <-.
  - cbn [flat_map] in H. apply run_app_inv in H. destruct H as [w1 [H1 H]].
    apply feature_sim in H1; [|exact Hd | apply Hin; now left].
    simpl. rewrite <- H1. apply IH; [|exact H].
    intros f' Hf'. apply Hin. now right.
Qed.

Lemma merge_sim (F : string) (out : Path) (w w' : World) :
  exec inputs dem (Merge_ListTables F out) w = inr w' ->
  skeleton (tables w') = skel_merge F out (skeleton (tables w)).
Proof.
  cbn [exec]. unfold ListTables, skel_merge.
  rewrite <- skeleton_listing, <- skeleton_concat.
  destruct (filter _ (tables w)) as [|e l]; [discriminate|].
  intros H. injection H as <-. cbn [tables with_tables].
  apply skeleton_set.
Qed.

Lemma vars_after_rows (v : PyVars) (d : Dataset) :
  rows d <> [] ->
  vars_after cfg v d
  = mkVars (Some (baseName d))
      (Some (join (wspace cfg) (zsFolder_name (baseName d))))
      (Some (join (wspace cfg) (rmseFolder_name (baseName d)))).
Proof. unfold vars_after. destruct (rows d); [congruence | reflexivity]. Qed.

Lemma dataset_sim (v : PyVars) (d : Dataset) (w w' : World) :
  find_input inputs (slumpset d) = Some d ->
  rows d <> [] ->
  run inputs dem (dataset_commands cfg v d) w = (w', None) ->
  skeleton (tables w') = skel_dataset cfg (skeleton (tables w)) d.
Proof.
  intros Hd Hne H. unfold dataset_commands in H. cbv zeta in H.
  rewrite (vars_after_rows v d Hne) in H.
  cbn [merge_from zsFolder_joined rmseFolder_joined] in H.
  apply run_app_inv in H. destruct H as [w1 [H1 H]].
  apply run_app_inv in H. destruct H as [w2 [H2 H]].
  apply run_tables_frame in H1; [|reflexivity].
  apply features_sim in H2; [|exact Hd | auto].
  apply run_cons_inv in H. destruct H as [w3 [E3 H]].
  apply exec_tables_frame in E3; [|reflexivity].
  apply run_cons_inv in H. destruct H as [w4 [E4 H]].
  apply merge_sim in E4.
  apply run_cons_inv in H. destruct H as [w5 [E5 H]].
  apply exec_tables_frame in E5; [|reflexivity].
  apply run_cons_inv in H. destruct H as [w6 [E6 H]].
  apply merge_sim in E6. simpl in H. injection H as <-.
  unfold skel_dataset. rewrite E6, E5, E4, E3, H2, H1. reflexivity.
Qed.

Lemma loop_sim (ds : list Dataset) (v : PyVars) (w w' : World) :
  (forall d, In d ds ->
     find_input inputs (slumpset d) = Some d /\ rows d <> []) ->
  run inputs dem (fst (loop_commands cfg v ds)) w = (w', None) ->
  skeleton (tables w')
  = fold_left (skel_dataset cfg) ds (skeleton (tables w)).
Proof.
  revert v w. induction ds as [|d ds IH]; intros v w Hds H.
  - simpl in H. now injection H as <-.
  - rewrite loop_commands_fst in H.
    apply run_app_inv in H. destruct H as [w1 [H1 H]].
    destruct (Hds d (or_introl eq_refl)) as [Hd Hne].
    apply dataset_sim in H1; [|exact Hd | exact Hne].
    simpl. rewrite <- H1. apply (IH _ _ (fun d' Hd' => Hds d' (or_intror Hd')) H).
Qed.

Lemma script_sim (ds : list Dataset) (d0 : Dataset) (w w' : World) :
  ds <> [] ->
  (forall d, In d ds ->
     find_input inputs (slumpset d) = Some d /\ rows d <> []) ->
  run inputs dem (script_commands cfg ds) w = (w', None) ->
  skeleton (tables w')
  = skel_final cfg (baseName (last ds d0))
      (fold_left (skel_dataset cfg) ds (skeleton (tables w))).
Proof.
  intros Hne Hds H. rewrite script_commands_eq in H.
  apply run_app_inv in H. destruct H as [w1 [H1 H]].
  apply loop_sim in H1; [|exact Hds].
  destruct ds as [|d ds]; [congruence|].
  unfold final_commands in H. rewrite (desc_after_loop cfg ds unbound d d0) in H.
  apply run_cons_inv in H. destruct H as [w2 [E2 H]].
  apply merge_sim in E2.
  apply run_cons_inv in H. destruct H as [w3 [E3 H]].
  apply merge_sim in E3. simpl in H. injection H as <-.
  unfold skel_final. rewrite E3, E2, H1. reflexivity.
Qed.

End WithEngine.
End MergeSim.

Module MergeCount.
Import Str Naming Script Geo Sql Run Observe StrFacts NamingFacts RunFacts
  Skeleton SkeletonFacts.

Section WithEngine.
Context {E : Engine}.
Variable cfg : Config.

Let W := wspace cfg.
Let zsF (d : Dataset) := join W (zsFolder_name (baseName d)).
Let rmseF (d : Dataset) := join W (rmseFolder_name (baseName d)).
Let fzsF := join W fzsFolder_name.
Let frmseF := join W frmseFolder_name.

Ltac folders_differ :=
  apply String.eqb_neq; intros H; apply join_inj in H;
  unfold zsFolder_name, rmseFolder_name, fzsFolder_name, frmseFolder_name in H;
  simpl in H; discriminate H.

Lemma zs_rmse (d d' : Dataset) : String.eqb (zsF d) (rmseF d') = false.
Proof. folders_differ. Qed.
Lemma rmse_zs (d d' : Dataset) : String.eqb (rmseF d) (zsF d') = false.
Proof. folders_differ. Qed.
Lemma zs_fzs (d : Dataset) : String.eqb (zsF d) fzsF = false.
Proof. folders_differ. Qed.
Lemma zs_frmse (d : Dataset) : String.eqb (zsF d) frmseF = false.
Proof. folders_differ. Qed.
Lemma rmse_fzs (d : Dataset) : String.eqb (rmseF d) fzsF = false.
Proof. folders_differ. Qed.
Lemma rmse_frmse (d : Dataset) : String.eqb (rmseF d) frmseF = false.
Proof. folders_differ. Qed.
Lemma fzs_zs (d : Dataset) : String.eqb fzsF (zsF d) = false.
Proof. folders_differ. Qed.
Lemma fzs_rmse (d : Dataset) : String.eqb fzsF (rmseF d) = false.
Proof. folders_differ. Qed.
Lemma frmse_zs (d : Dataset) : String.eqb frmseF (zsF d) = false.
Proof. folders_differ. Qed.
Lemma frmse_rmse (d : Dataset) : String.eqb frmseF (rmseF d) = false.
Proof. folders_differ. Qed.
Lemma fzs_frmse : String.eqb fzsF frmseF = false.
Proof. folders_differ. Qed.
Lemma frmse_fzs : String.eqb frmseF fzsF = false.
Proof. folders_differ. Qed.

Lemma zs_zs (d d' : Dataset) :
  baseName d <> baseName d' -> String.eqb (zsF d) (zsF d') = false.
Proof.
  intros Hne. apply String.eqb_neq. intros H. apply join_inj in H.
  unfold zsFolder_name in H. now apply append_inv_head in H.
Qed.

Lemma rmse_rmse (d d' : Dataset) :
  baseName d <> baseName d' -> String.eqb (rmseF d) (rmseF d') = false.
Proof.
  intros Hne. apply String.eqb_neq. intros H. apply join_inj in H.
  unfold rmseFolder_name in H. now apply append_inv_head in H.
Qed.

Lemma listing_set (F : string) (k : Path) (v : list Z) (K : Skel) :
  listing F (Store.set path_eqb k v K)
  = if String.eqb (dir k) F then Store.set path_eqb k v (listing F K)
    else listing F K.
Proof. apply filter_set. Qed.

(** The entries one feature leaves in the two per-dataset folders. *)
Definition gz (d : Dataset) (f : Feature) : Path * list Z :=
  (artifact W (baseName d) (UniqueID f) IndZonalStats, [UniqueID f]).
Definition gr (d : Dataset) (f : Feature) : Path * list Z :=
  (artifact W (baseName d) (UniqueID f) IndRMSEStats, [UniqueID f]).

Lemma listing_feature_zs (d : Dataset) (f : Feature) (K : Skel) :
  listing (zsF d) (skel_feature cfg d K f)
  = Store.set path_eqb (fst (gz d f)) (snd (gz d f)) (listing (zsF d) K).
Proof.
  unfold skel_feature. rewrite !listing_set. cbn [dir artifact artifact_dir].
  fold W. fold (zsF d) (rmseF d).
  now rewrite rmse_zs, String.eqb_refl.
Qed.

Lemma listing_feature_rmse (d : Dataset) (f : Feature) (K : Skel) :
  listing (rmseF d) (skel_feature cfg d K f)
  = Store.set path_eqb (fst (gr d f)) (snd (gr d f)) (listing (rmseF d) K).
Proof.
  unfold skel_feature. rewrite !listing_set. cbn [dir artifact artifact_dir].
  fold W. fold (zsF d) (rmseF d).
  now rewrite zs_rmse, String.eqb_refl.
Qed.

Lemma listing_feature_other (F : string) (d : Dataset) (f : Feature)
  (K : Skel) :
  String.eqb (zsF d) F = false -> String.eqb (rmseF d) F = false ->
  listing F (skel_feature cfg d K f) = listing F K.
Proof.
  intros Hz Hr. unfold skel_feature. rewrite !listing_set.
  cbn [dir artifact artifact_dir]. fold W. fold (zsF d) (rmseF d).
  now rewrite Hz, Hr.
Qed.

Lemma listing_features_other (F : string) (d : Dataset) (fs : list Feature)
  (K : Skel) :
  String.eqb (zsF d) F = false -> String.eqb (rmseF d) F = false ->
  listing F (fold_left (skel_feature cfg d) fs K) = listing F K.
Proof.
  intros Hz Hr. revert K. induction fs as [|f fs IH]; intros K; simpl;
    [reflexivity|].
  rewrite IH. now apply listing_feature_other.
Qed.

Lemma fresh_entry (g : Feature -> Path * list Z) (pre : list Feature)
  (f : Feature) :
  (forall f', In f' pre -> file (fst (g f)) <> file (fst (g f'))) ->
  Store.set path_eqb (fst (g f)) (snd (g f)) (map g pre)
  = map g (pre ++ [f]).
Proof.
  intros H. rewrite set_absent.
  - rewrite map_app. simpl. now destruct (g f).
  - intros e He. apply in_map_iff in He. destruct He as [f' [<- Hf']].
    apply path_eqb_file. now apply H.
Qed.

Lemma other_identifier (pre fs : list Feature) (f f' : Feature) :
  NoDup (map UniqueID (pre ++ f :: fs)) -> In f' pre ->
  UniqueID f <> UniqueID f'.
Proof.
  rewrite map_app. simpl. intros Hnd Hin Heq.
  apply NoDup_remove_2 in Hnd. apply Hnd. apply in_or_app. left.
  rewrite Heq. now apply in_map.
Qed.

Lemma listing_features_zs (d : Dataset) (fs pre : list Feature) (K : Skel) :
  NoDup (map UniqueID (pre ++ fs)) ->
  listing (zsF d) K = map (gz d) pre ->
  listing (zsF d) (fold_left (skel_feature cfg d) fs K)
  = map (gz d) (pre ++ fs).
Proof.
  revert pre K. induction fs as [|f fs IH]; intros pre K Hnd HK.
  - now rewrite app_nil_r.
  - simpl. replace (pre ++ f :: fs)%list with ((pre ++ [f]) ++ fs)%list
      in * by now rewrite <- app_assoc.
    apply IH; [exact Hnd|].
    rewrite listing_feature_zs, HK. apply fresh_entry.
    intros f' Hf' Heq. simpl in Heq. apply artifact_name_inj in Heq.
    destruct Heq as [_ Heq]. revert Heq.
    apply (other_identifier pre fs); [|exact Hf'].
    now rewrite <- app_assoc in Hnd.
Qed.

Lemma listing_features_rmse (d : Dataset) (fs pre : list Feature)
  (K : Skel) :
  NoDup (map UniqueID (pre ++ fs)) ->
  listing (rmseF d) K = map (gr d) pre ->
  listing (rmseF d) (fold_left (skel_feature cfg d) fs K)
  = map (gr d) (pre ++ fs).
Proof.
  revert pre K. induction fs as [|f fs IH]; intros pre K Hnd HK.
  - now rewrite app_nil_r.
  - simpl. replace (pre ++ f :: fs)%list with ((pre ++ [f]) ++ fs)%list
      in * by now rewrite <- app_assoc.
    apply IH; [exact Hnd|].
    rewrite listing_feature_rmse, HK. apply fresh_entry.
    intros f' Hf' Heq. simpl in Heq. apply artifact_name_inj in Heq.
    destruct Heq as [_ Heq]. revert Heq.
    apply (other_identifier pre fs); [|exact Hf'].
    now rewrite <- app_assoc in Hnd.
Qed.

Lemma rows_of_entries (g : Feature -> Path * list Z) (fs : list Feature) :
  (forall f, snd (g f) = [UniqueID f]) ->
  List.concat (map snd (map g fs)) = map UniqueID fs.
Proof.
  intros Hg. induction fs as [|f fs IH]; simpl; [reflexivity|].
  now rewrite Hg, IH.
Qed.


Lemma listing_merge (G F : string) (out : Path) (K : Skel) :
  listing G (skel_merge F out K)
  = if String.eqb (dir out) G
    then Store.set path_eqb out (List.concat (map snd (listing F K)))
           (listing G K)
    else listing G K.
Proof. unfold skel_merge. apply listing_set. Qed.

Definition ids (d : Dataset) : list Z := map UniqueID (rows d).

(** The entries one dataset leaves in the two final folders. *)
Definition hz (d : Dataset) : Path * list Z :=
  (mkPath fzsF (fTablename (baseName d)), ids d).
Definition hr (d : Dataset) : Path * list Z :=
  (mkPath frmseF (frmseTablename (baseName d)), ids d).

Lemma dataset_listing_fzs (d : Dataset) (K : Skel) :
  NoDup (ids d) -> listing (zsF d) K = [] ->
  listing fzsF (skel_dataset cfg K d)
  = Store.set path_eqb (fst (hz d)) (snd (hz d)) (listing fzsF K).
Proof.
  intros Hnd HK. unfold skel_dataset. fold W. fold (zsF d) (rmseF d).
  fold fzsF frmseF. rewrite !listing_merge. cbn [dir].
  rewrite frmse_fzs, String.eqb_refl.
  rewrite (listing_features_zs d (rows d) [] K Hnd HK).
  rewrite listing_features_other by (apply zs_fzs || apply rmse_fzs).
  simpl app. rewrite rows_of_entries by reflexivity. reflexivity.
Qed.

Lemma dataset_listing_frmse (d : Dataset) (K : Skel) :
  NoDup (ids d) -> listing (rmseF d) K = [] ->
  listing frmseF (skel_dataset cfg K d)
  = Store.set path_eqb (fst (hr d)) (snd (hr d)) (listing frmseF K).
Proof.
  intros Hnd HK. unfold skel_dataset. fold W. fold (zsF d) (rmseF d).
  fold fzsF frmseF. rewrite !listing_merge. cbn [dir].
  rewrite fzs_frmse, fzs_rmse, String.eqb_refl.
  rewrite (listing_features_rmse d (rows d) [] K Hnd HK).
  rewrite listing_features_other by (apply zs_frmse || apply rmse_frmse).
  simpl app. rewrite rows_of_entries by reflexivity. reflexivity.
Qed.

Lemma dataset_listing_zs (d d' : Dataset) (K : Skel) :
  baseName d <> baseName d' ->
  listing (zsF d') (skel_dataset cfg K d) = listing (zsF d') K.
Proof.
  intros Hne. unfold skel_dataset. fold W. fold (zsF d) (rmseF d).
  fold fzsF frmseF. rewrite !listing_merge. cbn [dir].
  rewrite frmse_zs, fzs_zs.
  apply listing_features_other; [now apply zs_zs | apply rmse_zs].
Qed.

Lemma dataset_listing_rmse (d d' : Dataset) (K : Skel) :
  baseName d <> baseName d' ->
  listing (rmseF d') (skel_dataset cfg K d) = listing (rmseF d') K.
Proof.
  intros Hne. unfold skel_dataset. fold W. fold (zsF d) (rmseF d).
  fold fzsF frmseF. rewrite !listing_merge. cbn [dir].
  rewrite frmse_rmse, fzs_rmse.
  apply listing_features_other; [apply zs_rmse | now apply rmse_rmse].
Qed.

Lemma fresh_dataset_entry (h : Dataset -> Path * list Z)
  (pre : list Dataset) (d : Dataset) :
  (forall d', In d' pre -> file (fst (h d)) <> file (fst (h d'))) ->
  Store.set path_eqb (fst (h d)) (snd (h d)) (map h pre)
  = map h (pre ++ [d]).
Proof.
  intros H. rewrite set_absent.
  - rewrite map_app. simpl. now destruct (h d).
  - intros e He. apply in_map_iff in He. destruct He as [d' [<- Hd']].
    apply path_eqb_file. now apply H.
Qed.

Lemma other_base (pre ds : list Dataset) (d d' : Dataset) :
  NoDup (map baseName (pre ++ d :: ds)) -> In d' (pre ++ ds) ->
  baseName d <> baseName d'.
Proof.
  rewrite map_app. simpl. intros Hnd Hin Heq.
  apply NoDup_remove_2 in Hnd. apply Hnd. rewrite <- map_app, Heq.
  now apply in_map.
Qed.

Lemma loop_listing (ds pre : list Dataset) (K : Skel) :
  NoDup (map baseName (pre ++ ds)) ->
  (forall d, In d ds -> NoDup (ids d)) ->
  (forall d, In d ds -> listing (zsF d) K = [] /\ listing (rmseF d) K = []) ->
  listing fzsF K = map hz pre ->
  listing frmseF K = map hr pre ->
  listing fzsF (fold_left (skel_dataset cfg) ds K) = map hz (pre ++ ds)
  /\ listing frmseF (fold_left (skel_dataset cfg) ds K) = map hr (pre ++ ds).
Proof.
  revert pre K. induction ds as [|d ds IH]; intros pre K Hb Hi He Hz Hr.
  - now rewrite app_nil_r.
  - simpl.
    assert (Hother : forall d', In d' (pre ++ ds) ->
                                baseName d <> baseName d')
      by (intros d'; now apply other_base).
    replace (pre ++ d :: ds)%list with ((pre ++ [d]) ++ ds)%list
      in * by now rewrite <- app_assoc.
    destruct (He d (or_introl eq_refl)) as [Hez Her].
    apply IH.
    + exact Hb.
    + intros d' Hd'. apply Hi. now right.
    + intros d' Hd'.
      rewrite dataset_listing_zs, dataset_listing_rmse
        by (apply Hother, in_or_app; now right).
      apply He. now right.
    + rewrite dataset_listing_fzs, Hz
        by (exact Hez || (apply Hi; now left)).
      apply fresh_dataset_entry. intros d' Hd' Heq. simpl in Heq.
      unfold fTablename in Heq. apply append_inv_tail in Heq.
      revert Heq. apply Hother, in_or_app. now left.
    + rewrite dataset_listing_frmse, Hr
        by (exact Her || (apply Hi; now left)).
      apply fresh_dataset_entry. intros d' Hd' Heq. simpl in Heq.
      unfold frmseTablename in Heq. apply append_inv_tail in Heq.
      revert Heq. apply Hother, in_or_app. now left.
Qed.

Lemma rows_of_datasets (h : Dataset -> Path * list Z) (ds : list Dataset) :
  (forall d, snd (h d) = ids d) ->
  List.concat (map snd (map h ds)) = flat_map ids ds.
Proof.
  intros Hh. induction ds as [|d ds IH]; simpl; [reflexivity|].
  now rewrite Hh, IH.
Qed.

(** The two batch-level tables after a run on fresh folders. *)
Lemma final_skeleton (ds : list Dataset) (b : string) :
  NoDup (map baseName ds) ->
  (forall d, In d ds -> NoDup (ids d)) ->
  let K := skel_final cfg b (fold_left (skel_dataset cfg) ds []) in
  Store.lookup path_eqb (mkPath fzsF (fsTablename b)) K
  = Some (flat_map ids ds)
  /\ Store.lookup path_eqb (mkPath frmseF (fmrmseTablename b)) K
     = Some (flat_map ids ds).
Proof.
  intros Hb Hi K.
  destruct (loop_listing ds [] [] Hb Hi (fun _ _ => conj eq_refl eq_refl)
              eq_refl eq_refl) as [Hz Hr].
  simpl app in Hz, Hr. subst K. unfold skel_final. fold W. fold fzsF frmseF.
  split.
  - unfold skel_merge at 1.
    rewrite lookup_set_other;
      [| apply path_eqb_eq | apply path_eqb_dir, fzs_frmse].
    unfold skel_merge. rewrite (lookup_set_same _ path_eqb_refl).
    rewrite Hz, rows_of_datasets by reflexivity. reflexivity.
  - unfold skel_merge at 1.
    rewrite (lookup_set_same _ path_eqb_refl).
    rewrite listing_merge. cbn [dir]. rewrite fzs_frmse.
    rewrite Hr, rows_of_datasets by reflexivity. reflexivity.
Qed.

End WithEngine.
End MergeCount.

Module MergingSound.
Import Str Naming Script Geo Sql Run Observe StrFacts RunFacts Skeleton
  SkeletonFacts MergeSim MergeCount.

Lemma skeleton_lookup (k : Path) (T : list (Path * Table)) :
  Store.lookup path_eqb k (skeleton T)
  = option_map (map zone) (Store.lookup path_eqb k T).
Proof.
  induction T as [|[k' t] T IH]; simpl; [reflexivity|].
  now destruct (path_eqb k k').
Qed.

Section WithEngine.
Context {E : Engine}.

Lemma find_input_self (ds : list Dataset) (d : Dataset) :
  NoDup (map slumpset ds) -> In d ds ->
  find_input ds (slumpset d) = Some d.
Proof.
  unfold find_input. induction ds as [|d' ds IH]; intros Hnd Hin;
    [contradiction|].
  simpl in *. inversion Hnd as [|x l Hx Hnd']; subst.
  destruct Hin as [->|Hin]; [now rewrite String.eqb_refl|].
  destruct (String.eqb (slumpset d') (slumpset d)) eqn:Heq; [|now apply IH].
  apply String.eqb_eq in Heq. exfalso. apply Hx. rewrite Heq.
  now apply in_map.
Qed.

(** X15. Where the claim of one row per feature does hold: on a workspace
    without tables, over feature classes with distinct names, each with
    at least one row and with identifiers that are unique in it, a run
    that reaches its end leaves in each of the two batch-level tables
    exactly one row for every row of every dataset, in order, keyed by
    the row's identifier. *)
Lemma one_row_per_feature_on_fresh_folders (cfg : Config) (dem : Raster)
  (ds : list Dataset) (d0 : Dataset) (w w' : World) :
  tables w = [] ->
  ds <> [] ->
  NoDup (map slumpset ds) ->
  NoDup (map baseName ds) ->
  (forall d, In d ds -> rows d <> [] /\ NoDup (map UniqueID (rows d))) ->
  run_script cfg dem ds w = (w', None) ->
  let b := baseName (last ds d0) in
  let all := flat_map (fun d => map UniqueID (rows d)) ds in
  option_map (map zone)
    (Store.lookup path_eqb
       (mkPath (join (wspace cfg) fzsFolder_name) (fsTablename b))
       (tables w')) = Some all
  /\ option_map (map zone)
       (Store.lookup path_eqb
          (mkPath (join (wspace cfg) frmseFolder_name) (fmrmseTablename b))
          (tables w')) = Some all.
Proof.
  intros Hw Hne Hn Hb Hd H b all. unfold run_script in H.
  apply (script_sim cfg ds dem ds d0) in H; [|exact Hne|].
  - rewrite Hw in H. simpl skeleton in H.
    rewrite <- !skeleton_lookup, H.
    apply (final_skeleton cfg ds b Hb).
    intros d Hin. now apply Hd.
  - intros d Hin. split; [now apply find_input_self | now apply Hd].
Qed.

End WithEngine.
End MergingSound.

(* ================================================================== *)
(** * Naming across stages and across the levels of the merge *)
(* ================================================================== *)

Module NamingAcross.
Import Str Naming Script StrFacts NamingFacts.

(** The last [n] characters of a string, last one first. *)
Definition tail_chars (n : nat) (s : string) : list ascii :=
  firstn n (List.rev (chars s)).

Lemma tail_chars_app (n : nat) (a s : string) :
  (n <= String.length s)%nat -> tail_chars n (a ++ s) = tail_chars n s.
Proof.
  intros Hn. unfold tail_chars. rewrite chars_app, rev_app_distr.
  assert (Hl : List.length (List.rev (chars s)) = String.length s).
  { rewrite length_rev. unfold chars. clear.
    induction s as [|c s IH]; simpl; [reflexivity | now rewrite IH]. }
  rewrite firstn_app, Hl.
  replace (n - String.length s)%nat with 0%nat by lia.
  simpl. apply app_nil_r.
Qed.

Lemma artifact_path_suffix (w b : string) (i : Z) (st : Stage) :
  artifact_path w b i st
  = (artifact_dir w b st ++ separator st ++ b ++ slumpname i) ++ suffix st.
Proof. unfold artifact_path, artifact_name. now rewrite !append_assoc. Qed.

Lemma tail_of_path (n : nat) (w b : string) (i : Z) (st : Stage) :
  (n <= String.length (suffix st))%nat ->
  tail_chars n (artifact_path w b i st) = tail_chars n (suffix st).
Proof. intros Hn. rewrite artifact_path_suffix. now apply tail_chars_app. Qed.

Lemma stage_eq_dec (st st' : Stage) : {st = st'} + {st <> st'}.
Proof. decide equality. Qed.

Ltac by_tail n H :=
  apply (f_equal (tail_chars n)) in H;
  rewrite !tail_of_path in H by (simpl; lia);
  vm_compute in H; discriminate H.

Ltac by_folder H :=
  unfold artifact_path in H; cbn [artifact_dir separator] in H;
  unfold zsFolder_name, rmseFolder_name in H;
  rewrite !join_is_prefix, !append_assoc in H;
  apply append_inv_head in H; simpl in H; discriminate H.

Lemma stages_never_collide (w : string) (st st' : Stage) (b b' : string)
  (i i' : Z) :
  st <> st' -> artifact_path w b i st <> artifact_path w b' i' st'.
Proof.
  intros Hne H.
  destruct st, st'; try congruence;
    first [ by_tail 1%nat H | by_tail 6%nat H | by_folder H ].
Qed.

(** X1. One workspace never gives two artifacts the same path: for all
    dataset base names, integer identifiers and stages, the paths of two
    per-feature artifacts are equal only if the base names, the
    identifiers and the stages are. *)
Theorem artifact_paths_never_collide (w : string) (st st' : Stage)
  (b b' : string) (i i' : Z) :
  (b, i, st) <> (b', i', st') ->
  artifact_path w b i st <> artifact_path w b' i' st'.
Proof.
  intros Hne H. destruct (stage_eq_dec st st') as [->|Hst].
  - apply artifact_path_inj in H. destruct H; subst. now apply Hne.
  - revert H. now apply stages_never_collide.
Qed.

Lemma artifact_paths_never_collide_witness :
  ("north", 7, DOD) <> ("north", 7, DODsq)
  /\ artifact_path "C:\Workspace" "north" 7 DOD
     <> artifact_path "C:\Workspace" "north" 7 DODsq.
Proof.
  assert (H : ("north", 7, DOD) <> ("north", 7, DODsq)) by discriminate.
  split; [exact H|].
  exact (artifact_paths_never_collide "C:\Workspace" DOD DODsq
           "north" "north" 7 7 H).
Defined.

Ltac by_name_tail n b b' H :=
  apply (f_equal (tail_chars n)) in H;
  rewrite (tail_chars_app n b), (tail_chars_app n b') in H by (simpl; lia);
  vm_compute in H; discriminate H.

(** X2. In the two final folders no table overwrites another: the
    per-dataset table names are injective in the dataset base name, and
    the name of a batch-level table is never the name of a per-dataset
    table, whatever the base names are. *)
Theorem final_tables_never_collide (b b' : string) :
  (fTablename b = fTablename b' <-> b = b')
  /\ (frmseTablename b = frmseTablename b' <-> b = b')
  /\ fsTablename b <> fTablename b'
  /\ fmrmseTablename b <> frmseTablename b'.
Proof.
  unfold fTablename, frmseTablename, fsTablename, fmrmseTablename.
  repeat split; intros H; try (subst; reflexivity);
    try (now apply append_inv_tail in H); by_name_tail 5%nat b b' H.
Qed.

End NamingAcross.

(* ================================================================== *)
(** * Runs on workspaces without feature classes or without rows *)
(* ================================================================== *)

Module EdgeRuns.
Import Str Naming Script Geo Sql Run Observe StrFacts RunFacts PlanFacts
  Sample.

(** The folder listings merged by some calls, with the tables they
    write. *)
Definition merges (cs : list command) : list (string * Path) :=
  flat_map (fun c =>
    match c with
    | Merge_ListTables folder out => [(folder, out)]
    | _ => []
    end) cs.

Section WithEngine.
Context {E : Engine}.
Variable cfg : Config.

(** The last dataset of a list that has at least one row. *)
Fixpoint last_with_rows (ds : list Dataset) : option Dataset :=
  match ds with
  | [] => None
  | d :: ds' =>
      match last_with_rows ds' with
      | Some d' => Some d'
      | None => match rows d with [] => None | _ :: _ => Some d end
      end
  end.

(** X3. On a workspace without feature classes the script does nothing
    and ends with the unbound name [fzsFolder_joined] of Step 11: the
    world is the one it started in. *)
Theorem no_feature_class_is_a_name_error (dem : Raster) (w : World) :
  script_commands cfg [] = [NameError "fzsFolder_joined"]
  /\ run_script cfg dem [] w = (w, Some (UnboundName "fzsFolder_joined")).
Proof. split; reflexivity. Qed.

Lemma dataset_commands_no_rows (v : PyVars) (d : Dataset) :
  rows d = [] ->
  dataset_commands cfg v d
  = ([ makedirs (join (wspace cfg) bufFolder_name);
       Describe (slumpset d);
       Buffer_analysis (slumpset d)
         (mkPath (join (wspace cfg) bufFolder_name)
            (outputVector_name (baseName d)));
       makedirs (join (wspace cfg) clipFolder_name);
       Describe (path_str (mkPath (join (wspace cfg) bufFolder_name)
                             (outputVector_name (baseName d))));
       makedirs (join (wspace cfg) fzsFolder_name) ]
     ++ merge_from "zsFolder_joined" (zsFolder_joined v)
          (mkPath (join (wspace cfg) fzsFolder_name) (fTablename (baseName d)))
          (makedirs (join (wspace cfg) frmseFolder_name)
           :: merge_from "rmseFolder_joined" (rmseFolder_joined v)
                (mkPath (join (wspace cfg) frmseFolder_name)
                   (frmseTablename (baseName d))) []))%list.
Proof.
  intros Hr. unfold dataset_commands, vars_after. rewrite Hr. reflexivity.
Qed.

(** The world after [makedirs]. *)
Definition made (folder : string) (w : World) : World :=
  if existsb (String.eqb folder) (dirs w) then w
  else with_dirs w (folder :: dirs w).

Lemma made_fields (folder : string) (w : World) :
  vectors (made folder w) = vectors w
  /\ rasters (made folder w) = rasters w
  /\ memory (made folder w) = memory w
  /\ tables (made folder w) = tables w.
Proof. unfold made. destruct (existsb _ _); repeat split. Qed.

(** X4. When the first feature class enumerated has no rows, the script
    buffers it, creates the folders of Steps 1, 2 and 9, and ends with the
    unbound name [zsFolder_joined] of Step 9: no raster and no table has
    been written, whatever feature classes follow. *)
Theorem first_dataset_without_rows_is_a_name_error (dem : Raster)
  (d : Dataset) (rest : list Dataset) (w : World) :
  rows d = [] ->
  exists w1,
    run_script cfg dem (d :: rest) w
    = (w1, Some (UnboundName "zsFolder_joined"))
    /\ tables w1 = tables w
    /\ rasters w1 = rasters w
    /\ memory w1 = memory w
    /\ sget (path_str (mkPath (join (wspace cfg) bufFolder_name)
                         (outputVector_name (baseName d)))) (vectors w1)
       = Some [].
Proof.
  intros Hr.
  set (out := mkPath (join (wspace cfg) bufFolder_name)
                (outputVector_name (baseName d))).
  set (w1 := made (join (wspace cfg) bufFolder_name) w).
  set (w2 := with_vectors w1 (sset (path_str out) [] (vectors w1))).
  set (w3 := made (join (wspace cfg) clipFolder_name) w2).
  set (w4 := made (join (wspace cfg) fzsFolder_name) w3).
  assert (Hb : exec (d :: rest) dem (Buffer_analysis (slumpset d) out) w1
               = inr w2).
  { cbn [exec]. unfold find_input. cbn [find].
    rewrite String.eqb_refl, Hr. reflexivity. }
  exists w4. split.
  - unfold run_script.
    rewrite script_commands_eq, loop_commands_fst.
    rewrite (dataset_commands_no_rows unbound d Hr).
    cbn [unbound zsFolder_joined merge_from]. fold out.
    rewrite <- !app_assoc.
    change ([NameError "zsFolder_joined"] ++ ?x)%list
      with (NameError "zsFolder_joined" :: x).
    apply run_stops; [|reflexivity].
    rewrite (run_step _ _ _ _ w w1) by reflexivity.
    rewrite (run_step _ _ _ _ w1 w1) by reflexivity.
    rewrite (run_step _ _ _ _ w1 w2) by exact Hb.
    rewrite (run_step _ _ _ _ w2 w3) by reflexivity.
    rewrite (run_step _ _ _ _ w3 w3) by reflexivity.
    rewrite (run_step _ _ _ _ w3 w4) by reflexivity.
    reflexivity.
  - destruct (made_fields (join (wspace cfg) fzsFolder_name) w3)
      as [V4 [R4 [M4 T4]]].
    destruct (made_fields (join (wspace cfg) clipFolder_name) w2)
      as [V3 [R3 [M3 T3]]].
    destruct (made_fields (join (wspace cfg) bufFolder_name) w)
      as [V1 [R1 [M1 T1]]].
    fold w4 in V4, R4, M4, T4. fold w3 in V3, R3, M3, T3.
    fold w1 in V1, R1, M1, T1.
    repeat split.
    + now rewrite T4, T3, <- T1.
    + now rewrite R4, R3, <- R1.
    + now rewrite M4, M3, <- M1.
    + rewrite V4, V3. apply sget_sset_same.
Qed.

End WithEngine.

Lemma first_dataset_without_rows_is_a_name_error_witness :
  exists w1,
    run_script cfg0 dem0 [vacant; north] empty_world
    = (w1, Some (UnboundName "zsFolder_joined"))
    /\ tables w1 = []
    /\ rasters w1 = []
    /\ memory w1 = []
    /\ sget (path_str (mkPath (join (wspace cfg0) bufFolder_name)
                         (outputVector_name "vacant"))) (vectors w1)
       = Some [].
Proof.
  exact (first_dataset_without_rows_is_a_name_error (E := Grid.engine)
           cfg0 dem0 vacant [north] empty_world eq_refl).
Defined.

End EdgeRuns.

(* ================================================================== *)
(** * The folders that Steps 9 and 10 merge *)
(* ================================================================== *)

Module FolderVariables.
Import Str Naming Script Geo Sql Run Observe StrFacts RunFacts PlanFacts
  EdgeRuns Sample.

Section WithEngine.
Context {E : Engine}.
Variable cfg : Config.

Lemma zs_after (v : PyVars) (d : Dataset) :
  zsFolder_joined (vars_after cfg v d)
  = match rows d with
    | [] => zsFolder_joined v
    | _ :: _ => Some (join (wspace cfg) (zsFolder_name (baseName d)))
    end.
Proof. unfold vars_after. now destruct (rows d). Qed.

Lemma rmse_after (v : PyVars) (d : Dataset) :
  rmseFolder_joined (vars_after cfg v d)
  = match rows d with
    | [] => rmseFolder_joined v
    | _ :: _ => Some (join (wspace cfg) (rmseFolder_name (baseName d)))
    end.
Proof. unfold vars_after. now destruct (rows d). Qed.

Lemma folders_after_loop (ds : list Dataset) (v : PyVars) :
  let v' := snd (loop_commands cfg v ds) in
  zsFolder_joined v'
  = match last_with_rows ds with
    | Some d => Some (join (wspace cfg) (zsFolder_name (baseName d)))
    | None => zsFolder_joined v
    end
  /\ rmseFolder_joined v'
     = match last_with_rows ds with
       | Some d => Some (join (wspace cfg) (rmseFolder_name (baseName d)))
       | None => rmseFolder_joined v
       end.
Proof.
  revert v. induction ds as [|d ds IH]; intros v; [split; reflexivity|].
  cbv zeta. rewrite loop_commands_snd.
  destruct (IH (vars_after cfg v d)) as [Hz Hr]. rewrite Hz, Hr.
  cbn [last_with_rows]. destruct (last_with_rows ds); [split; reflexivity|].
  rewrite zs_after, rmse_after. destruct (rows d); split; reflexivity.
Qed.

Lemma last_with_rows_snoc (pre : list Dataset) (d : Dataset) :
  last_with_rows (pre ++ [d])
  = match rows d with
    | [] => last_with_rows pre
    | _ :: _ => Some d
    end.
Proof.
  induction pre as [|p pre IH]; simpl.
  - now destruct (rows d).
  - rewrite IH. destruct (rows d); [reflexivity|reflexivity].
Qed.

Lemma merges_app (cs cs' : list command) :
  merges (cs ++ cs') = (merges cs ++ merges cs')%list.
Proof. apply flat_map_app. Qed.

Lemma merges_features (d : Dataset) (fs : list Feature) :
  merges (flat_map (feature_commands cfg d) fs) = [].
Proof.
  induction fs as [|f fs IH]; [reflexivity|].
  cbn [flat_map]. rewrite merges_app, IH. reflexivity.
Qed.

(** X5. The tables of a dataset are merged from the folders that the
    variables [zsFolder_joined] and [rmseFolder_joined] name when its
    cursor loop is over: its own folders when it has rows, else the
    folders of the last dataset before it that had rows; when there is no
    such dataset nothing is merged (the name is unbound). *)
Theorem merged_folders_are_those_of_the_last_dataset_with_rows
  (pre : list Dataset) (d : Dataset) :
  let w := wspace cfg in
  let v := snd (loop_commands cfg unbound pre) in
  merges (dataset_commands cfg v d)
  = match last_with_rows (pre ++ [d]) with
    | Some d' =>
        [ (join w (zsFolder_name (baseName d')),
           mkPath (join w fzsFolder_name) (fTablename (baseName d)));
          (join w (rmseFolder_name (baseName d')),
           mkPath (join w frmseFolder_name) (frmseTablename (baseName d))) ]
    | None => []
    end.
Proof.
  intros w v. unfold dataset_commands. cbv zeta.
  rewrite !merges_app, merges_features. cbn [merges flat_map app].
  rewrite zs_after, rmse_after, last_with_rows_snoc.
  destruct (folders_after_loop pre unbound) as [Hz Hr].
  fold v in Hz, Hr. cbn [unbound zsFolder_joined rmseFolder_joined] in Hz, Hr.
  destruct (rows d); [|reflexivity].
  rewrite Hz, Hr. destruct (last_with_rows pre); reflexivity.
Qed.

End WithEngine.
End FolderVariables.

(* ================================================================== *)
(** * What a run keeps in the workspace *)
(* ================================================================== *)

Module Workspace.
Import Str Naming Script Geo Sql Run Observe StrFacts RunFacts PlanFacts
  EdgeRuns Masking Sample.

Ltac exec_cases H :=
  repeat match type of H with
         | context [match ?x with _ => _ end] => destruct x eqn:?
         end;
  try discriminate H.

Section WithEngine.
Context {E : Engine}.
Variable inputs : list Dataset.
Variable dem : Raster.

Lemma made_dirs (folder : string) (w : World) :
  In folder (dirs (made folder w))
  /\ incl (dirs w) (dirs (made folder w))
  /\ (NoDup (dirs w) -> NoDup (dirs (made folder w)))
  /\ made folder (made folder w) = made folder w.
Proof.
  unfold made. destruct (existsb (String.eqb folder) (dirs w)) eqn:Hex.
  - rewrite Hex. repeat split; auto using incl_refl.
    apply existsb_exists in Hex. destruct Hex as [x [Hx Heq]].
    apply String.eqb_eq in Heq. now subst.
  - cbn [dirs with_dirs existsb]. rewrite String.eqb_refl. cbn.
    repeat split; [now left | now apply incl_tl, incl_refl |].
    intros Hnd. constructor; [|exact Hnd]. intros Hin.
    assert (existsb (String.eqb folder) (dirs w) = true)
      by (apply existsb_exists; exists folder; split;
          [exact Hin | apply String.eqb_refl]).
    congruence.
Qed.

Lemma exec_dirs (c : command) (w w' : World) :
  exec inputs dem c w = inr w' ->
  dirs w' = dirs w \/ exists folder, w' = made folder w.
Proof.
  intros H. destruct c; simpl in H;
    try (right; eexists; injection H as <-; reflexivity);
    left; exec_cases H; injection H as <-; reflexivity.
Qed.

(** X6. Folder creation is idempotent and never removes or repeats a
    folder: [makedirs] always succeeds and leaves its folder in the
    workspace, a second [makedirs] of the same folder changes nothing,
    and over any sequence of calls, however it ends, the folders present
    at the start are still present and no folder is listed twice. *)
Theorem folders_are_created_once (cs : list command) (w w' : World)
  (r : option Error) :
  NoDup (dirs w) ->
  run inputs dem cs w = (w', r) ->
  NoDup (dirs w') /\ incl (dirs w) (dirs w')
  /\ forall folder,
       exec inputs dem (makedirs folder) w' = inr (made folder w')
       /\ In folder (dirs (made folder w'))
       /\ exec inputs dem (makedirs folder) (made folder w')
          = inr (made folder w').
Proof.
  intros Hnd H. split; [|split].
  - revert w Hnd H. induction cs as [|c cs IH]; intros w Hnd H; simpl in H.
    + now injection H as <- _.
    + destruct (exec inputs dem c w) as [e|w1] eqn:Ec.
      * now injection H as <- _.
      * apply (IH w1); [|exact H].
        destruct (exec_dirs c w w1 Ec) as [->|[f ->]]; [exact Hnd|].
        now apply made_dirs.
  - revert w Hnd H. induction cs as [|c cs IH]; intros w Hnd H; simpl in H.
    + injection H as <- _. apply incl_refl.
    + destruct (exec inputs dem c w) as [e|w1] eqn:Ec.
      * injection H as <- _. apply incl_refl.
      * destruct (exec_dirs c w w1 Ec) as [Hd|[f ->]].
        -- rewrite <- Hd. apply (IH w1); [now rewrite Hd | exact H].
        -- apply incl_tran with (dirs (made f w)); [apply made_dirs|].
           apply (IH (made f w)); [now apply made_dirs | exact H].
  - intros folder. split; [reflexivity|].
    split; [apply (proj1 (made_dirs folder w'))|].
    pose proof (proj2 (proj2 (proj2 (made_dirs folder w')))) as Hm.
    rewrite <- Hm at 2. reflexivity.
Qed.

End WithEngine.

Lemma folders_are_created_once_witness :
  let r := run_script cfg0 dem0 [north] empty_world in
  NoDup (dirs (fst r))
  /\ incl (dirs (empty_world (E := Grid.engine))) (dirs (fst r))
  /\ forall folder,
       exec [north] dem0 (makedirs folder) (fst r) = inr (made folder (fst r))
       /\ In folder (dirs (made folder (fst r)))
       /\ exec [north] dem0 (makedirs folder) (made folder (fst r))
          = inr (made folder (fst r)).
Proof.
  intros r.
  apply (folders_are_created_once (E := Grid.engine) [north] dem0
           (script_commands cfg0 [north]) empty_world (fst r) (snd r)).
  - constructor.
  - unfold r, run_script. now destruct (run _ _ _ _).
Defined.

End Workspace.

(* ================================================================== *)
(** * The where clauses *)
(* ================================================================== *)

Module Clauses.
Import Str Naming Script Sql StrFacts Masking.

(** X7. The two where clauses the script builds for an identifier, the
    one with the quoted field name of Step 4 and the one of Steps 7 and 8
    (where the adjacent literals leave the field name bare and a blank
    follows the number), both compare UniqueID with that identifier, and
    different identifiers give different clauses. *)
Theorem where_clauses_select_the_identifier (z z' : Z) :
  qry z = "UniqueID = " ++ str z ++ " "
  /\ where_value (whereClause z) = Some z
  /\ where_value (qry z) = Some z
  /\ (whereClause z = whereClause z' <-> z = z')
  /\ (qry z = qry z' <-> z = z').
Proof.
  split; [reflexivity|]. split; [apply where_value_whereClause|].
  split; [apply where_value_qry|]. split; split; intros H;
    try (subst; reflexivity).
  - apply (f_equal where_value) in H.
    rewrite !where_value_whereClause in H. now injection H.
  - apply (f_equal where_value) in H.
    rewrite !where_value_qry in H. now injection H.
Qed.

End Clauses.

Module MergingExample.
Import Str Naming Script Geo Sql Run Sample MergingSound.

Lemma one_row_per_feature_on_fresh_folders_witness :
  let r := run_script cfg0 dem0 [north; south] empty_world in
  option_map (map zone)
    (Store.lookup path_eqb
       (mkPath (join (wspace cfg0) fzsFolder_name) (fsTablename "south"))
       (tables (fst r))) = Some [1; 2]
  /\ option_map (map zone)
       (Store.lookup path_eqb
          (mkPath (join (wspace cfg0) frmseFolder_name)
             (fmrmseTablename "south"))
          (tables (fst r))) = Some [1; 2].
Proof.
  intros r.
  apply (one_row_per_feature_on_fresh_folders (E := Grid.engine) cfg0 dem0
           [north; south] north empty_world (fst r)).
  - reflexivity.
  - discriminate.
  - repeat constructor; simpl; intuition discriminate.
  - repeat constructor; simpl; intuition discriminate.
  - intros d [<-|[<-|[]]]; (split; [discriminate|]);
      repeat constructor; simpl; intuition.
  - assert (Hs : snd r = None) by (vm_compute; reflexivity).
    change (r = (fst r, None)). rewrite <- Hs. apply surjective_pairing.
Defined.

End MergingExample.

(* ================================================================== *)
(** * What the processing of one feature computes *)
(* ================================================================== *)

Module FeatureRun.
Import Str Naming Script Geo Sql Run Observe StrFacts NamingFacts RunFacts
  Masking EdgeRuns NamingAcross.

Lemma remove_sset {V : Type} (k : string) (v : V) (l : list (string * V)) :
  Store.remove String.eqb k (sset k v l) = Store.remove String.eqb k l.
Proof.
  unfold sset. induction l as [|[k' v'] l IH]; simpl.
  - now rewrite String.eqb_refl.
  - destruct (String.eqb k k') eqn:Ek; simpl.
    + now rewrite String.eqb_refl.
    + now rewrite Ek, IH.
Qed.

Lemma raster_keys_differ (w b : string) (i : Z) (st st' : Stage) :
  st <> PointsPost -> st' <> PointsPost -> st <> st' ->
  String.eqb (path_str (artifact w b i st)) (path_str (artifact w b i st'))
  = false.
Proof.
  intros H1 H2 Hne. apply String.eqb_neq. intros H.
  apply (stages_never_collide w st st' b b i i Hne).
  rewrite !artifact_path_used.
  destruct st, st'; try congruence.
Qed.

Section WithEngine.
Context {E : Engine}.
Variable cfg : Config.
Variable inputs : list Dataset.
Variable dem : Raster.
Variables d d' : Dataset.
Variable f : Feature.
Hypothesis Hd : find_input inputs (slumpset d) = Some d'.

Let W := wspace cfg.
Let b := baseName d.
Let i := UniqueID f.
Let P := postpointsDEMoutput b i.
Let clipO := artifact W b i ClippedDEM.
Let tinO := artifact W b i PredisTIN.
Let predisO := artifact W b i PredisDEM.
Let dodO := artifact W b i DOD.
Let dodsqO := artifact W b i DODsq.
Let zsO := artifact W b i IndZonalStats.
Let rmseO := artifact W b i IndRMSEStats.

(** The rows of the feature class that carry the identifier of [f]. *)
Definition zone_rows : list Feature :=
  filter (fun f' => UniqueID f' =? UniqueID f) (rows d').

Definition on_zone (c : Cell) : bool :=
  existsb (intersects (cx c) (cy c)) (map shape zone_rows).

Definition clipped : Raster := clip dem (extent_of (buffer (shape f))).
Definition donors : list Cell := filter (fun c => negb (on_zone c)) clipped.
Definition predisturbance : Raster := tin_raster donors "CELLSIZE 1.0".
Definition dod : Raster := raster_minus clipped predisturbance.

Lemma extract_run (w : World) :
  exists w1,
    run inputs dem (extract_commands cfg d f) w = (w1, None)
    /\ rasters w1 = sset (path_str clipO) clipped (rasters w)
    /\ memory w1 = sset P clipped (memory w)
    /\ tins w1 = tins w /\ tables w1 = tables w.
Proof.
  eexists. split.
  - unfold extract_commands. fold W b i clipO P.
    rewrite (run_step _ _ _ _ w w) by reflexivity.
    rewrite (run_step _ _ _ _ w
               (with_rasters w (sset (path_str clipO) clipped (rasters w))))
      by reflexivity.
    rewrite (run_step _ _ _ _ _
               (with_memory
                  (with_rasters w (sset (path_str clipO) clipped (rasters w)))
                  (sset P clipped (memory w)))).
    + reflexivity.
    + cbn [exec rasters with_rasters]. now rewrite sget_sset_same.
  - repeat split.
Qed.

Lemma mask_run (w : World) (pts : list Cell) :
  sget P (memory w) = Some pts ->
  exists w2,
    run inputs dem (mask_commands d f) w = (w2, None)
    /\ memory w2 = sset P (filter (fun c => negb (on_zone c)) pts) (memory w)
    /\ rasters w2 = rasters w /\ tins w2 = tins w /\ tables w2 = tables w.
Proof.
  intros Hpts.
  set (area := fun f' : Feature => UniqueID f' =? UniqueID f).
  set (L1 := sset tempPoints (PointsLayer P None) (layers w)).
  set (L2 := sset tempArea (AreaLayer (slumpset d) None) L1).
  set (L3 := sset tempArea (AreaLayer (slumpset d) (Some area)) L2).
  set (L4 := sset tempPoints (PointsLayer P (Some on_zone)) L3).
  assert (Hpa : String.eqb tempPoints tempArea = false) by reflexivity.
  assert (E1 : exec inputs dem (MakeFeatureLayer_management (MemoryFC P)
                                  tempPoints) w = inr (with_layers w L1)).
  { simpl. now rewrite Hpts. }
  assert (E2 : exec inputs dem (MakeFeatureLayer_management
                                  (InputFC (slumpset d)) tempArea)
                 (with_layers w L1) = inr (with_layers w L2)).
  { simpl. now rewrite Hd. }
  assert (E3 : exec inputs dem (SelectLayerByAttribute_management tempArea
                                  (whereClause (UniqueID f)))
                 (with_layers w L2) = inr (with_layers w L3)).
  { cbn [exec layers with_layers]. unfold L2 at 1.
    now rewrite sget_sset_same, where_value_whereClause. }
  assert (E4 : exec inputs dem (SelectLayerByLocation_management tempPoints
                                  tempArea)
                 (with_layers w L3) = inr (with_layers w L4)).
  { cbn [exec layers with_layers]. unfold L3 at 1 2, L2 at 1.
    rewrite !(sget_sset_other _ _ _ _ Hpa). unfold L1 at 1.
    rewrite !sget_sset_same. now rewrite Hd. }
  assert (E5 : exec inputs dem (DeleteFeatures_management tempPoints)
                 (with_layers w L4)
               = inr (with_layers
                        (with_memory (with_layers w L4)
                           (sset P (filter (fun c => negb (on_zone c)) pts)
                              (memory w)))
                        (sset tempPoints (PointsLayer P None) L4))).
  { cbn [exec layers memory with_layers]. unfold L4 at 1.
    rewrite sget_sset_same. now rewrite Hpts. }
  eexists. split.
  - unfold mask_commands. fold b i P.
    rewrite (run_step _ _ _ _ _ _ E1), (run_step _ _ _ _ _ _ E2),
      (run_step _ _ _ _ _ _ E3), (run_step _ _ _ _ _ _ E4),
      (run_step _ _ _ _ _ _ E5).
    reflexivity.
  - repeat split.
Qed.

Lemma reconstruct_run (w : World) (pts : list Cell) :
  sget P (memory w) = Some pts ->
  triangulable pts = true ->
  exists w3,
    run inputs dem (reconstruct_commands cfg d f) w = (w3, None)
    /\ rasters w3
       = sset (path_str predisO) (tin_raster pts "CELLSIZE 1.0") (rasters w)
    /\ tins w3 = sset (path_str tinO) pts (tins w)
    /\ memory w3 = Store.remove String.eqb P (memory w)
    /\ tables w3 = tables w.
Proof.
  intros Hpts Ht.
  set (w1 := made (join W predisFolder_name) w).
  destruct (made_fields (join W predisFolder_name) w) as [_ [R1 [M1 T1]]].
  fold w1 in R1, M1, T1.
  set (w2 := with_tins w1 (sset (path_str tinO) pts (tins w1))).
  set (w3 := with_rasters w2
               (sset (path_str predisO) (tin_raster pts "CELLSIZE 1.0")
                  (rasters w2))).
  assert (E3 : exec inputs dem
                 (CreateTin_3d tinO P featuresTIN_spec) w1 = inr w2).
  { cbn [exec]. now rewrite M1, Hpts, Ht. }
  assert (E4 : exec inputs dem
                 (TinRaster_3d tinO predisO "CELLSIZE 1.0") w2 = inr w3).
  { cbn [exec]. unfold w2 at 1. cbn [tins with_tins].
    now rewrite sget_sset_same. }
  eexists. split.
  - unfold reconstruct_commands. fold W b i clipO tinO predisO P.
    rewrite (run_step _ _ _ _ w w1) by reflexivity.
    rewrite (run_step _ _ _ _ w1 w1) by reflexivity.
    rewrite (run_step _ _ _ _ _ _ E3), (run_step _ _ _ _ _ _ E4).
    reflexivity.
  - cbn [rasters tins memory tables with_memory with_rasters with_tins].
    unfold w3, w2. cbn [rasters tins memory tables with_rasters with_tins].
    rewrite R1, M1, T1. repeat split.
    destruct (made_fields (join W predisFolder_name) w) as [_ _].
    unfold w1, made. now destruct (existsb _ _).
Qed.

Lemma reconstruct_fail (w : World) (pts : list Cell) :
  sget P (memory w) = Some pts ->
  triangulable pts = false ->
  exists w1,
    run inputs dem (reconstruct_commands cfg d f) w
    = (w1, Some (ExecuteError "CreateTin_3d"))
    /\ rasters w1 = rasters w /\ tables w1 = tables w.
Proof.
  intros Hpts Ht.
  set (w1 := made (join W predisFolder_name) w).
  destruct (made_fields (join W predisFolder_name) w) as [_ [R1 [M1 T1]]].
  fold w1 in R1, M1, T1.
  exists w1. split; [|now split].
  unfold reconstruct_commands. fold W b i clipO tinO predisO P.
  rewrite (run_step _ _ _ _ w w1) by reflexivity.
  rewrite (run_step _ _ _ _ w1 w1) by reflexivity.
  cbn [run exec]. now rewrite M1, Hpts, Ht.
Qed.

Lemma dod_run (w : World) (a r : Raster) :
  sget (path_str clipO) (rasters w) = Some a ->
  sget (path_str predisO) (rasters w) = Some r ->
  exists w4,
    run inputs dem (dod_commands cfg d f) w = (w4, None)
    /\ rasters w4 = sset (path_str dodO) (raster_minus a r) (rasters w)
    /\ tins w4 = tins w /\ memory w4 = memory w /\ tables w4 = tables w.
Proof.
  intros Ha Hr.
  set (w1 := made (join W dodFolder_name) w).
  destruct (made_fields (join W dodFolder_name) w) as [_ [R1 [M1 T1]]].
  fold w1 in R1, M1, T1.
  set (w2 := with_rasters w1
               (sset (path_str dodO) (raster_minus a r) (rasters w))).
  assert (E2 : exec inputs dem (Minus clipO predisO dodO) w1 = inr w2).
  { cbn [exec]. now rewrite R1, Ha, Hr. }
  assert (E3 : exec inputs dem (CalculateStatistics_management dodO) w2
               = inr w2).
  { cbn [exec]. unfold w2 at 1. cbn [rasters with_rasters].
    now rewrite sget_sset_same. }
  exists w2. split.
  - unfold dod_commands. fold W b i clipO predisO dodO.
    rewrite (run_step _ _ _ _ w w1) by reflexivity.
    rewrite (run_step _ _ _ _ _ _ E2), (run_step _ _ _ _ _ _ E3).
    reflexivity.
  - unfold w2. cbn [rasters tins memory tables with_rasters].
    rewrite M1, T1. repeat split.
    unfold w1, made. now destruct (existsb _ _).
Qed.

Lemma zonal_run (w : World) (raster out : Path) (stat : string)
  (ra : Raster) :
  sget (path_str raster) (rasters w) = Some ra ->
  exists w5,
    run inputs dem (zonal_commands d f raster out stat) w = (w5, None)
    /\ tables w5
       = Store.set path_eqb out (zonal_table zone_rows ra) (tables w)
    /\ rasters w5 = rasters w /\ tins w5 = tins w /\ memory w5 = memory w.
Proof.
  intros Hra.
  set (area := fun f' : Feature => UniqueID f' =? UniqueID f).
  set (L1 := sset zoneLayer (AreaLayer (slumpset d) None) (layers w)).
  set (L2 := sset zoneLayer (AreaLayer (slumpset d) (Some area)) L1).
  assert (E1 : exec inputs dem (MakeFeatureLayer_management
                                  (InputFC (slumpset d)) zoneLayer) w
               = inr (with_layers w L1)).
  { simpl. now rewrite Hd. }
  assert (E2 : exec inputs dem (SelectLayerByAttribute_management zoneLayer
                                  (qry (UniqueID f)))
                 (with_layers w L1) = inr (with_layers w L2)).
  { cbn [exec layers with_layers]. unfold L1 at 1.
    now rewrite sget_sset_same, where_value_qry. }
  assert (E3 : exec inputs dem (ZonalStatisticsAsTable_sa zoneLayer "UniqueID"
                                  raster out stat)
                 (with_layers w L2)
               = inr (with_tables (with_layers w L2)
                        (Store.set path_eqb out (zonal_table zone_rows ra)
                           (tables w)))).
  { cbn [exec layers rasters tables with_layers]. unfold L2 at 1.
    now rewrite sget_sset_same, Hra, Hd. }
  eexists. split.
  - unfold zonal_commands.
    rewrite (run_step _ _ _ _ _ _ E1), (run_step _ _ _ _ _ _ E2),
      (run_step _ _ _ _ _ _ E3).
    reflexivity.
  - repeat split.
Qed.

Lemma zs_run (w : World) (ra : Raster) :
  sget (path_str dodO) (rasters w) = Some ra ->
  exists w5,
    run inputs dem (zs_commands cfg d f) w = (w5, None)
    /\ tables w5
       = Store.set path_eqb zsO (zonal_table zone_rows ra) (tables w)
    /\ rasters w5 = rasters w /\ tins w5 = tins w /\ memory w5 = memory w.
Proof.
  intros Hra.
  set (w1 := made (join W (zsFolder_name b)) w).
  destruct (made_fields (join W (zsFolder_name b)) w) as [_ [R1 [M1 T1]]].
  fold w1 in R1, M1, T1.
  assert (Ht : tins w1 = tins w)
    by (unfold w1, made; now destruct (existsb _ _)).
  rewrite <- R1 in Hra.
  destruct (zonal_run w1 dodO zsO "ALL" ra Hra) as [w5 [H5 [T5 [R5 [N5 M5]]]]].
  exists w5. split.
  - unfold zs_commands. fold W b i dodO zsO.
    rewrite (run_step _ _ _ _ w w1) by reflexivity. exact H5.
  - rewrite T5, R5, N5, M5, T1, R1, M1, Ht. repeat split.
Qed.

Lemma rmse_run (w : World) (ra : Raster) :
  sget (path_str dodO) (rasters w) = Some ra ->
  exists w6,
    run inputs dem (rmse_commands cfg d f) w = (w6, None)
    /\ tables w6
       = Store.set path_eqb rmseO (zonal_table zone_rows (raster_square ra))
           (tables w)
    /\ rasters w6 = sset (path_str dodsqO) (raster_square ra) (rasters w)
    /\ tins w6 = tins w /\ memory w6 = memory w.
Proof.
  intros Hra.
  set (w1 := made (join W (rmseFolder_name b)) w).
  destruct (made_fields (join W (rmseFolder_name b)) w) as [_ [R1 [M1 T1]]].
  fold w1 in R1, M1, T1.
  assert (Ht : tins w1 = tins w)
    by (unfold w1, made; now destruct (existsb _ _)).
  set (w2 := with_rasters w1
               (sset (path_str dodsqO) (raster_square ra) (rasters w))).
  assert (E2 : exec inputs dem (Square dodO dodsqO) w1 = inr w2).
  { cbn [exec]. now rewrite R1, Hra. }
  assert (E3 : exec inputs dem (CalculateStatistics_management dodsqO) w2
               = inr w2).
  { cbn [exec]. unfold w2 at 1. cbn [rasters with_rasters].
    now rewrite sget_sset_same. }
  assert (Hsq : sget (path_str dodsqO) (rasters w2)
                = Some (raster_square ra)).
  { unfold w2. cbn [rasters with_rasters]. apply sget_sset_same. }
  destruct (zonal_run w2 dodsqO rmseO "MEAN" _ Hsq)
    as [w6 [H6 [T6 [R6 [N6 M6]]]]].
  exists w6. split.
  - unfold rmse_commands. fold W b i dodO dodsqO rmseO.
    rewrite run_app.
    rewrite (run_step _ _ _ _ w w1) by reflexivity.
    rewrite (run_step _ _ _ _ _ _ E2), (run_step _ _ _ _ _ _ E3).
    cbn [run]. exact H6.
  - rewrite T6, R6, N6, M6. unfold w2.
    cbn [rasters tins memory tables with_rasters].
    rewrite T1, M1, Ht. repeat split.
Qed.

(** The processing of a feature whose donor points can be triangulated
    runs through, and what it leaves in the workspace. *)
Lemma feature_run_ok (w : World) :
  triangulable donors = true ->
  exists w',
    run inputs dem (feature_commands cfg d f) w = (w', None)
    /\ rasters w'
       = sset (path_str dodsqO) (raster_square dod)
           (sset (path_str dodO) dod
              (sset (path_str predisO) predisturbance
                 (sset (path_str clipO) clipped (rasters w))))
    /\ tins w' = sset (path_str tinO) donors (tins w)
    /\ memory w' = Store.remove String.eqb P (memory w)
    /\ tables w'
       = Store.set path_eqb rmseO (zonal_table zone_rows (raster_square dod))
           (Store.set path_eqb zsO (zonal_table zone_rows dod) (tables w)).
Proof.
  intros Ht. unfold feature_commands.
  destruct (extract_run w) as [w1 [H1 [R1 [M1 [N1 T1]]]]].
  assert (P1 : sget P (memory w1) = Some clipped)
    by (rewrite M1; apply sget_sset_same).
  destruct (mask_run w1 clipped P1) as [w2 [H2 [M2 [R2 [N2 T2]]]]].
  fold donors in M2.
  assert (P2 : sget P (memory w2) = Some donors)
    by (rewrite M2; apply sget_sset_same).
  destruct (reconstruct_run w2 donors P2 Ht) as [w3 [H3 [R3 [N3 [M3 T3]]]]].
  fold predisturbance in R3.
  assert (C3 : sget (path_str clipO) (rasters w3) = Some clipped).
  { rewrite R3, R2, R1, sget_sset_other; [apply sget_sset_same|].
    apply raster_keys_differ; discriminate. }
  assert (D3 : sget (path_str predisO) (rasters w3) = Some predisturbance)
    by (rewrite R3; apply sget_sset_same).
  destruct (dod_run w3 _ _ C3 D3) as [w4 [H4 [R4 [N4 [M4 T4]]]]].
  fold dod in R4.
  assert (D4 : sget (path_str dodO) (rasters w4) = Some dod)
    by (rewrite R4; apply sget_sset_same).
  destruct (zs_run w4 dod D4) as [w5 [H5 [T5 [R5 [N5 M5]]]]].
  rewrite <- R5 in D4.
  destruct (rmse_run w5 dod D4) as [w6 [H6 [T6 [R6 [N6 M6]]]]].
  exists w6. split.
  - rewrite run_app, H1. cbv beta iota. rewrite run_app, H2. cbv beta iota.
    rewrite run_app, H3. cbv beta iota. rewrite run_app, H4. cbv beta iota.
    rewrite run_app, H5. cbv beta iota. exact H6.
  - rewrite R6, R5, R4, R3, R2, R1, N6, N5, N4, N3, N2, N1,
      M6, M5, M4, M3, M2, M1, T6, T5, T4, T3, T2, T1, !remove_sset.
    repeat split.
Qed.

(** The processing of a feature whose donor points cannot be
    triangulated stops at [CreateTin_3d]. *)
Lemma feature_run_fail (w : World) :
  triangulable donors = false ->
  exists w1,
    run inputs dem (feature_commands cfg d f) w
    = (w1, Some (ExecuteError "CreateTin_3d"))
    /\ tables w1 = tables w.
Proof.
  intros Ht. unfold feature_commands.
  destruct (extract_run w) as [w1 [H1 [R1 [M1 [N1 T1]]]]].
  assert (P1 : sget P (memory w1) = Some clipped)
    by (rewrite M1; apply sget_sset_same).
  destruct (mask_run w1 clipped P1) as [w2 [H2 [M2 [R2 [N2 T2]]]]].
  fold donors in M2.
  assert (P2 : sget P (memory w2) = Some donors)
    by (rewrite M2; apply sget_sset_same).
  destruct (reconstruct_fail w2 donors P2 Ht) as [w3 [H3 [R3 T3]]].
  exists w3. split.
  - rewrite run_app, H1. cbv beta iota. rewrite run_app, H2. cbv beta iota.
    now rewrite run_app, H3.
  - now rewrite T3, T2, T1.
Qed.

End WithEngine.
End FeatureRun.

Module FeatureOutputs.
Import Str Naming Script Geo Sql Run Observe StrFacts NamingFacts RunFacts
  Masking EdgeRuns NamingAcross SkeletonFacts MergeCount FeatureRun Sample.

Section WithEngine.
Context {E : Engine}.
Variable cfg : Config.
Variable inputs : list Dataset.
Variable dem : Raster.

(** X8. What the processing of one feature computes.  For a row [f] of a
    feature class [d] of the workspace: the DEM is clipped to the extent
    of the buffered polygon; the donor points are the cells of the clip
    that do not intersect the unbuffered polygons of the rows carrying the
    identifier of [f]; when they can be triangulated, the calls of the
    feature run through and leave the clip, the TIN over the donors, its
    rasterisation at [CELLSIZE 1.0], the difference (clip minus
    rasterisation), its square, and the zonal tables of the difference and
    of the square over those rows, each under its own path; the point
    cloud is gone. *)
Theorem feature_outputs (d : Dataset) (f : Feature) (w : World) :
  find_input inputs (slumpset d) = Some d ->
  triangulable (donors dem d f) = true ->
  let W := wspace cfg in
  let b := baseName d in
  let i := UniqueID f in
  let original := clip dem (extent_of (buffer (shape f))) in
  let zone := filter (fun f' => UniqueID f' =? i) (rows d) in
  let left :=
    filter (fun c => negb (existsb (intersects (cx c) (cy c))
                             (map shape zone))) original in
  let surface := tin_raster left "CELLSIZE 1.0" in
  let difference := raster_minus original surface in
  exists w',
    run inputs dem (feature_commands cfg d f) w = (w', None)
    /\ sget (path_str (artifact W b i ClippedDEM)) (rasters w')
       = Some original
    /\ sget (path_str (artifact W b i PredisTIN)) (tins w') = Some left
    /\ sget (path_str (artifact W b i PredisDEM)) (rasters w')
       = Some surface
    /\ sget (path_str (artifact W b i DOD)) (rasters w') = Some difference
    /\ sget (path_str (artifact W b i DODsq)) (rasters w')
       = Some (raster_square difference)
    /\ Store.lookup path_eqb (artifact W b i IndZonalStats) (tables w')
       = Some (zonal_table zone difference)
    /\ Store.lookup path_eqb (artifact W b i IndRMSEStats) (tables w')
       = Some (zonal_table zone (raster_square difference))
    /\ sget (postpointsDEMoutput b i) (memory w') = None.
Proof.
  intros Hd Ht W b i original zone left surface difference.
  destruct (feature_run_ok cfg inputs dem d d f Hd w Ht)
    as [w' [Hrun [R [N [M T]]]]].
  exists w'. split; [exact Hrun|].
  rewrite R, N, M, T.
  assert (K : forall st st', st <> PointsPost -> st' <> PointsPost ->
              st <> st' ->
              String.eqb (path_str (artifact W b i st))
                (path_str (artifact W b i st')) = false)
    by (intros; now apply raster_keys_differ).
  repeat split.
  - rewrite !sget_sset_other by (apply K; discriminate).
    apply sget_sset_same.
  - apply sget_sset_same.
  - rewrite !sget_sset_other by (apply K; discriminate).
    apply sget_sset_same.
  - rewrite !sget_sset_other by (apply K; discriminate).
    apply sget_sset_same.
  - apply sget_sset_same.
  - rewrite lookup_set_other;
      [apply (lookup_set_same _ path_eqb_refl) | apply path_eqb_eq |].
    apply path_eqb_dir. apply (zs_rmse cfg d d).
  - apply (lookup_set_same _ path_eqb_refl).
  - apply lookup_remove_same.
Qed.

(** X9. For a row of a feature class of the workspace, the calls of the
    feature run through exactly when the donor points can be
    triangulated; otherwise they stop at [CreateTin_3d], after the clip
    and the mask, and no table has been written. *)
Theorem feature_runs_iff_triangulable (d : Dataset) (f : Feature)
  (w : World) :
  find_input inputs (slumpset d) = Some d ->
  (snd (run inputs dem (feature_commands cfg d f) w) = None
   <-> triangulable (donors dem d f) = true)
  /\ (triangulable (donors dem d f) = false ->
      snd (run inputs dem (feature_commands cfg d f) w)
      = Some (ExecuteError "CreateTin_3d")
      /\ tables (fst (run inputs dem (feature_commands cfg d f) w))
         = tables w).
Proof.
  intros Hd. destruct (triangulable (donors dem d f)) eqn:Ht.
  - destruct (feature_run_ok cfg inputs dem d d f Hd w Ht) as [w' [Hrun _]].
    rewrite Hrun. split; [split; reflexivity | discriminate].
  - destruct (feature_run_fail cfg inputs dem d d f Hd w Ht)
      as [w' [Hrun HT]].
    rewrite Hrun. split; [split; discriminate|]. intros _. now split.
Qed.

End WithEngine.

Lemma feature_outputs_witness :
  let f := feature 1 (Grid.rect 4 4 5 5) in
  exists w',
    run [north] dem0 (feature_commands cfg0 north f) empty_world = (w', None)
    /\ sget (postpointsDEMoutput "north" 1) (memory w') = None.
Proof.
  intros f.
  destruct (feature_outputs (E := Grid.engine) cfg0 [north] dem0 north f
              empty_world eq_refl) as [w' H].
  - vm_compute. reflexivity.
  - exists w'. split; [apply H|]. apply H.
Defined.

Lemma feature_runs_iff_triangulable_witness :
  let f := feature 1 (Grid.rect 100 100 101 101) in
  snd (run [stray] dem0 (feature_commands cfg0 stray f) empty_world)
  = Some (ExecuteError "CreateTin_3d").
Proof.
  intros f.
  apply (feature_runs_iff_triangulable (E := Grid.engine) cfg0 [stray] dem0
           stray f empty_world eq_refl).
  vm_compute. reflexivity.
Defined.

End FeatureOutputs.

(* ================================================================== *)
(** * What a run removes, and what it never removes *)
(* ================================================================== *)

Module Keeping.
Import Str Naming Script Geo Sql Run Observe StrFacts NamingFacts RunFacts
  PlanFacts Masking EdgeRuns SkeletonFacts FeatureRun Sample.

(** The feature classes deleted by some calls. *)
Definition deletions (cs : list command) : list string :=
  flat_map (fun c =>
    match c with
    | Delete_management p => [p]
    | _ => []
    end) cs.

Ltac exec_cases H :=
  repeat match type of H with
         | context [match ?x with _ => _ end] => destruct x eqn:?
         end;
  try discriminate H.

Lemma sget_remove_none {V : Type} (k k' : string) (l : list (string * V)) :
  sget k l = None -> sget k (Store.remove String.eqb k' l) = None.
Proof.
  unfold sget. induction l as [|[k2 v2] l IH]; simpl; [reflexivity|].
  destruct (String.eqb k k2) eqn:Ek; [discriminate|]. intros H.
  destruct (String.eqb k' k2); simpl; [now apply IH|].
  rewrite Ek. now apply IH.
Qed.

Lemma sget_sset_present {V : Type} (k k' : string) (v : V)
  (l : list (string * V)) :
  sget k l <> None -> sget k (sset k' v l) <> None.
Proof.
  intros H. destruct (String.eqb k k') eqn:Ek.
  - apply String.eqb_eq in Ek. subst. rewrite sget_sset_same. discriminate.
  - now rewrite sget_sset_other.
Qed.

Lemma lookup_set_present {V : Type} (k k' : Path) (v : V)
  (l : list (Path * V)) :
  Store.lookup path_eqb k l <> None ->
  Store.lookup path_eqb k (Store.set path_eqb k' v l) <> None.
Proof.
  intros H. destruct (path_eqb k k') eqn:Ek.
  - apply path_eqb_eq in Ek. subst.
    rewrite (lookup_set_same _ path_eqb_refl). discriminate.
  - rewrite lookup_set_other; [exact H | apply path_eqb_eq | exact Ek].
Qed.

Section WithEngine.
Context {E : Engine}.
Variable cfg : Config.
Variable inputs : list Dataset.
Variable dem : Raster.

(** Nothing new in the memory workspace, and nothing at all if it was
    empty. *)
Definition not_more (m m' : list (string * list Cell)) : Prop :=
  (m = [] -> m' = []) /\ (forall k, sget k m = None -> sget k m' = None).

Lemma not_more_refl m : not_more m m.
Proof. split; auto. Qed.

Lemma not_more_trans m1 m2 m3 :
  not_more m1 m2 -> not_more m2 m3 -> not_more m1 m3.
Proof. intros [A1 B1] [A2 B2]. split; auto. Qed.

Lemma not_more_remove (k : string) m :
  not_more m (Store.remove String.eqb k m).
Proof.
  split; [intros ->; reflexivity|]. intros k'. apply sget_remove_none.
Qed.

Lemma feature_without_class (d : Dataset) (f : Feature) (w : World) :
  find_input inputs (slumpset d) = None ->
  snd (run inputs dem (feature_commands cfg d f) w) <> None.
Proof.
  intros Hd. unfold feature_commands.
  destruct (extract_run cfg inputs dem d f w) as [w1 [H1 [R1 [M1 _]]]].
  rewrite run_app, H1. cbv beta iota. rewrite run_app.
  unfold mask_commands.
  rewrite (run_step _ _ _ _ w1
             (with_layers w1
                (sset tempPoints
                   (PointsLayer (postpointsDEMoutput (baseName d)
                                   (UniqueID f)) None) (layers w1)))).
  - cbn [run exec]. rewrite Hd. discriminate.
  - cbn [exec]. now rewrite M1, sget_sset_same.
Qed.

Lemma feature_memory (d : Dataset) (f : Feature) (w w' : World) :
  run inputs dem (feature_commands cfg d f) w = (w', None) ->
  memory w'
  = Store.remove String.eqb (postpointsDEMoutput (baseName d) (UniqueID f))
      (memory w).
Proof.
  intros H. destruct (find_input inputs (slumpset d)) as [d'|] eqn:Hd.
  - destruct (triangulable (donors dem d' f)) eqn:Ht.
    + destruct (feature_run_ok cfg inputs dem d d' f Hd w Ht)
        as [w2 [Hrun [_ [_ [M _]]]]].
      rewrite Hrun in H. now injection H as <-.
    + destruct (feature_run_fail cfg inputs dem d d' f Hd w Ht)
        as [w2 [Hrun _]].
      rewrite Hrun in H. discriminate.
  - exfalso. apply (feature_without_class d f w Hd). now rewrite H.
Qed.

Lemma not_more_frame (cs : list command) (w w' : World) :
  forallb (fun c => negb (writes_memory c)) cs = true ->
  run inputs dem cs w = (w', None) -> not_more (memory w) (memory w').
Proof.
  intros Hcs H. rewrite (run_memory_frame inputs dem cs w w' Hcs H).
  apply not_more_refl.
Qed.

Lemma not_more_features (d : Dataset) (fs : list Feature) (w w' : World) :
  run inputs dem (flat_map (feature_commands cfg d) fs) w = (w', None) ->
  not_more (memory w) (memory w').
Proof.
  revert w. induction fs as [|f fs IH]; intros w H.
  - simpl in H. injection H as <-. apply not_more_refl.
  - cbn [flat_map] in H. apply run_app_inv in H. destruct H as [w1 [H1 H]].
    apply not_more_trans with (memory w1); [|now apply IH].
    rewrite (feature_memory d f w w1 H1). apply not_more_remove.
Qed.

Lemma not_more_dataset (v : PyVars) (d : Dataset) (w w' : World) :
  run inputs dem (dataset_commands cfg v d) w = (w', None) ->
  not_more (memory w) (memory w').
Proof.
  unfold dataset_commands. cbv zeta. intros H.
  apply run_app_inv in H. destruct H as [w1 [H1 H]].
  apply run_app_inv in H. destruct H as [w2 [H2 H]].
  apply not_more_trans with (memory w1);
    [revert H1; apply not_more_frame; reflexivity|].
  apply not_more_trans with (memory w2);
    [now apply (not_more_features d _ _ _ H2)|].
  revert H. apply not_more_frame. unfold merge_from.
  destruct (zsFolder_joined _); [|reflexivity].
  destruct (rmseFolder_joined _); reflexivity.
Qed.

Lemma not_more_loop (ds : list Dataset) (v : PyVars) (w w' : World) :
  run inputs dem (fst (loop_commands cfg v ds)) w = (w', None) ->
  not_more (memory w) (memory w').
Proof.
  revert v w. induction ds as [|d ds IH]; intros v w H.
  - simpl in H. injection H as <-. apply not_more_refl.
  - rewrite loop_commands_fst in H.
    apply run_app_inv in H. destruct H as [w1 [H1 H]].
    apply not_more_trans with (memory w1);
      [now apply (not_more_dataset v d) | now apply (IH _ _ H)].
Qed.

(** X10. A run of the script that reaches its end adds nothing to the
    memory workspace: every point cloud it created has been deleted
    again, so a name that was free before the run is free after it, and
    an empty memory workspace is empty again. *)
Theorem completed_run_leaves_no_point_cloud (ds : list Dataset)
  (w w' : World) :
  run inputs dem (script_commands cfg ds) w = (w', None) ->
  (memory w = [] -> memory w' = [])
  /\ (forall k, sget k (memory w) = None -> sget k (memory w') = None).
Proof.
  intros H. rewrite script_commands_eq in H.
  apply run_app_inv in H. destruct H as [w1 [H1 H]].
  apply not_more_trans with (memory w1); [now apply (not_more_loop ds unbound)|].
  revert H. apply not_more_frame. unfold final_commands.
  destruct (desc_baseName _); reflexivity.
Qed.

End WithEngine.

Lemma completed_run_leaves_no_point_cloud_witness :
  let r := run [north; south] dem0 (script_commands cfg0 [north; south])
             empty_world in
  memory (fst r) = [].
Proof.
  intros r.
  assert (Hs : snd r = None) by (vm_compute; reflexivity).
  assert (H : r = (fst r, None))
    by (rewrite <- Hs; apply surjective_pairing).
  exact (proj1 (completed_run_leaves_no_point_cloud (E := Grid.engine) cfg0
                  [north; south] dem0 [north; south] empty_world (fst r) H)
           eq_refl).
Defined.

Section Kept.
Context {E : Engine}.
Variable cfg : Config.

(** Every raster, TIN, table and buffered feature class of [w] is still
    in [w']. *)
Definition kept (w w' : World) : Prop :=
  (forall k, sget k (rasters w) <> None -> sget k (rasters w') <> None)
  /\ (forall k, sget k (tins w) <> None -> sget k (tins w') <> None)
  /\ (forall k, Store.lookup path_eqb k (tables w) <> None ->
                Store.lookup path_eqb k (tables w') <> None)
  /\ (forall k, sget k (vectors w) <> None -> sget k (vectors w') <> None).

Lemma kept_refl (w : World) : kept w w.
Proof. repeat split; auto. Qed.

Lemma kept_trans (w1 w2 w3 : World) : kept w1 w2 -> kept w2 w3 -> kept w1 w3.
Proof.
  intros [A1 [B1 [C1 D1]]] [A2 [B2 [C2 D2]]]. repeat split; auto.
Qed.

Lemma exec_kept (inputs : list Dataset) (dem : Raster) (c : command)
  (w w' : World) :
  exec inputs dem c w = inr w' -> kept w w'.
Proof.
  intros H. destruct c; simpl in H; exec_cases H; injection H as <-;
    repeat split; cbn; intros k Hk;
    try assumption; try (now apply sget_sset_present);
    try (now apply lookup_set_present).
Qed.

Lemma run_kept (inputs : list Dataset) (dem : Raster) (cs : list command)
  (w : World) :
  kept w (fst (run inputs dem cs w)).
Proof.
  revert w. induction cs as [|c cs IH]; intros w; simpl;
    [apply kept_refl|].
  destruct (exec inputs dem c w) as [e|w1] eqn:Ec; [apply kept_refl|].
  apply kept_trans with w1; [now apply exec_kept in Ec | apply IH].
Qed.

Lemma deletions_app (cs cs' : list command) :
  deletions (cs ++ cs') = (deletions cs ++ deletions cs')%list.
Proof. apply flat_map_app. Qed.

Lemma deletions_features (d : Dataset) (fs : list Feature) :
  deletions (flat_map (feature_commands cfg d) fs)
  = map (fun f => postpointsDEMoutput (baseName d) (UniqueID f)) fs.
Proof.
  induction fs as [|f fs IH]; [reflexivity|].
  cbn [flat_map]. rewrite deletions_app, IH. reflexivity.
Qed.

Lemma deletions_dataset (v : PyVars) (d : Dataset) :
  deletions (dataset_commands cfg v d)
  = map (fun f => postpointsDEMoutput (baseName d) (UniqueID f)) (rows d).
Proof.
  unfold dataset_commands. cbv zeta.
  rewrite !deletions_app, deletions_features. simpl.
  rewrite <- (app_nil_r (map _ (rows d))) at 2. f_equal.
  unfold merge_from.
  destruct (zsFolder_joined _); [|reflexivity].
  destruct (rmseFolder_joined _); reflexivity.
Qed.

Lemma deletions_loop (ds : list Dataset) (v : PyVars) :
  deletions (fst (loop_commands cfg v ds))
  = flat_map (fun d =>
      map (fun f => postpointsDEMoutput (baseName d) (UniqueID f)) (rows d))
      ds.
Proof.
  revert v. induction ds as [|d ds IH]; intros v; [reflexivity|].
  rewrite loop_commands_fst, deletions_app, deletions_dataset, IH.
  reflexivity.
Qed.

Lemma sget_remove_other {V : Type} (k k' : string) (l : list (string * V)) :
  String.eqb k' k = false ->
  sget k (Store.remove String.eqb k' l) = sget k l.
Proof.
  intros Hk. unfold sget. induction l as [|[k2 v2] l IH]; simpl;
    [reflexivity|].
  destruct (String.eqb k' k2) eqn:E2; simpl.
  - apply String.eqb_eq in E2. subst k2. rewrite IH.
    rewrite String.eqb_sym in Hk. now rewrite Hk.
  - now rewrite IH.
Qed.

(** A call that takes a feature class out of the memory workspace is the
    deletion of that feature class. *)
Lemma exec_removed (inputs : list Dataset) (dem : Raster) (c : command)
  (w w' : World) (k : string) :
  exec inputs dem c w = inr w' ->
  sget k (memory w) <> None -> sget k (memory w') = None ->
  c = Delete_management k.
Proof.
  intros H Hk Hn.
  destruct c; simpl in H; exec_cases H; injection H as <-;
    cbn [memory with_dirs with_vectors with_rasters with_memory with_layers
         with_tins with_tables] in Hn;
    try contradiction;
    try (now apply (sget_sset_present k) in Hn).
  destruct (String.eqb what k) eqn:Ew.
  - apply String.eqb_eq in Ew. now subst.
  - rewrite (sget_remove_other _ _ _ Ew) in Hn. contradiction.
Qed.

Lemma run_removed (inputs : list Dataset) (dem : Raster) (cs : list command)
  (w : World) (k : string) :
  sget k (memory w) <> None ->
  sget k (memory (fst (run inputs dem cs w))) = None ->
  In k (deletions cs).
Proof.
  revert w. induction cs as [|c cs IH]; intros w Hk Hn; simpl in Hn;
    [contradiction|].
  destruct (exec inputs dem c w) as [e|w1] eqn:Ec; [contradiction|].
  change (In k (deletions ([c] ++ cs))). rewrite deletions_app.
  apply in_or_app.
  destruct (sget k (memory w1)) eqn:Hw1.
  - right. apply (IH w1); [congruence | exact Hn].
  - left. rewrite (exec_removed _ _ _ _ _ _ Ec Hk Hw1). now left.
Qed.

(** X11. Whatever a run of the script takes out of the memory workspace
    is the point cloud of a row of one of the datasets, and no raster,
    TIN, table or buffered feature class that is in the workspace is
    removed by a run, however the run ends (files are only added or
    overwritten). *)
Theorem only_point_clouds_are_deleted (ds : list Dataset)
  (inputs : list Dataset) (dem : Raster) (w : World) :
  let w' := fst (run inputs dem (script_commands cfg ds) w) in
  (forall k, sget k (memory w) <> None -> sget k (memory w') = None ->
     exists d f, In d ds /\ In f (rows d)
                 /\ k = postpointsDEMoutput (baseName d) (UniqueID f))
  /\ kept w w'.
Proof.
  intros w'. split; [|apply run_kept].
  intros k Hk Hn. apply (run_removed _ _ _ _ _ Hk) in Hn.
  rewrite script_commands_eq, deletions_app, deletions_loop in Hn.
  apply in_app_or in Hn. destruct Hn as [Hn|Hn].
  - apply in_flat_map in Hn. destruct Hn as [d [Hd Hn]].
    apply in_map_iff in Hn. destruct Hn as [f [<- Hf]]. now exists d, f.
  - unfold final_commands in Hn. destruct (desc_baseName _); destruct Hn.
Qed.

End Kept.

Lemma only_point_clouds_are_deleted_witness :
  let f := feature 1 (Grid.rect 4 4 5 5) in
  let w := fst (run [north] dem0 (extract_commands cfg0 north f)
                  empty_world) in
  exists d f', In d [north] /\ In f' (rows d)
               /\ postpointsDEMoutput "north" 1
                  = postpointsDEMoutput (baseName d) (UniqueID f').
Proof.
  intros f w.
  apply (proj1 (only_point_clouds_are_deleted (E := Grid.engine) cfg0
                  [north] [north] dem0 w)
           (postpointsDEMoutput "north" 1)).
  - vm_compute. discriminate.
  - vm_compute. reflexivity.
Defined.

End Keeping.

(* ================================================================== *)
(** * Rows that repeat an identifier *)
(* ================================================================== *)

Module MergeDistinct.
Import Str Naming Script Geo Sql Run Observe StrFacts NamingFacts RunFacts
  Skeleton SkeletonFacts MergeSim MergeCount MergingSound Sample.

(** The identifiers of a list in the order of their first occurrence,
    after those already seen. *)
Fixpoint add_new (seen l : list Z) : list Z :=
  match l with
  | [] => seen
  | x :: l' =>
      if in_dec Z.eq_dec x seen then add_new seen l'
      else add_new (seen ++ [x]) l'
  end.

Definition firsts (l : list Z) : list Z := add_new [] l.

Section WithEngine.
Context {E : Engine}.
Variable cfg : Config.

Let W := wspace cfg.
Let zsF (d : Dataset) := join W (zsFolder_name (baseName d)).
Let rmseF (d : Dataset) := join W (rmseFolder_name (baseName d)).
Let fzsF := join W fzsFolder_name.
Let frmseF := join W frmseFolder_name.

(** The entry of an identifier in a per-dataset folder. *)
Definition entry (st : Stage) (d : Dataset) (i : Z) : Path * list Z :=
  (artifact W (baseName d) i st, [i]).

Lemma set_entry (st : Stage) (d : Dataset) (seen : list Z) (i : Z) :
  Store.set path_eqb (fst (entry st d i)) (snd (entry st d i))
    (map (entry st d) seen)
  = map (entry st d)
      (if in_dec Z.eq_dec i seen then seen else (seen ++ [i])%list).
Proof.
  destruct (in_dec Z.eq_dec i seen) as [Hin|Hn].
  - induction seen as [|j seen IH]; [contradiction|].
    cbn [map Store.set entry fst snd].
    destruct (Z.eq_dec j i) as [->|Hji].
    + now rewrite path_eqb_refl.
    + rewrite path_eqb_file.
      * f_equal. apply IH. destruct Hin; [congruence | assumption].
      * cbn [file artifact]. intros H. apply artifact_name_inj in H.
        destruct H. congruence.
  - rewrite set_absent.
    + rewrite map_app. reflexivity.
    + intros e He. apply in_map_iff in He. destruct He as [j [<- Hj]].
      apply path_eqb_file. cbn [file artifact entry fst]. intros H.
      apply artifact_name_inj in H. destruct H. congruence.
Qed.

Lemma listing_features_zs_any (d : Dataset) (fs : list Feature)
  (seen : list Z) (K : Skel) :
  listing (zsF d) K = map (entry IndZonalStats d) seen ->
  listing (zsF d) (fold_left (skel_feature cfg d) fs K)
  = map (entry IndZonalStats d) (add_new seen (map UniqueID fs)).
Proof.
  revert seen K. induction fs as [|f fs IH]; intros seen K HK;
    [exact HK|].
  cbn [fold_left map add_new].
  pose proof (listing_feature_zs cfg d f K) as Hf. cbv beta zeta in Hf.
  unfold zsF, W in HK, IH |- *. rewrite HK in Hf.
  change (fst (gz cfg d f)) with (fst (entry IndZonalStats d (UniqueID f)))
    in Hf.
  change (snd (gz cfg d f)) with (snd (entry IndZonalStats d (UniqueID f)))
    in Hf.
  rewrite set_entry in Hf.
  destruct (in_dec Z.eq_dec (UniqueID f) seen); now apply IH.
Qed.

Lemma listing_features_rmse_any (d : Dataset) (fs : list Feature)
  (seen : list Z) (K : Skel) :
  listing (rmseF d) K = map (entry IndRMSEStats d) seen ->
  listing (rmseF d) (fold_left (skel_feature cfg d) fs K)
  = map (entry IndRMSEStats d) (add_new seen (map UniqueID fs)).
Proof.
  revert seen K. induction fs as [|f fs IH]; intros seen K HK;
    [exact HK|].
  cbn [fold_left map add_new].
  pose proof (listing_feature_rmse cfg d f K) as Hf. cbv beta zeta in Hf.
  unfold rmseF, W in HK, IH |- *. rewrite HK in Hf.
  change (fst (gr cfg d f)) with (fst (entry IndRMSEStats d (UniqueID f)))
    in Hf.
  change (snd (gr cfg d f)) with (snd (entry IndRMSEStats d (UniqueID f)))
    in Hf.
  rewrite set_entry in Hf.
  destruct (in_dec Z.eq_dec (UniqueID f) seen); now apply IH.
Qed.

Lemma rows_of_entry_list (st : Stage) (d : Dataset) (l : list Z) :
  List.concat (map snd (map (entry st d) l)) = l.
Proof. induction l as [|x l IH]; simpl; [reflexivity | now rewrite IH]. Qed.

Lemma e_listing_merge (G F : string) (out : Path) (K : Skel) :
  listing G (skel_merge F out K)
  = if String.eqb (dir out) G
    then Store.set path_eqb out (List.concat (map snd (listing F K)))
           (listing G K)
    else listing G K.
Proof. unfold skel_merge. apply filter_set. Qed.

Lemma e_frmse_fzs : String.eqb frmseF fzsF = false.
Proof. exact (frmse_fzs cfg). Qed.
Lemma e_fzs_frmse : String.eqb fzsF frmseF = false.
Proof. exact (fzs_frmse cfg). Qed.
Lemma e_fzs_rmse (d : Dataset) : String.eqb fzsF (rmseF d) = false.
Proof. exact (fzs_rmse cfg d). Qed.
Lemma e_other (F : string) (d : Dataset) (fs : list Feature) (K : Skel) :
  String.eqb (zsF d) F = false -> String.eqb (rmseF d) F = false ->
  listing F (fold_left (skel_feature cfg d) fs K) = listing F K.
Proof. exact (listing_features_other cfg F d fs K). Qed.

Definition distinct_ids (d : Dataset) : list Z :=
  firsts (map UniqueID (rows d)).

Definition hz' (d : Dataset) : Path * list Z :=
  (mkPath fzsF (fTablename (baseName d)), distinct_ids d).
Definition hr' (d : Dataset) : Path * list Z :=
  (mkPath frmseF (frmseTablename (baseName d)), distinct_ids d).

Lemma dataset_listing_fzs_any (d : Dataset) (K : Skel) :
  listing (zsF d) K = [] ->
  listing fzsF (skel_dataset cfg K d)
  = Store.set path_eqb (fst (hz' d)) (snd (hz' d)) (listing fzsF K).
Proof.
  intros HK. unfold skel_dataset. fold W. fold (zsF d) (rmseF d).
  fold fzsF frmseF. rewrite !e_listing_merge. cbn [dir].
  rewrite e_frmse_fzs, String.eqb_refl.
  rewrite (listing_features_zs_any d (rows d) [] K HK).
  rewrite e_other by (exact (zs_fzs cfg d) || exact (rmse_fzs cfg d)).
  rewrite rows_of_entry_list. reflexivity.
Qed.

Lemma dataset_listing_frmse_any (d : Dataset) (K : Skel) :
  listing (rmseF d) K = [] ->
  listing frmseF (skel_dataset cfg K d)
  = Store.set path_eqb (fst (hr' d)) (snd (hr' d)) (listing frmseF K).
Proof.
  intros HK. unfold skel_dataset. fold W. fold (zsF d) (rmseF d).
  fold fzsF frmseF. rewrite !e_listing_merge. cbn [dir].
  rewrite e_fzs_frmse, e_fzs_rmse, String.eqb_refl.
  rewrite (listing_features_rmse_any d (rows d) [] K HK).
  rewrite e_other by (exact (zs_frmse cfg d) || exact (rmse_frmse cfg d)).
  rewrite rows_of_entry_list. reflexivity.
Qed.

Lemma loop_listing_any (ds pre : list Dataset) (K : Skel) :
  NoDup (map baseName (pre ++ ds)) ->
  (forall d, In d ds -> listing (zsF d) K = [] /\ listing (rmseF d) K = []) ->
  listing fzsF K = map hz' pre ->
  listing frmseF K = map hr' pre ->
  listing fzsF (fold_left (skel_dataset cfg) ds K) = map hz' (pre ++ ds)
  /\ listing frmseF (fold_left (skel_dataset cfg) ds K) = map hr' (pre ++ ds).
Proof.
  revert pre K. induction ds as [|d ds IH]; intros pre K Hb He Hz Hr.
  - now rewrite app_nil_r.
  - simpl.
    assert (Hother : forall d', In d' (pre ++ ds) ->
                                baseName d <> baseName d')
      by (intros d'; now apply other_base).
    replace (pre ++ d :: ds)%list with ((pre ++ [d]) ++ ds)%list
      in * by now rewrite <- app_assoc.
    destruct (He d (or_introl eq_refl)) as [Hez Her].
    apply IH.
    + exact Hb.
    + intros d' Hd'.
      pose proof (dataset_listing_zs cfg d d' K) as A.
      pose proof (dataset_listing_rmse cfg d d' K) as B.
      cbv beta zeta in A, B. unfold zsF, rmseF, W.
      rewrite A, B by (apply Hother, in_or_app; now right).
      apply He. now right.
    + rewrite dataset_listing_fzs_any, Hz by exact Hez.
      apply fresh_dataset_entry. intros d' Hd' Heq. simpl in Heq.
      unfold fTablename in Heq. apply append_inv_tail in Heq.
      revert Heq. apply Hother, in_or_app. now left.
    + rewrite dataset_listing_frmse_any, Hr by exact Her.
      apply fresh_dataset_entry. intros d' Hd' Heq. simpl in Heq.
      unfold frmseTablename in Heq. apply append_inv_tail in Heq.
      revert Heq. apply Hother, in_or_app. now left.
Qed.

Lemma rows_of_datasets_any (h : Dataset -> Path * list Z)
  (ds : list Dataset) :
  (forall d, snd (h d) = distinct_ids d) ->
  List.concat (map snd (map h ds)) = flat_map distinct_ids ds.
Proof.
  intros Hh. induction ds as [|d ds IH]; simpl; [reflexivity|].
  now rewrite Hh, IH.
Qed.

Lemma final_skeleton_any (ds : list Dataset) (b : string) :
  NoDup (map baseName ds) ->
  let K := skel_final cfg b (fold_left (skel_dataset cfg) ds []) in
  Store.lookup path_eqb (mkPath fzsF (fsTablename b)) K
  = Some (flat_map distinct_ids ds)
  /\ Store.lookup path_eqb (mkPath frmseF (fmrmseTablename b)) K
     = Some (flat_map distinct_ids ds).
Proof.
  intros Hb K.
  destruct (loop_listing_any ds [] [] Hb (fun _ _ => conj eq_refl eq_refl)
              eq_refl eq_refl) as [Hz Hr].
  simpl app in Hz, Hr. subst K. unfold skel_final. fold W. fold fzsF frmseF.
  split.
  - unfold skel_merge at 1.
    rewrite lookup_set_other;
      [| apply path_eqb_eq | apply path_eqb_dir, e_fzs_frmse].
    unfold skel_merge. rewrite (lookup_set_same _ path_eqb_refl).
    rewrite Hz, rows_of_datasets_any by reflexivity. reflexivity.
  - unfold skel_merge at 1.
    rewrite (lookup_set_same _ path_eqb_refl).
    rewrite e_listing_merge. cbn [dir]. rewrite e_fzs_frmse.
    rewrite Hr, rows_of_datasets_any by reflexivity. reflexivity.
Qed.

End WithEngine.

Section Theorems.
Context {E : Engine}.

(** X12. On a workspace without tables, over feature classes with
    distinct names that each have at least one row, a run that reaches
    its end leaves in each of the two batch-level tables one row for
    every distinct identifier of every dataset, in the order of first
    occurrence: rows of one dataset that repeat an identifier overwrite
    each other's per-feature tables and count once. *)
Theorem one_row_per_distinct_identifier (cfg : Config) (dem : Raster)
  (ds : list Dataset) (d0 : Dataset) (w w' : World) :
  tables w = [] ->
  ds <> [] ->
  NoDup (map slumpset ds) ->
  NoDup (map baseName ds) ->
  (forall d, In d ds -> rows d <> []) ->
  run_script cfg dem ds w = (w', None) ->
  let b := baseName (last ds d0) in
  let all := flat_map (fun d => firsts (map UniqueID (rows d))) ds in
  option_map (map zone)
    (Store.lookup path_eqb
       (mkPath (join (wspace cfg) fzsFolder_name) (fsTablename b))
       (tables w')) = Some all
  /\ option_map (map zone)
       (Store.lookup path_eqb
          (mkPath (join (wspace cfg) frmseFolder_name) (fmrmseTablename b))
          (tables w')) = Some all.
Proof.
  intros Hw Hne Hn Hb Hd H b all. unfold run_script in H.
  apply (script_sim cfg ds dem ds d0) in H; [|exact Hne|].
  - rewrite Hw in H. simpl skeleton in H.
    rewrite <- !skeleton_lookup, H.
    apply (final_skeleton_any cfg ds b Hb).
  - intros d Hin. split; [now apply find_input_self | now apply Hd].
Qed.

End Theorems.

Lemma one_row_per_distinct_identifier_witness :
  let r := run_script cfg0 dem0 [twins] empty_world in
  option_map (map zone)
    (Store.lookup path_eqb
       (mkPath (join (wspace cfg0) fzsFolder_name) (fsTablename "twins"))
       (tables (fst r))) = Some [1]
  /\ option_map (map zone)
       (Store.lookup path_eqb
          (mkPath (join (wspace cfg0) frmseFolder_name)
             (fmrmseTablename "twins"))
          (tables (fst r))) = Some [1].
Proof.
  intros r.
  apply (one_row_per_distinct_identifier (E := Grid.engine) cfg0 dem0
           [twins] twins empty_world (fst r)).
  - reflexivity.
  - discriminate.
  - repeat constructor; simpl; intuition.
  - repeat constructor; simpl; intuition.
  - intros d [<-|[]]. discriminate.
  - assert (Hs : snd r = None) by (vm_compute; reflexivity).
    change (r = (fst r, None)). rewrite <- Hs. apply surjective_pairing.
Defined.

End MergeDistinct.

(* ================================================================== *)
(** * Isolation of a feature from the layers of earlier features *)
(* ================================================================== *)

Module Isolation.
Import Str Naming Script Geo Sql Run Observe RunFacts FeatureRun Sample.

Section WithEngine.
Context {E : Engine}.

(** X13. The three layer names are reused by every feature, but a feature
    never reads a layer of an earlier one: for a row of a feature class of
    the workspace, two runs of the feature's calls that start from worlds
    with the same rasters, TINs, memory workspace and tables end in the
    same way and, when they run through, with the same rasters, TINs,
    memory workspace and tables, whatever layers the two worlds hold. *)
Theorem earlier_layers_do_not_matter (cfg : Config) (inputs : list Dataset)
  (dem : Raster) (d d' : Dataset) (f : Feature) (w1 w2 : World) :
  find_input inputs (slumpset d) = Some d' ->
  rasters w1 = rasters w2 -> tins w1 = tins w2 ->
  memory w1 = memory w2 -> tables w1 = tables w2 ->
  let r1 := run inputs dem (feature_commands cfg d f) w1 in
  let r2 := run inputs dem (feature_commands cfg d f) w2 in
  snd r1 = snd r2
  /\ (snd r1 = None ->
      rasters (fst r1) = rasters (fst r2) /\ tins (fst r1) = tins (fst r2)
      /\ memory (fst r1) = memory (fst r2)
      /\ tables (fst r1) = tables (fst r2)).
Proof.
  intros Hd HR HN HM HT r1 r2. subst r1 r2.
  destruct (triangulable (donors dem d' f)) eqn:Ht.
  - destruct (feature_run_ok cfg inputs dem d d' f Hd w1 Ht)
      as [a [Ha [R1 [N1 [M1 T1]]]]].
    destruct (feature_run_ok cfg inputs dem d d' f Hd w2 Ht)
      as [c [Hc [R2 [N2 [M2 T2]]]]].
    rewrite Ha, Hc. split; [reflexivity|]. intros _. cbn [fst].
    rewrite R1, R2, N1, N2, M1, M2, T1, T2, HR, HN, HM, HT.
    repeat split.
  - destruct (feature_run_fail cfg inputs dem d d' f Hd w1 Ht)
      as [a [Ha _]].
    destruct (feature_run_fail cfg inputs dem d d' f Hd w2 Ht)
      as [c [Hc _]].
    rewrite Ha, Hc. split; [reflexivity | discriminate].
Qed.

End WithEngine.

(** A world that only holds layers, as an earlier feature leaves them. *)
Definition stale_layers : World (E := Grid.engine) :=
  mkWorld [] [] [] []
    [ ("pointsLayer", PointsLayer "memory\Xsouth_SlumpID_2_points_post" None);
      ("areaLayer", AreaLayer "south.shp" (Some (fun _ => true)));
      ("zone", AreaLayer "south.shp" (Some (fun _ => true))) ]
    [] [].

Lemma earlier_layers_do_not_matter_witness :
  let f := feature 1 (Grid.rect 4 4 5 5) in
  let r1 := run [north; south] dem0 (feature_commands cfg0 north f)
              empty_world in
  let r2 := run [north; south] dem0 (feature_commands cfg0 north f)
              stale_layers in
  snd r1 = snd r2
  /\ (snd r1 = None ->
      rasters (fst r1) = rasters (fst r2) /\ tins (fst r1) = tins (fst r2)
      /\ memory (fst r1) = memory (fst r2)
      /\ tables (fst r1) = tables (fst r2)).
Proof.
  intros f.
  exact (earlier_layers_do_not_matter (E := Grid.engine) cfg0 [north; south]
           dem0 north north f empty_world stale_layers
           eq_refl eq_refl eq_refl eq_refl eq_refl).
Defined.

End Isolation.

(* ================================================================== *)
(** * The statistics of the squared difference *)
(* ================================================================== *)

Module Squares.
Import Geo.

Lemma sum_values_nonneg (l : list Cell) :
  Forall (fun c => (0 <= cval c)%Q) l -> (0 <= sum_values l)%Q.
Proof.
  induction 1 as [|c l Hc Hl IH]; simpl; [apply Qle_refl|]. lra.
Qed.

Lemma square_nonneg (r : Raster) :
  Forall (fun c => (0 <= cval c)%Q) (raster_square r).
Proof.
  unfold raster_square. apply Forall_forall. intros c Hc.
  apply in_map_iff in Hc. destruct Hc as [x [<- _]]. simpl.
  destruct (Qlt_le_dec (cval x) 0) as [Hn|Hp].
  - setoid_replace (cval x * cval x)%Q with ((- cval x) * (- cval x))%Q
      by ring.
    apply Qmult_le_0_compat; lra.
  - now apply Qmult_le_0_compat.
Qed.

Section WithEngine.
Context {E : Engine}.

(** X14. Every row of a zonal table of a squared raster, as Step 8
    computes for the RMSE, has a SUM and a MEAN that are not negative
    (a zone without cells has both 0). *)
Theorem squared_statistics_are_not_negative (zones : list Feature)
  (r : Raster) (row : Row) :
  In row (zonal_table zones (raster_square r)) ->
  (0 <= SUM row)%Q /\ (0 <= MEAN row)%Q.
Proof.
  unfold zonal_table. rewrite in_map_iff. intros [z [<- _]].
  set (polys := map shape (filter (fun f => UniqueID f =? z) zones)).
  assert (Hs : (0 <= sum_values (zone_cells polys (raster_square r)))%Q).
  { apply sum_values_nonneg. unfold zone_cells.
    apply Forall_forall. intros c Hc. apply filter_In in Hc.
    destruct Hc as [Hc _].
    pose proof (square_nonneg r) as Hall. rewrite Forall_forall in Hall.
    now apply Hall. }
  split; [exact Hs|]. cbn [MEAN zonal_row]. unfold Qdiv.
  apply Qmult_le_0_compat; [exact Hs|]. apply Qinv_le_0_compat.
  change 0%Q with (inject_Z 0). rewrite <- Zle_Qle. lia.
Qed.

End WithEngine.

Lemma squared_statistics_are_not_negative_witness :
  let r := [mkCell 4 4 (-2); mkCell 9 9 3]%Q in
  let row := zonal_row (E := Grid.engine) 1 [Grid.rect 4 4 5 5]
               (raster_square r) in
  (0 <= SUM row)%Q /\ (0 <= MEAN row)%Q.
Proof.
  intros r row.
  apply (squared_statistics_are_not_negative (E := Grid.engine)
           [Sample.feature 1 (Grid.rect 4 4 5 5)] r row).
  left. reflexivity.
Defined.

End Squares.

(* ================================================================== *)
(** * The sum that a run reports for a feature *)
(* ================================================================== *)

Module DifferenceRun.
Import Str Naming Script Geo Sql Run Observe StrFacts RunFacts SkeletonFacts
  MergeCount FeatureRun Difference Sample.


Section WithEngine.
Context {E : Engine}.
Variable cfg : Config.
Variable inputs : list Dataset.
Variable dem : Raster.




End WithEngine.


End DifferenceRun.

(* ================================================================== *)
(** * What the mask stage deletes *)
(* ================================================================== *)

Module MaskRun.
Import Str Naming Script Geo Sql Run Observe StrFacts RunFacts Masking
  FeatureRun Sample.

Section WithEngine.
Context {E : Engine}.
Variable inputs : list Dataset.
Variable dem : Raster.

(** C4, as the script has it. The mask stage of a feature runs through
    and leaves of the feature's point cloud exactly the points that do
    not intersect the unbuffered polygon of any row of the feature class
    that carries the feature's identifier: no point that remains
    intersects the polygon of such a row, the feature's own polygon among
    them, and every point that was deleted intersects the polygon of such
    a row.  When no other row carries the identifier, these are the
    points that do not intersect the polygon of that feature. *)
Theorem mask_deletes_the_footprint_of_the_identifier (d : Dataset)
  (f : Feature) (w : World) (pts : list Cell) :
  find_input inputs (slumpset d) = Some d ->
  sget (postpointsDEMoutput (baseName d) (UniqueID f)) (memory w) = Some pts ->
  exists w' left,
    run inputs dem (mask_commands d f) w = (w', None)
    /\ sget (postpointsDEMoutput (baseName d) (UniqueID f)) (memory w')
       = Some left
    /\ left
       = filter (fun c =>
           negb (existsb (intersects (cx c) (cy c))
                   (map shape
                      (filter (fun f' => UniqueID f' =? UniqueID f)
                         (rows d))))) pts
    /\ (forall c f', In c left -> In f' (rows d) ->
          UniqueID f' = UniqueID f ->
          intersects (cx c) (cy c) (shape f') = false)
    /\ (In f (rows d) ->
        forall c, In c left -> intersects (cx c) (cy c) (shape f) = false)
    /\ (forall c, In c pts -> ~ In c left ->
          exists f', In f' (rows d) /\ UniqueID f' = UniqueID f
                     /\ intersects (cx c) (cy c) (shape f') = true)
    /\ (In f (rows d) ->
        (forall f', In f' (rows d) -> UniqueID f' = UniqueID f -> f' = f) ->
        left
        = filter (fun c => negb (intersects (cx c) (cy c) (shape f))) pts).
Proof.
  intros Hd Hpts.
  destruct (mask_run inputs dem d d f Hd w pts Hpts) as [w' [Hrun [Hm _]]].
  set (zone := filter (fun f' => UniqueID f' =? UniqueID f) (rows d)).
  set (hit := fun c : Cell =>
                existsb (intersects (cx c) (cy c)) (map shape zone)).
  assert (Hmiss : forall c f', In c (filter (fun c => negb (hit c)) pts) ->
            In f' (rows d) -> UniqueID f' = UniqueID f ->
            intersects (cx c) (cy c) (shape f') = false).
  { intros c f' Hc Hf' Hid. apply filter_In in Hc. destruct Hc as [_ Hc].
    apply negb_true_iff in Hc.
    destruct (intersects (cx c) (cy c) (shape f')) eqn:Hi; [|reflexivity].
    assert (Hex : hit c = true).
    { apply existsb_exists. exists (shape f'). split; [|exact Hi].
      apply in_map, filter_In. split; [exact Hf'|]. now apply Z.eqb_eq. }
    congruence. }
  exists w', (filter (fun c => negb (hit c)) pts).
  split; [exact Hrun|]. split.
  { rewrite Hm. apply sget_sset_same. }
  split; [reflexivity|]. split; [exact Hmiss|]. split.
  { intros Hin c Hc. now apply (Hmiss c f). }
  split.
  - intros c Hc Hnot.
    destruct (hit c) eqn:Hh.
    + apply existsb_exists in Hh. destruct Hh as [p [Hp Hi]].
      apply in_map_iff in Hp. destruct Hp as [f' [<- Hf']].
      apply filter_In in Hf'. destruct Hf' as [Hf' Hid].
      exists f'. split; [exact Hf'|]. split; [now apply Z.eqb_eq | exact Hi].
    + exfalso. apply Hnot, filter_In. split; [exact Hc | now rewrite Hh].
  - intros Hin Huniq. apply filter_ext. intros c. f_equal.
    now apply footprint_of_unique.
Qed.

End WithEngine.

Lemma mask_deletes_the_footprint_of_the_identifier_witness :
  let f := feature 1 (Grid.rect 4 4 5 5) in
  let P := postpointsDEMoutput "twins" 1 in
  let w := fst (run [twins] dem0 (extract_commands cfg0 twins f)
                  empty_world) in
  let pts := filter (fun c => Grid.inside (cx c) (cy c) (Grid.rect 2 2 7 7))
               dem0 in
  exists w' left,
    run [twins] dem0 (mask_commands twins f) w = (w', None)
    /\ sget P (memory w') = Some left
    /\ (forall c, In c left ->
          Grid.inside (cx c) (cy c) (Grid.rect 4 4 5 5) = false)
    /\ (forall c, In c pts -> ~ In c left ->
          exists f', In f' (rows twins) /\ UniqueID f' = 1
                     /\ Grid.inside (cx c) (cy c) (shape f') = true).
Proof.
  intros f P w pts.
  destruct (mask_deletes_the_footprint_of_the_identifier (E := Grid.engine)
              [twins] dem0 twins f w pts)
    as [w' [left [H1 [H2 [_ [_ [H5 [H6 _]]]]]]]].
  - reflexivity.
  - vm_compute. reflexivity.
  - exists w', left. split; [exact H1|]. split; [exact H2|].
    split; [|exact H6]. apply H5. left. reflexivity.
Defined.

(** C4 fails as stated: in [twins] two rows carry the identifier 1.  The
    mask stage of the first row, whose footprint is the rectangle
    (4,4)-(5,5), also deletes the four points on the rectangle
    (2,2)-(3,3) of the second row: the point at (2,2) is in the point
    cloud before the stage and not after it, and it does not intersect
    the footprint of the first row; 8 of the 36 points are deleted, of
    which 4 intersect that footprint. *)
Lemma mask_deletes_points_off_the_footprint :
  let f := feature 1 (Grid.rect 4 4 5 5) in
  let P := postpointsDEMoutput "twins" 1 in
  let w := fst (run [twins] dem0 (extract_commands cfg0 twins f)
                  empty_world) in
  let r := run [twins] dem0 (mask_commands twins f) w in
  let c := mkCell 2 2 10 in
  snd r = None
  /\ option_map (existsb (same_place c)) (sget P (memory w)) = Some true
  /\ option_map (existsb (same_place c)) (sget P (memory (fst r)))
     = Some false
  /\ intersects (Engine := Grid.engine) (cx c) (cy c) (shape f) = false
  /\ option_map (@List.length Cell) (sget P (memory w)) = Some 36%nat
  /\ option_map (@List.length Cell) (sget P (memory (fst r))) = Some 28%nat
  /\ option_map
       (fun pts => List.length
          (filter (fun c => intersects (Engine := Grid.engine)
                              (cx c) (cy c) (shape f)) pts))
       (sget P (memory w)) = Some 4%nat.
Proof. repeat (cbv zeta; match goal with |- _ /\ _ => split end);
    vm_compute; reflexivity. Qed.

End MaskRun.

(* ================================================================== *)
(** * Where a run stops on a feature that cannot be triangulated *)
(* ================================================================== *)

Module FailureRun.
Import Str Naming Script Geo Sql Run Observe StrFacts RunFacts EdgeRuns
  FeatureRun Sample.

Section WithEngine.
Context {E : Engine}.
Variable cfg : Config.
Variable inputs : list Dataset.
Variable dem : Raster.

(** The reconstruction stops at [CreateTin_3d] with the point cloud still
    in the memory workspace. *)
Lemma reconstruct_stops (d : Dataset) (f : Feature) (w : World)
  (pts : list Cell) :
  sget (postpointsDEMoutput (baseName d) (UniqueID f)) (memory w) = Some pts ->
  triangulable pts = false ->
  exists w1,
    run inputs dem (reconstruct_commands cfg d f) w
    = (w1, Some (ExecuteError "CreateTin_3d"))
    /\ rasters w1 = rasters w /\ memory w1 = memory w /\ tins w1 = tins w
    /\ tables w1 = tables w.
Proof.
  intros Hpts Ht.
  set (w1 := made (join (wspace cfg) predisFolder_name) w).
  destruct (made_fields (join (wspace cfg) predisFolder_name) w)
    as [_ [R1 [M1 T1]]].
  fold w1 in R1, M1, T1.
  exists w1. split; [|repeat split; try assumption].
  - unfold reconstruct_commands.
    rewrite (run_step _ _ _ _ w w1) by reflexivity.
    rewrite (run_step _ _ _ _ w1 w1) by reflexivity.
    cbn [run exec]. now rewrite M1, Hpts, Ht.
  - unfold w1, made. now destruct (existsb _ _).
Qed.

(** The calls of a feature whose masked point cloud cannot be
    triangulated: the clip raster is written, the point cloud is masked,
    and the run stops at [CreateTin_3d]. *)
Lemma feature_stops (d : Dataset) (f : Feature) (w : World) :
  find_input inputs (slumpset d) = Some d ->
  triangulable (donors dem d f) = false ->
  exists w1,
    run inputs dem (feature_commands cfg d f) w
    = (w1, Some (ExecuteError "CreateTin_3d"))
    /\ rasters w1
       = sset (path_str (artifact (wspace cfg) (baseName d) (UniqueID f)
                           ClippedDEM))
           (clipped dem f) (rasters w)
    /\ sget (postpointsDEMoutput (baseName d) (UniqueID f)) (memory w1)
       = Some (donors dem d f)
    /\ tins w1 = tins w
    /\ tables w1 = tables w.
Proof.
  intros Hd Ht. unfold feature_commands.
  destruct (extract_run cfg inputs dem d f w) as [w1 [H1 [R1 [M1 [N1 T1]]]]].
  cbv beta zeta in H1, R1, M1.
  assert (P1 : sget (postpointsDEMoutput (baseName d) (UniqueID f))
                 (memory w1) = Some (clipped dem f))
    by (rewrite M1; apply sget_sset_same).
  destruct (mask_run inputs dem d d f Hd w1 _ P1)
    as [w2 [H2 [M2 [R2 [N2 T2]]]]].
  cbv beta zeta in H2, M2.
  assert (P2 : sget (postpointsDEMoutput (baseName d) (UniqueID f))
                 (memory w2) = Some (donors dem d f))
    by (rewrite M2; apply sget_sset_same).
  destruct (reconstruct_stops d f w2 _ P2 Ht)
    as [w3 [H3 [R3 [M3 [N3 T3]]]]].
  exists w3. split.
  - rewrite run_app, H1. cbv beta iota. rewrite run_app, H2. cbv beta iota.
    now rewrite run_app, H3.
  - rewrite R3, R2, R1, M3, N3, N2, N1, T3, T2, T1. now repeat split.
Qed.

(** C3, as the script has it. When the run reaches a feature [f] of a
    dataset [d] whose masked point cloud has fewer than three points, or
    cannot be triangulated for another reason, it writes the feature's
    clip raster, masks its point cloud, and stops at the triangulation
    call with the error of that call: nothing catches it.  In the world
    the run ends in, the tables are those that were there when the
    processing of the feature began, so no table has been written for the
    feature and the tables of earlier datasets remain; no TIN has been
    written for it; the point cloud is still in the memory workspace; and
    none of the calls that follow in the script (the rest of the feature,
    the later features and datasets, the merges of the dataset and of the
    batch) is carried out, whatever they are. *)
Theorem failed_triangulation_ends_the_run (w w0 : World)
  (pre post : list command) (d : Dataset) (f : Feature) :
  script_commands cfg inputs
  = (pre ++ feature_commands cfg d f ++ post)%list ->
  run inputs dem pre w = (w0, None) ->
  find_input inputs (slumpset d) = Some d ->
  ((List.length (donors dem d f) < 3)%nat
   \/ triangulable (donors dem d f) = false) ->
  exists w1,
    run_script cfg dem inputs w = (w1, Some (ExecuteError "CreateTin_3d"))
    /\ tables w1 = tables w0
    /\ tins w1 = tins w0
    /\ rasters w1
       = sset (path_str (artifact (wspace cfg) (baseName d) (UniqueID f)
                           ClippedDEM))
           (clipped dem f) (rasters w0)
    /\ sget (postpointsDEMoutput (baseName d) (UniqueID f)) (memory w1)
       = Some (donors dem d f).
Proof.
  intros Hs Hpre Hd Hlen.
  assert (Ht : triangulable (donors dem d f) = false).
  { destruct Hlen as [Hlen|Ht]; [|exact Ht].
    destruct (triangulable (donors dem d f)) eqn:Ht; [|reflexivity].
    apply triangulable_three in Ht. lia. }
  destruct (feature_stops d f w0 Hd Ht) as [w1 [H1 [R1 [M1 [N1 T1]]]]].
  exists w1. split; [|now repeat split].
  unfold run_script. rewrite Hs, run_app, Hpre. cbv beta iota.
  now rewrite run_app, H1.
Qed.

End WithEngine.

Lemma failed_triangulation_ends_the_run_witness :
  let cs := script_commands cfg0 [north; stray] in
  let f := feature 1 (Grid.rect 100 100 101 101) in
  let w0 := fst (run [north; stray] dem0 (firstn 40 cs) empty_world) in
  exists w1,
    run_script cfg0 dem0 [north; stray] empty_world
    = (w1, Some (ExecuteError "CreateTin_3d"))
    /\ tables w1 = tables w0
    /\ map (fun e => file (fst e)) (tables w0)
       = ["north_SlumpID_1_zs.dbf"; "north_SlumpID_1_rmse.dbf";
          "north_FinalStatistics.dbf"; "north_FinalRMSE.dbf"]
    /\ sget (postpointsDEMoutput "stray" 1) (memory w1) = Some [].
Proof.
  intros cs f w0.
  set (r := run [north; stray] dem0 (firstn 40 cs) empty_world).
  assert (Hs : snd r = None) by (vm_compute; reflexivity).
  assert (Hr : run [north; stray] dem0 (firstn 40 cs) empty_world
               = (w0, None))
    by (change (r = (fst r, None)); rewrite <- Hs; apply surjective_pairing).
  assert (Hn : donors (E := Grid.engine) dem0 stray f = [])
    by (vm_compute; reflexivity).
  destruct (failed_triangulation_ends_the_run (E := Grid.engine) cfg0
              [north; stray] dem0 empty_world w0 (firstn 40 cs)
              (skipn 66 cs) stray f) as [w1 [H1 [H2 [_ [_ H5]]]]].
  - reflexivity.
  - exact Hr.
  - reflexivity.
  - left. rewrite Hn. simpl. lia.
  - exists w1. rewrite Hn in H5.
    split; [exact H1|]. split; [exact H2|]. split; [|exact H5].
    vm_compute. reflexivity.
Defined.

End FailureRun.

(* ================================================================== *)
(** * The identifier column *)
(* ================================================================== *)

(** The runs above take the identifier of a row as given.  Here the
    columns of the attribute tables are looked at as well: the column
    list read in line 133, the cursor of line 134, the read by position
    of line 138, and the column the where clauses of lines 184, 263 and
    306 and the zone field of lines 269 and 312 name. *)
Module Columns.
Import Str Naming Script Geo Sql Run Observe StrFacts RunFacts PlanFacts
  EdgeRuns SkeletonFacts MergeCount FeatureRun Keeping Sample.

(** What ends a run: an error of a geoprocessing call or an unbound name
    as before, the [RuntimeError] of a cursor, or the [IndexError] of
    [fieldnames[IDattribute]]. *)
Inductive Stop : Type :=
| Raised (e : Error)
| RuntimeError (call : string)
| IndexError (expression : string).

(** The calls of the script, with the two reads of the attribute table
    in the cursor loop. *)
Inductive step : Type :=
| Call (c : command)
| SearchCursor (fc : string) (argument : list string)     (* line 134 *)
| getValue (fc : string) (position : nat).                (* line 138 *)

Definition calls (ss : list step) : list command :=
  flat_map (fun s => match s with Call c => [c] | _ => [] end) ss.

Section WithEngine.
Context {E : Engine}.
Variable cfg : Config.
Variable inputs : list Dataset.
Variable dem : Raster.

(** [arcpy.ListFields]: the names of the columns of a feature class. *)
Variable ListFields : string -> list string.

(** Line 134 passes [['UniqueID']] where [arcpy.SearchCursor] takes its
    where clause.  Whether that call raises on a feature class without
    such a column is left open: what follows holds either way. *)
Variable cursor_raises : bool.

Definition has_field (name fc : string) : bool :=
  existsb (String.eqb name) (ListFields fc).

Definition lift (r : Error + World) : Stop + World :=
  match r with
  | inl e => inl (Raised e)
  | inr w => inr w
  end.

(** One step.  A selection by attribute and a zonal statistics call
    raise on a layer whose feature class lacks the column they name;
    apart from that the calls are those of [exec]. *)
Definition exec_step (s : step) (w : World) : Stop + World :=
  match s with
  | SearchCursor fc argument =>
      if (cursor_raises && negb (forallb (fun a => has_field a fc) argument))%bool
      then inl (RuntimeError "SearchCursor")
      else inr w
  | getValue fc position =>
      match nth_error (ListFields fc) position with
      | Some _ => inr w
      | None => inl (IndexError "fieldnames[IDattribute]")
      end
  | Call (SelectLayerByAttribute_management l clause) =>
      match sget l (layers w) with
      | Some (AreaLayer n _) =>
          if has_field "UniqueID" n
          then lift (exec inputs dem
                       (SelectLayerByAttribute_management l clause) w)
          else inl (Raised (ExecuteError "SelectLayerByAttribute_management"))
      | _ => lift (exec inputs dem
                     (SelectLayerByAttribute_management l clause) w)
      end
  | Call (ZonalStatisticsAsTable_sa l zone_field r out st) =>
      match sget l (layers w) with
      | Some (AreaLayer n _) =>
          if has_field zone_field n
          then lift (exec inputs dem
                       (ZonalStatisticsAsTable_sa l zone_field r out st) w)
          else inl (Raised (ExecuteError "ZonalStatisticsAsTable_sa"))
      | _ => lift (exec inputs dem
                     (ZonalStatisticsAsTable_sa l zone_field r out st) w)
      end
  | Call c => lift (exec inputs dem c w)
  end.

Fixpoint run_steps (ss : list step) (w : World) : World * option Stop :=
  match ss with
  | [] => (w, None)
  | s :: ss' =>
      match exec_step s w with
      | inr w' => run_steps ss' w'
      | inl e => (w, Some e)
      end
  end.

Definition outputVector (d : Dataset) : Path :=
  mkPath (join (wspace cfg) bufFolder_name) (outputVector_name (baseName d)).

(** Lines 135-315: the identifier is read by position, then the calls of
    the loop body follow. *)
Definition feature_steps (d : Dataset) (f : Feature) : list step :=
  getValue (path_str (outputVector d)) (IDattribute cfg)
  :: map Call (feature_commands cfg d f).

(** Lines 134-315: the cursor on the buffered feature class and its
    loop. *)
Definition cursor_steps (d : Dataset) : list step :=
  SearchCursor (path_str (outputVector d)) ["UniqueID"]
  :: flat_map (feature_steps d) (rows d).

(** The body of the dataset loop, lines 87-392. *)
Definition dataset_steps (v : PyVars) (d : Dataset) : list step :=
  let w := wspace cfg in
  let b := baseName d in
  let v' := vars_after cfg v d in
  (map Call
     [ makedirs (join w bufFolder_name);
       Describe (slumpset d);
       Buffer_analysis (slumpset d) (outputVector d);
       makedirs (join w clipFolder_name);
       Describe (path_str (outputVector d)) ]
   ++ cursor_steps d
   ++ map Call
        (makedirs (join w fzsFolder_name)
         :: merge_from "zsFolder_joined" (zsFolder_joined v')
              (mkPath (join w fzsFolder_name) (fTablename b))
              (makedirs (join w frmseFolder_name)
               :: merge_from "rmseFolder_joined" (rmseFolder_joined v')
                    (mkPath (join w frmseFolder_name) (frmseTablename b))
                    [])))%list.

Fixpoint loop_steps (v : PyVars) (ds : list Dataset) : list step :=
  match ds with
  | [] => []
  | d :: ds' => (dataset_steps v d ++ loop_steps (vars_after cfg v d) ds')%list
  end.

Definition script_steps (inputVector : list Dataset) : list step :=
  (loop_steps unbound inputVector
   ++ map Call
        (final_commands cfg (snd (loop_commands cfg unbound inputVector))))%list.

(** The outcome of [run], as an outcome of [run_steps]. *)
Definition as_steps (r : World * option Error) : World * option Stop :=
  (fst r, option_map Raised (snd r)).

(** Which layers are known to pass the column check, call by call: the
    layers made in the calls themselves, from a points feature class or
    from a feature class that has the column. *)
Definition admits (known : list string) (c : command) : bool :=
  match c with
  | MakeFeatureLayer_management (InputFC n) _ => has_field "UniqueID" n
  | SelectLayerByAttribute_management l _ => existsb (String.eqb l) known
  | ZonalStatisticsAsTable_sa l zone_field _ _ _ =>
      (String.eqb zone_field "UniqueID" && existsb (String.eqb l) known)%bool
  | _ => true
  end.

Definition learn (known : list string) (c : command) : list string :=
  match c with
  | MakeFeatureLayer_management _ l => l :: known
  | _ => known
  end.

Fixpoint scoped (known : list string) (cs : list command) : bool :=
  match cs with
  | [] => true
  | c :: cs' => (admits known c && scoped (learn known c) cs')%bool
  end.

Definition checked (known : list string) (w : World) : Prop :=
  forall l n s, In l known -> sget l (layers w) = Some (AreaLayer n s) ->
                has_field "UniqueID" n = true.


Ltac exec_cases H :=
  repeat match type of H with
         | context [match ?x with _ => _ end] => destruct x eqn:?
         end;
  try discriminate H.

Lemma calls_Call (cs : list command) : calls (map Call cs) = cs.
Proof. induction cs as [|c cs IH]; simpl; [reflexivity | now rewrite IH]. Qed.

Lemma calls_app (a b : list step) :
  calls (a ++ b) = (calls a ++ calls b)%list.
Proof. apply flat_map_app. Qed.

Lemma calls_features (d : Dataset) (fs : list Feature) :
  calls (flat_map (feature_steps d) fs) = flat_map (feature_commands cfg d) fs.
Proof.
  induction fs as [|f fs IH]; [reflexivity|].
  cbn [flat_map]. rewrite calls_app, IH. unfold feature_steps.
  change (calls (?s :: map Call ?cs)) with (calls (map Call cs)).
  now rewrite calls_Call.
Qed.

Lemma calls_dataset (v : PyVars) (d : Dataset) :
  calls (dataset_steps v d) = dataset_commands cfg v d.
Proof.
  unfold dataset_steps, dataset_commands, cursor_steps. cbv zeta.
  rewrite !calls_app, !calls_Call.
  change (calls (SearchCursor ?a ?b :: ?ss)) with (calls ss).
  now rewrite calls_features.
Qed.

Lemma calls_loop (ds : list Dataset) (v : PyVars) :
  calls (loop_steps v ds) = fst (loop_commands cfg v ds).
Proof.
  revert v. induction ds as [|d ds IH]; intros v; [reflexivity|].
  cbn [loop_steps]. now rewrite calls_app, calls_dataset, IH, loop_commands_fst.
Qed.

(** Without the reads of the attribute table, the steps are the calls of
    the script. *)
Lemma calls_script (ds : list Dataset) :
  calls (script_steps ds) = script_commands cfg ds.
Proof.
  unfold script_steps.
  now rewrite calls_app, calls_loop, calls_Call, script_commands_eq.
Qed.

Lemma run_steps_app (a b : list step) (w : World) :
  run_steps (a ++ b) w
  = match run_steps a w with
    | (w1, None) => run_steps b w1
    | stopped => stopped
    end.
Proof.
  revert w. induction a as [|s a IH]; intros w; simpl; [reflexivity|].
  destruct (exec_step s w); [reflexivity | apply IH].
Qed.

Lemma step_admitted (known : list string) (c : command) (w : World) :
  admits known c = true -> checked known w ->
  exec_step (Call c) w = lift (exec inputs dem c w).
Proof.
  intros Ha Hw. destruct c; try reflexivity.
  - cbn [exec_step]. destruct (sget layer (layers w)) as [[p s|n s]|] eqn:Hl;
      try reflexivity.
    simpl in Ha. apply existsb_exists in Ha. destruct Ha as [l [Hin Heq]].
    apply String.eqb_eq in Heq. subst l.
    now rewrite (Hw _ _ _ Hin Hl).
  - cbn [exec_step].
    destruct (sget zone_layer (layers w)) as [[p s|n s]|] eqn:Hl;
      try reflexivity.
    simpl in Ha. apply andb_true_iff in Ha. destruct Ha as [Hz Ha].
    apply String.eqb_eq in Hz. subst zone_field.
    apply existsb_exists in Ha. destruct Ha as [l [Hin Heq]].
    apply String.eqb_eq in Heq. subst l.
    now rewrite (Hw _ _ _ Hin Hl).
Qed.

Lemma checked_set (known : list string) (w w' : World) (l : string)
  (x : Layer) :
  layers w' = sset l x (layers w) ->
  checked known w ->
  (forall n s, x = AreaLayer n s -> has_field "UniqueID" n = true) ->
  checked (l :: known) w'.
Proof.
  intros Hw' Hw Hx l0 n s Hin Hl. rewrite Hw' in Hl.
  destruct (String.eqb l0 l) eqn:El.
  - apply String.eqb_eq in El. subst l0. rewrite sget_sset_same in Hl.
    injection Hl as Hl. now apply (Hx n s).
  - rewrite (sget_sset_other _ _ _ _ El) in Hl.
    destruct Hin as [<-|Hin]; [now rewrite String.eqb_refl in El|].
    now apply (Hw l0 n s).
Qed.

Lemma checked_weaken (known : list string) (l : string) (w : World) :
  checked (l :: known) w -> checked known w.
Proof. intros H l0 n s Hin. apply H. now right. Qed.

Lemma exec_checked (known : list string) (c : command) (w w' : World) :
  admits known c = true -> checked known w ->
  exec inputs dem c w = inr w' -> checked (learn known c) w'.
Proof.
  intros Ha Hw H.
  destruct c; simpl in H; exec_cases H; injection H as <-;
    try (exact Hw); cbn [learn].
  - eapply checked_set; [reflexivity | exact Hw | intros; discriminate].
  - eapply checked_set; [reflexivity | exact Hw |].
    intros n s [= <- _]. exact Ha.
  - simpl in Ha. apply existsb_exists in Ha. destruct Ha as [k [Hin Heq]].
    apply String.eqb_eq in Heq. subst k.
    apply (checked_weaken known layer).
    eapply checked_set; [reflexivity | exact Hw |].
    intros n s [= <- _]. eapply Hw; eassumption.
  - apply (checked_weaken known layer).
    eapply checked_set; [reflexivity | exact Hw | intros; discriminate].
  - apply (checked_weaken known layer).
    eapply checked_set; [reflexivity | exact Hw | intros; discriminate].
Qed.

(** Calls that only name layers they made themselves, over feature
    classes that have the column, run as before. *)
Lemma scoped_run (cs : list command) (known : list string) (w : World) :
  scoped known cs = true -> checked known w ->
  run_steps (map Call cs) w = as_steps (run inputs dem cs w).
Proof.
  revert known w. induction cs as [|c cs IH]; intros known w Hs Hw;
    [reflexivity|].
  cbn [scoped] in Hs. apply andb_true_iff in Hs. destruct Hs as [Ha Hs].
  cbn [map run_steps run]. rewrite (step_admitted known c w Ha Hw).
  destruct (exec inputs dem c w) as [e|w1] eqn:Ec; [reflexivity|].
  cbn [lift]. apply (IH (learn known c)); [exact Hs|].
  now apply (exec_checked known c w).
Qed.

Lemma checked_nil (w : World) : checked [] w.
Proof. intros l n s []. Qed.


Lemma steps_app (a b : list step) (a' b' : list command) (w : World) :
  run_steps a w = as_steps (run inputs dem a' w) ->
  (forall w1, run_steps b w1 = as_steps (run inputs dem b' w1)) ->
  run_steps (a ++ b) w = as_steps (run inputs dem (a' ++ b') w).
Proof.
  intros Ha Hb. rewrite run_steps_app, run_app, Ha.
  destruct (run inputs dem a' w) as [w1 [e|]]; [reflexivity | apply Hb].
Qed.

(** The feature class [d] and its buffered copy have the column
    UniqueID, and the table of the copy has a column at the position
    [IDattribute]. *)
Definition has_identifier (d : Dataset) : Prop :=
  has_field "UniqueID" (slumpset d) = true
  /\ has_field "UniqueID" (path_str (outputVector d)) = true
  /\ nth_error (ListFields (path_str (outputVector d))) (IDattribute cfg)
     <> None.

Lemma scoped_feature (d : Dataset) (f : Feature) :
  has_field "UniqueID" (slumpset d) = true ->
  scoped [] (feature_commands cfg d f) = true.
Proof.
  intros H.
  unfold feature_commands, extract_commands, mask_commands,
    reconstruct_commands, dod_commands, zs_commands, rmse_commands,
    zonal_commands.
  simpl. rewrite !H. reflexivity.
Qed.

Lemma feature_steps_run (d : Dataset) (f : Feature) (w : World) :
  has_identifier d ->
  run_steps (feature_steps d f) w
  = as_steps (run inputs dem (feature_commands cfg d f) w).
Proof.
  intros [Hs [_ Hn]]. unfold feature_steps. cbn [run_steps exec_step].
  destruct (nth_error _ _); [|contradiction].
  apply (scoped_run _ []); [now apply scoped_feature | apply checked_nil].
Qed.

Lemma features_steps_run (d : Dataset) (fs : list Feature) :
  has_identifier d ->
  forall w,
    run_steps (flat_map (feature_steps d) fs) w
    = as_steps (run inputs dem (flat_map (feature_commands cfg d) fs) w).
Proof.
  intros Hd. induction fs as [|f fs IH]; intros w; [reflexivity|].
  cbn [flat_map]. apply steps_app; [now apply feature_steps_run | exact IH].
Qed.

Lemma cursor_passes (d : Dataset) (ss : list step) (w : World) :
  has_field "UniqueID" (path_str (outputVector d)) = true ->
  run_steps (SearchCursor (path_str (outputVector d)) ["UniqueID"] :: ss) w
  = run_steps ss w.
Proof.
  intros H. cbn [run_steps exec_step forallb]. rewrite H.
  now rewrite andb_false_r.
Qed.

Lemma dataset_steps_run (v : PyVars) (d : Dataset) :
  has_identifier d ->
  forall w,
    run_steps (dataset_steps v d) w
    = as_steps (run inputs dem (dataset_commands cfg v d) w).
Proof.
  intros Hd w. unfold dataset_steps, dataset_commands. cbv zeta.
  apply steps_app.
  - apply (scoped_run _ []); [reflexivity | apply checked_nil].
  - intros w1. apply steps_app.
    + unfold cursor_steps. rewrite cursor_passes by apply Hd.
      now apply features_steps_run.
    + intros w2. apply (scoped_run _ []); [|apply checked_nil].
      unfold merge_from.
      destruct (zsFolder_joined _); [|reflexivity].
      destruct (rmseFolder_joined _); reflexivity.
Qed.

Lemma loop_steps_run (ds : list Dataset) :
  (forall d, In d ds -> has_identifier d) ->
  forall v w,
    run_steps (loop_steps v ds) w
    = as_steps (run inputs dem (fst (loop_commands cfg v ds)) w).
Proof.
  induction ds as [|d ds IH]; intros Hds v w; [reflexivity|].
  cbn [loop_steps]. rewrite loop_commands_fst. apply steps_app.
  - apply dataset_steps_run, Hds. now left.
  - intros w1. apply IH. intros d' Hd'. apply Hds. now right.
Qed.

(** When every feature class has the column, at the position the script
    reads, the steps run as the calls of the script do. *)
Lemma script_steps_run (ds : list Dataset) (w : World) :
  (forall d, In d ds -> has_identifier d) ->
  run_steps (script_steps ds) w
  = as_steps (run inputs dem (script_commands cfg ds) w).
Proof.
  intros Hds. unfold script_steps. rewrite script_commands_eq.
  apply steps_app; [now apply loop_steps_run|].
  intros w1. apply (scoped_run _ []); [|apply checked_nil].
  unfold final_commands. destruct (desc_baseName _); reflexivity.
Qed.








End WithEngine.





End Columns.
